(** * The WhatsApp / ADK bridge of [index.js], embedded and verified

  The development follows the classes of [index.js]:
  - [Js]: the JavaScript string primitives the code relies on;
  - [Gcs]: a Cloud Storage bucket as a finite map from object names;
  - [GcsArtifactService]: versioned artifact storage;
  - [MediaHandler]: normalisation of inbound attachments;
  - [UserSessionManager] and [WhatsAppBot]: the session directory, the turn
    dispatcher and the streaming aggregator.

  Conventions of the embedding:
  - storage and HTTP calls are explicit state passing; a bucket is a
    [gmap] from object names, the in-memory [activeSessions] map a [gmap]
    from user ids, and the mutation of a session object held in that map is
    an update of the map;
  - storage calls succeed (the [catch] branches of the storage helpers are
    not taken), except the listing inside [listVersions], whose failure
    [listVersions_try] and [saveArtifact_try] make explicit; a [null] result
    is [None], a thrown error is [Throw];
  - clock readings, identifiers from [uuidv4], the answers of the backend
    and the third-party converters ([XLSX], [mammoth], [file-type],
    [JSON]) are inputs;
  - strings are byte strings: for ASCII text a character is one UTF-16 code
    unit of the code's string, and the results on cutting a long message
    into chunks are stated for ASCII text; user ids, session ids, MIME types
    and object names are taken to be ASCII;
  - version numbers are naturals.  The code holds them in Numbers (doubles),
    which are exact up to 2^53: [Js.plus_one] rounds the next version as the
    code's addition does, object names carry a version up to 2^53 in plain
    decimal digits, and results on new versions are stated for listings in
    that range;
  - a chunk of the response stream is given by the complete lines it yields;
  - the resources of the engine (memory, the call stack, the number of
    arguments a call such as [Math.max(...versions)] can take) are not
    limited.
*)

From Stdlib Require Import NArith ZArith Ascii String Decimal DecimalString DecimalN.
From Stdlib.Strings Require Import Byte.
From Stdlib Require Import List Lia.
From stdpp Require Import gmap strings list fin_maps sorting.

#[local] Open Scope N_scope.

(** ** JavaScript string primitives *)

Module Js.

(** [s.startsWith(p)] *)
Definition startsWith (s p : string) : bool := String.prefix p s.

(** [s.substring(n)] *)
Fixpoint substring (n : nat) (s : string) : string :=
  match n, s with
  | O, _ => s
  | S n', String _ s' => substring n' s'
  | S _, EmptyString => EmptyString
  end.

(** [s.includes(sub)] *)
Fixpoint includes (s sub : string) : bool :=
  String.prefix sub s
  || match s with
     | EmptyString => false
     | String _ s' => includes s' sub
     end.

(** [s.replace(pat, rep)] for a string pattern: only the first occurrence
    of [pat] is replaced. *)
Fixpoint replace (s pat rep : string) : string :=
  if String.prefix pat s then rep +:+ substring (String.length pat) s
  else match s with
       | EmptyString => EmptyString
       | String c s' => String c (replace s' pat rep)
       end.

(** [s.split(sep)] for a one-character separator. *)
Fixpoint split (sep : ascii) (s : string) : list string :=
  match s with
  | EmptyString => [EmptyString]
  | String c s' =>
      if Ascii.eqb c sep then EmptyString :: split sep s'
      else match split sep s' with
           | w :: ws => String c w :: ws
           | [] => [String c EmptyString]
           end
  end.

(** Truthiness of a string value: only the empty string is falsy. *)
Definition truthy (s : string) : bool := negb (String.eqb s EmptyString).

(** [n.toString()] and template interpolation of a non-negative integer. *)
Definition toString (n : N) : string := NilEmpty.string_of_uint (N.to_uint n).

(** [(\d+)] applied to a whole string, followed by [parseInt]: the string
    must be a non-empty run of decimal digits. *)
Definition parseDigits (ds : string) : option N :=
  match ds with
  | EmptyString => None
  | _ => N.of_uint <$> NilEmpty.uint_of_string ds
  end.

(** [Math.max(...l)] on a non-empty list; callers test the length first. *)
Definition Math_max (l : list N) : N := foldr N.max 0 l.

(** [Number.MAX_SAFE_INTEGER], 2^53 - 1: up to it [x + 1] is exact. *)
Definition MAX_SAFE_INTEGER : N := 9007199254740991.

(** [x + 1] on a Number holding the natural [x].  The sum is exact up to
    [MAX_SAFE_INTEGER]; beyond, it is rounded to the nearest double, a tie
    going to the even significand: doubles are two apart from 2^53 to 2^54,
    where [x + 1] lies half-way between [x] and [x + 2], and at least four
    apart from 2^54 on.  So 2^53 + 1 is 2^53 again. *)
Definition plus_one (x : N) : N :=
  if x <=? MAX_SAFE_INTEGER then x + 1
  else if x <? 2 ^ 54 then (if N.even (x / 2) then x else x + 2)
  else x.

End Js.

(** ** Cloud Storage buckets *)

Module Gcs.

(** [bucket.getFiles({ prefix })]: the names of the objects whose name
    starts with [prefix].  Callers sort or collect the answer in a set. *)
Definition getFiles {A} (b : gmap string A) (prefix : string) : list string :=
  filter (λ name, Js.startsWith name prefix = true) (map_to_list b).*1.

End Gcs.


(** ** [GcsArtifactService] *)

Module GcsArtifactService.

(** A [Buffer] or a string, the two shapes a part's [data] takes. *)
Inductive Payload :=
| Buffer (bytes : list byte)
| Text (s : string).

Record InlineData := {
  mime_type : option string;
  inline_payload : option Payload
}.

(** An ADK [Part] as the bot builds and receives it; absent fields are
    [None]. *)
Record Part := {
  part_mimeType : option string;
  part_data : option Payload;
  inline_data : option InlineData
}.

(** The JSON document [saveArtifact] stores. *)
Record ArtifactData := {
  mimeType : string;
  data : option Payload;
  timestamp : string;
  filename : string
}.

(** An object of the artifacts bucket: its bytes and its metadata. *)
Record GcsObject := {
  content : list byte;
  contentType : string;
  customMetadata : list (string * string)
}.

(** What [loadArtifactBySession] hands back to the bot. *)
Record ImageData := {
  image_mimeType : string;
  image_data : string
}.

(** [a || b] on possibly absent strings. *)
Definition or_string (a b : option string) : option string :=
  match a with
  | Some s => if Js.truthy s then Some s else b
  | None => b
  end.

(** [a || d] where [d] is a string that is always there. *)
Definition or_default (a : option string) (d : string) : string :=
  match a with
  | Some s => if Js.truthy s then s else d
  | None => d
  end.

Definition payload_truthy (p : Payload) : bool :=
  match p with
  | Buffer _ => true
  | Text s => Js.truthy s
  end.

(** [part.data || part.inline_data?.data] *)
Definition or_payload (a b : option Payload) : option Payload :=
  match a with
  | Some p => if payload_truthy p then Some p else b
  | None => b
  end.

Definition b64_alphabet : string :=
  "ABCDEFGHIJKLMNOPQRSTUVWXYZabcdefghijklmnopqrstuvwxyz0123456789+/".

Definition b64_char (i : N) : ascii :=
  default "="%char (String.get (N.to_nat i) b64_alphabet).

(** [buffer.toString('base64')] *)
Fixpoint base64 (bs : list byte) : string :=
  match bs with
  | [] => EmptyString
  | [a] =>
      let x := Byte.to_N a in
      String (b64_char (x / 4)) (String (b64_char ((x mod 4) * 16)) "==")
  | [a; b] =>
      let x := Byte.to_N a in
      let y := Byte.to_N b in
      String (b64_char (x / 4))
        (String (b64_char ((x mod 4) * 16 + y / 16))
           (String (b64_char ((y mod 16) * 4)) "="))
  | a :: b :: c :: rest =>
      let x := Byte.to_N a in
      let y := Byte.to_N b in
      let z := Byte.to_N c in
      String (b64_char (x / 4))
        (String (b64_char ((x mod 4) * 16 + y / 16))
           (String (b64_char ((y mod 16) * 4 + z / 64))
              (String (b64_char (z mod 64)) (base64 rest))))
  end.

(** The regular expression [/\/v(\d+)$/] applied to an object name, with
    [parseInt] on the captured group: the leftmost position from which the
    rest of the name is ["/v"] followed by digits only. *)
Fixpoint match_version (name : string) : option N :=
  match (if Js.startsWith name "/v" then Js.parseDigits (Js.substring 2 name)
         else None) with
  | Some v => Some v
  | None =>
      match name with
      | EmptyString => None
      | String _ rest => match_version rest
      end
  end.

(** [getArtifactPath(appName, userId, filename, sessionId = 'shared')] *)
Definition getArtifactPath (appName userId filename : string)
    (sessionId : option string) : string :=
  appName +:+ "/" +:+ userId +:+ "/" +:+ default "shared" sessionId
    +:+ "/" +:+ filename.

(** [listVersions(appName, userId, filename, sessionId = 'shared')], the
    [try] block: [getFiles] answers. *)
Definition listVersions (bucket : gmap string GcsObject)
    (appName userId filename : string) (sessionId : option string) : list N :=
  let artifactPath := getArtifactPath appName userId filename sessionId in
  let files := Gcs.getFiles bucket (artifactPath +:+ "/v") in
  merge_sort N.le (omap match_version files).

(** [listVersions] with its [catch]: [listed] tells whether [getFiles]
    answers; when it throws, the error is logged and the empty array is
    returned. *)
Definition listVersions_try (listed : bool) (bucket : gmap string GcsObject)
    (appName userId filename : string) (sessionId : option string) : list N :=
  if listed then listVersions bucket appName userId filename sessionId
  else [].

Section Service.

(** [JSON.stringify] and [JSON.parse] (with the buffer replacer and reviver)
    on artifact documents; [None] is a thrown [SyntaxError]. *)
Context (JSON_stringify : ArtifactData → list byte).
Context (JSON_parse : list byte → option ArtifactData).

(** [saveArtifact] from the answer [versions] of its [listVersions] call on;
    [now] is [new Date().toISOString()].  Returns the version and the bucket
    after the write. *)
Definition saveArtifactWith (versions : list N)
    (bucket : gmap string GcsObject) (now : string)
    (appName userId filename : string) (part : Part)
    (sessionId : option string) : N * gmap string GcsObject :=
  let artifactPath := getArtifactPath appName userId filename sessionId in
  let artifactData := {|
    mimeType :=
      or_default
        (or_string (part_mimeType part) (inline_data part ≫= mime_type))
        "application/octet-stream";
    data := or_payload (part_data part) (inline_data part ≫= inline_payload);
    timestamp := now;
    filename := filename
  |} in
  let nextVersion :=
    if bool_decide (0 < length versions)%nat
    then Js.plus_one (Js.Math_max versions)
    else 1 in
  let versionedPath := artifactPath +:+ "/v" +:+ Js.toString nextVersion in
  let fileBuffer := JSON_stringify artifactData in
  (nextVersion,
   <[versionedPath := {|
       content := fileBuffer;
       contentType := "application/json";
       customMetadata :=
         [("artifactVersion", Js.toString nextVersion);
          ("originalMimeType", mimeType artifactData);
          ("filename", filename)]
     |}]> bucket).

(** [saveArtifact(appName, userId, filename, part, sessionId = 'shared')]
    with a listing that answers. *)
Definition saveArtifact (bucket : gmap string GcsObject) (now : string)
    (appName userId filename : string) (part : Part)
    (sessionId : option string) : N * gmap string GcsObject :=
  saveArtifactWith (listVersions bucket appName userId filename sessionId)
    bucket now appName userId filename part sessionId.

(** [saveArtifact] over [listVersions_try]: with [listed = false] the
    listing fails, [listVersions] returns the empty array from its [catch]
    and the save goes on with it. *)
Definition saveArtifact_try (listed : bool) (bucket : gmap string GcsObject)
    (now : string) (appName userId filename : string) (part : Part)
    (sessionId : option string) : N * gmap string GcsObject :=
  saveArtifactWith
    (listVersions_try listed bucket appName userId filename sessionId)
    bucket now appName userId filename part sessionId.

(** [loadArtifact(appName, userId, filename, version = null,
    sessionId = 'shared')]; [None] is the [null] result. *)
Definition loadArtifact (bucket : gmap string GcsObject)
    (appName userId filename : string) (version : option N)
    (sessionId : option string) : option Part :=
  let artifactPath := getArtifactPath appName userId filename sessionId in
  let targetVersion :=
    match version with
    | Some v => if bool_decide (v = 0) then None else Some v
    | None => None
    end in
  let targetVersion :=
    match targetVersion with
    | Some v => Some v
    | None =>
        let versions := listVersions bucket appName userId filename sessionId in
        if bool_decide (length versions = 0%nat) then None
        else Some (Js.Math_max versions)
    end in
  v ← targetVersion;
  let versionedPath := artifactPath +:+ "/v" +:+ Js.toString v in
  file ← bucket !! versionedPath;
  artifactData ← JSON_parse (content file);
  Some {|
    inline_data := Some {|
      mime_type := Some (mimeType artifactData);
      inline_payload := data artifactData
    |};
    part_mimeType := Some (mimeType artifactData);
    part_data := data artifactData
  |}.

End Service.

(** [loadArtifactBySession(appName, userId, sessionId, filename,
    version = 0)].  [connected] is the answer of [testGCSConnection];
    [None] is the [null] result. *)
Definition loadArtifactBySession (connected : bool)
    (bucket : gmap string GcsObject)
    (appName userId sessionId filename : string) (version : option N)
    : option ImageData :=
  if negb connected then None
  else
    let artifactPath :=
      appName +:+ "/" +:+ userId +:+ "/" +:+ sessionId +:+ "/" +:+ filename
        +:+ "/" +:+ Js.toString (default 0 version) in
    file ← bucket !! artifactPath;
    let imageBuffer := content file in
    let base64Data := base64 imageBuffer in
    let mimeType :=
      if Js.includes filename ".jpg" || Js.includes filename ".jpeg"
      then "image/jpeg"
      else if Js.includes filename ".webp" then "image/webp"
      else "image/png" in
    Some {| image_mimeType := mimeType; image_data := base64Data |}.

(** The body of the [forEach] in [listArtifactKeys]: the file name an object
    name contributes, if any. *)
Definition listedFilename (userPath name : string) : option string :=
  let relativePath := Js.substring (String.length userPath) name in
  match Js.split "/" relativePath with
  | p0 :: p1 :: _ => if Js.startsWith p1 "v" then Some p0 else None
  | _ => None
  end.

(** [listArtifactKeys(appName, userId)]; [artifactsFolder] is
    [config.gcs.artifactsFolder].  The names go through a [Set] and come
    back sorted. *)
Definition listArtifactKeys (artifactsFolder : string)
    (bucket : gmap string GcsObject) (appName userId : string) : list string :=
  let userPath := artifactsFolder +:+ "/" +:+ appName +:+ "/" +:+ userId +:+ "/" in
  let files := Gcs.getFiles bucket userPath in
  let filenames : gset string :=
    foldl (λ acc name,
             match listedFilename userPath name with
             | Some p0 => {[p0]} ∪ acc
             | None => acc
             end) ∅ files in
  merge_sort String.le (elements filenames).

End GcsArtifactService.


(** ** Results of code that may throw *)

Inductive Outcome (A : Type) :=
| Ok (a : A)
| Throw (message : string).
Arguments Ok {A} a.
Arguments Throw {A} message.

(** ** [MediaHandler] *)

Module MediaHandler.
Import GcsArtifactService.

(** The media part of a WhatsApp message: its declared MIME type and, for
    documents, its file name. *)
Record MediaInfo := {
  mimetype : option string;
  fileName : option string
}.

(** [message.message]; [documentWithCaptionMessage] wraps an optional inner
    [message.documentMessage]. *)
Record Message := {
  imageMessage : option MediaInfo;
  videoMessage : option MediaInfo;
  audioMessage : option MediaInfo;
  documentMessage : option MediaInfo;
  documentWithCaptionMessage : option (option MediaInfo);
  conversation : option string;
  extendedTextMessage : option string
}.

(** A workbook as [XLSX.read] returns it. *)
Record Workbook (Worksheet : Type) := {
  SheetNames : list string;
  Sheets : gmap string Worksheet
}.
Arguments SheetNames {Worksheet} _.
Arguments Sheets {Worksheet} _.

(** The object [processMediaMessage] returns; [converted] and
    [originalFormat] are absent on the pass-through path. *)
Record MediaResult := {
  result_filename : string;
  result_mimeType : string;
  result_version : N;
  result_part : Part;
  converted : option bool;
  originalFormat : option string
}.

Definition XLSX_MIME : string :=
  "application/vnd.openxmlformats-officedocument.spreadsheetml.sheet".

Definition DOCX_MIME : string :=
  "application/vnd.openxmlformats-officedocument.wordprocessingml.document".

(** [getExtensionFromMimeType(mimeType)] *)
Definition getExtensionFromMimeType (mimeType : string) : string :=
  let mimeToExt : list (string * string) :=
    [("image/jpeg", ".jpg"); ("image/png", ".png"); ("image/gif", ".gif");
     ("image/webp", ".webp"); ("audio/mpeg", ".mp3"); ("audio/ogg", ".ogg");
     ("audio/wav", ".wav"); ("audio/mp4", ".m4a"); ("video/mp4", ".mp4");
     ("video/quicktime", ".mov"); ("video/x-msvideo", ".avi");
     ("application/pdf", ".pdf"); ("text/plain", ".txt");
     (DOCX_MIME, ".docx"); (XLSX_MIME, ".xlsx")] in
  default ".bin" (snd <$> List.find (λ e, String.eqb (fst e) mimeType) mimeToExt).

(** [generateRandomFilename(mimeType)]; [uuid] is the value of [uuidv4()]. *)
Definition generateRandomFilename (uuid mimeType : string) : string :=
  "media_" +:+ uuid +:+ getExtensionFromMimeType mimeType.

(** The header line written before each sheet. *)
Definition sheetHeader (index : nat) (sheetName : string) : string :=
  String "010" ("=== Sheet " +:+ Js.toString (N.of_nat (index + 1)) +:+ ": "
    +:+ sheetName +:+ " ===" +:+ String "010" EmptyString).

(** [hasMedia(message)] *)
Definition hasMedia (m : Message) : bool :=
  bool_decide (is_Some (imageMessage m)) || bool_decide (is_Some (videoMessage m))
  || bool_decide (is_Some (audioMessage m))
  || bool_decide (is_Some (documentMessage m))
  || bool_decide (is_Some (documentWithCaptionMessage m)).

Section Handler.

Context {Worksheet : Type}.
(** [XLSX.read(buffer, { type: 'buffer' })]; [None] when it throws. *)
Context (XLSX_read : list byte → option (Workbook Worksheet)).
(** [XLSX.utils.sheet_to_csv(worksheet)], also called on a missing sheet. *)
Context (sheet_to_csv : option Worksheet → string).
(** [mammoth.extractRawText({ buffer })]; [None] when it rejects. *)
Context (mammoth_extractRawText : list byte → option string).
(** [fileTypeFromBuffer(buffer)]: the sniffed MIME type, if any. *)
Context (fileTypeFromBuffer : list byte → option string).
Context (JSON_stringify : ArtifactData → list byte).
Context (ADK_APP_NAME : string).

(** [convertXlsxToText(buffer)] *)
Definition convertXlsxToText (buffer : list byte) : Outcome string :=
  match XLSX_read buffer with
  | None =>
      Throw "Failed to process Excel file. Please ensure it's a valid XLSX file."
  | Some workbook =>
      Ok (foldl (λ textContent '(index, sheetName),
                   let worksheet := Sheets workbook !! sheetName in
                   let textContent := textContent +:+ sheetHeader index sheetName in
                   let csvData := sheet_to_csv worksheet in
                   textContent +:+ csvData +:+ String "010" EmptyString)
            EmptyString (imap (λ i n, (i, n)) (SheetNames workbook)))
  end.

(** [convertDocxToText(buffer)] *)
Definition convertDocxToText (buffer : list byte) : Outcome string :=
  match mammoth_extractRawText buffer with
  | None =>
      Throw "Failed to process Word document. Please ensure it's a valid DOCX file."
  | Some value => Ok value
  end.

(** The common tail of the two conversion branches of
    [processMediaMessage]: the [text/plain] part is built, saved under
    [newName] and described in the result. *)
Definition saveConverted (bucket : gmap string GcsObject) (now : string)
    (userId newName textContent : string) (sessionId : option string)
    (format : string) : MediaResult * gmap string GcsObject :=
  let bytes := list_byte_of_string textContent in
  let part := {|
    inline_data := Some {| mime_type := Some "text/plain";
                           inline_payload := Some (Text (base64 bytes)) |};
    part_mimeType := Some "text/plain";
    part_data := Some (Buffer bytes)
  |} in
  let '(version, bucket') :=
    saveArtifact JSON_stringify bucket now ADK_APP_NAME userId newName part
      sessionId in
  ({| result_filename := newName; result_mimeType := "text/plain";
      result_version := version; result_part := part;
      converted := Some true; originalFormat := Some format |}, bucket').

(** [processMediaMessage(message, userId, sessionId = 'shared')].  [buffer]
    is what [downloadMediaMessage] delivered, [uuid] the value [uuidv4()]
    would give, [now] the clock. *)
Definition processMediaMessage (bucket : gmap string GcsObject)
    (buffer : list byte) (uuid now : string)
    (message : Message) (userId : string) (sessionId : option string)
    : Outcome (MediaResult * gmap string GcsObject) :=
  let mimeType :=
    or_string (imageMessage message ≫= mimetype)
      (or_string (videoMessage message ≫= mimetype)
         (or_string (audioMessage message ≫= mimetype)
            (or_string (documentMessage message ≫= mimetype)
               (mjoin (documentWithCaptionMessage message) ≫= mimetype)))) in
  let mimeType :=
    match or_string mimeType None with
    | Some m => m
    | None =>
        default "application/octet-stream"
          (or_string (fileTypeFromBuffer buffer) None)
    end in
  let filename :=
    or_string (documentMessage message ≫= fileName)
      (mjoin (documentWithCaptionMessage message) ≫= fileName) in
  let filename :=
    match or_string filename None with
    | Some f => f
    | None => generateRandomFilename uuid mimeType
    end in
  if String.eqb mimeType XLSX_MIME then
    match convertXlsxToText buffer with
    | Throw e => Throw e
    | Ok textContent =>
        Ok (saveConverted bucket now userId (Js.replace filename ".xlsx" ".txt")
              textContent sessionId "XLSX")
    end
  else if String.eqb mimeType DOCX_MIME then
    match convertDocxToText buffer with
    | Throw e => Throw e
    | Ok textContent =>
        Ok (saveConverted bucket now userId (Js.replace filename ".docx" ".txt")
              textContent sessionId "DOCX")
    end
  else
    let part := {|
      inline_data := Some {| mime_type := Some mimeType;
                             inline_payload := Some (Text (base64 buffer)) |};
      part_mimeType := Some mimeType;
      part_data := Some (Buffer buffer)
    |} in
    let '(version, bucket') :=
      saveArtifact JSON_stringify bucket now ADK_APP_NAME userId filename part
        sessionId in
    Ok ({| result_filename := filename; result_mimeType := mimeType;
           result_version := version; result_part := part;
           converted := None; originalFormat := None |}, bucket').

End Handler.

End MediaHandler.


(** ** [UserSessionManager] *)

Module UserSessionManager.

(** The document kept in [session.json]. *)
Record SessionJson := {
  json_userId : string;
  json_sessionId : string;
  json_createdAt : string;
  json_lastActivity : string;
  json_isNewUser : option bool;
  json_firstMessage : option string
}.

(** The [sessionData] argument of [storeUserSession]: the fields it carries
    override the defaults when spread into the stored document. *)
Record SessionFields := {
  with_userId : option string;
  with_sessionId : option string;
  with_createdAt : option string;
  with_lastActivity : option string;
  with_isNewUser : option bool;
  with_firstMessage : option string
}.

(** A whole stored document passed back as [sessionData]. *)
Definition allFields (d : SessionJson) : SessionFields :=
  {| with_userId := Some (json_userId d);
     with_sessionId := Some (json_sessionId d);
     with_createdAt := Some (json_createdAt d);
     with_lastActivity := Some (json_lastActivity d);
     with_isNewUser := json_isNewUser d;
     with_firstMessage := json_firstMessage d |}.

(** The character class [[a-zA-Z0-9@.]]. *)
Definition safeChar (c : ascii) : bool :=
  let n := N_of_ascii c in
  ((97 <=? n) && (n <=? 122)) || ((65 <=? n) && (n <=? 90))
  || ((48 <=? n) && (n <=? 57)) || (n =? 64) || (n =? 46).

(** [userId.replace(/[^a-zA-Z0-9@.]/g, '_')] *)
Fixpoint cleanUserId (userId : string) : string :=
  match userId with
  | EmptyString => EmptyString
  | String c rest =>
      String (if safeChar c then c else "_"%char) (cleanUserId rest)
  end.

(** [getSessionFilePath(userId)] *)
Definition getSessionFilePath (userId : string) : string :=
  "user_sessions" +:+ "/" +:+ cleanUserId userId +:+ "/session.json".

(** [getUserSession(userId)]; [None] is the [null] of a new user. *)
Definition getUserSession (sessionBucket : gmap string SessionJson)
    (userId : string) : option SessionJson :=
  sessionBucket !! getSessionFilePath userId.

(** [storeUserSession(userId, sessionId, sessionData = {})] *)
Definition storeUserSession (sessionBucket : gmap string SessionJson)
    (now userId sessionId : string) (sessionData : SessionFields)
    : bool * gmap string SessionJson :=
  let filePath := getSessionFilePath userId in
  let sessionInfo := {|
    json_userId := default userId (with_userId sessionData);
    json_sessionId := default sessionId (with_sessionId sessionData);
    json_createdAt := default now (with_createdAt sessionData);
    json_lastActivity := default now (with_lastActivity sessionData);
    json_isNewUser := with_isNewUser sessionData;
    json_firstMessage := with_firstMessage sessionData
  |} in
  (true, <[filePath := sessionInfo]> sessionBucket).

(** [updateUserActivity(userId)] *)
Definition updateUserActivity (sessionBucket : gmap string SessionJson)
    (now userId : string) : gmap string SessionJson :=
  match getUserSession sessionBucket userId with
  | Some sessionData =>
      let sessionData := {|
        json_userId := json_userId sessionData;
        json_sessionId := json_sessionId sessionData;
        json_createdAt := json_createdAt sessionData;
        json_lastActivity := now;
        json_isNewUser := json_isNewUser sessionData;
        json_firstMessage := json_firstMessage sessionData
      |} in
      snd (storeUserSession sessionBucket now userId (json_sessionId sessionData)
             (allFields sessionData))
  | None => sessionBucket
  end.

End UserSessionManager.

(** ** [WhatsAppBot] *)

Module WhatsAppBot.
Import GcsArtifactService UserSessionManager.

(** An entry of the in-memory [activeSessions] map. *)
Record Session := {
  sessionId : string;
  userId : string;
  createdAt : string;
  lastActivity : string;
  isReturningUser : bool
}.

Inductive ErrorCode := ECONNREFUSED | ECONNABORTED | OtherCode.

(** What a [catch] clause of [sendToADK] can receive: an axios error with a
    [response], or an error that only has a [code]. *)
Inductive JsError :=
| HttpError (status : N) (statusText : string)
| CodeError (code : ErrorCode).

(** How one [axios.post] ends before [validateStatus] is applied. *)
Inductive AxiosReply (Data : Type) :=
| HttpResponse (status : N) (statusText : string) (data : Data)
| NetworkError (code : ErrorCode).
Arguments HttpResponse {Data} status statusText data.
Arguments NetworkError {Data} code.

(** The backend seen from the bot: the answer to the n-th session creation
    (carrying [response.data.id]) and to the n-th turn submission. *)
Record Backend (Data : Type) := {
  createSessionReply : nat → AxiosReply (option string);
  runReply : nat → AxiosReply Data
}.
Arguments createSessionReply {Data} _ _.
Arguments runReply {Data} _ _.

(** What [sendToADK] returns: a string, or an object with text and images. *)
Inductive Reply :=
| ReplyText (text : string)
| ReplyParts (text : string) (images : list ImageData).

(** The bot, its durable session bucket, and a record of its calls:
    [creations] counts calls of [createADKSession], [submissions] lists the
    [sessionId] of every payload posted to the backend (oldest first),
    [outbox] the messages sent to users. *)
Record BotState := {
  activeSessions : gmap string Session;
  sessionBucket : gmap string SessionJson;
  creations : nat;
  submissions : list string;
  outbox : list (string * string)
}.

Definition set_activeSessions (f : gmap string Session → gmap string Session)
    (st : BotState) : BotState :=
  {| activeSessions := f (activeSessions st);
     sessionBucket := sessionBucket st; creations := creations st;
     submissions := submissions st; outbox := outbox st |}.

Definition set_sessionBucket
    (f : gmap string SessionJson → gmap string SessionJson)
    (st : BotState) : BotState :=
  {| activeSessions := activeSessions st;
     sessionBucket := f (sessionBucket st); creations := creations st;
     submissions := submissions st; outbox := outbox st |}.

(** [sendMessage(jid, text)] *)
Definition sendMessage (st : BotState) (jid text : string) : BotState :=
  {| activeSessions := activeSessions st; sessionBucket := sessionBucket st;
     creations := creations st; submissions := submissions st;
     outbox := outbox st ++ [(jid, text)] |}.

(** [setTimeout(..., config.adk.timeout * 2)]: the delay of the streaming
    timer, from the backend request timeout. *)
Definition streamingTimeout (adkTimeout : N) : N := adkTimeout * 2.

(** *** The streaming aggregator *)

(** One element of [eventData.content.parts]. *)
Record StreamPart := {
  text : option string;
  thoughtSignature : bool
}.

(** A decoded SSE event; [content_parts] is absent when [content] or
    [content.parts] is, [partial] when the field is. *)
Record EventData := {
  content_parts : option (list StreamPart);
  partial : option bool
}.

(** A complete line of the stream, as the handler's tests classify it:
    not a ["data: "] line, a blank payload, a payload on which the [try]
    block throws, or a decoded event. *)
Inductive SseLine :=
| OtherLine
| BlankData
| BadData
| DataEvent (eventData : EventData).

(** What the stream emits: a chunk (the complete lines it yields), the end,
    an error, or the firing of the timer. *)
Inductive StreamSignal :=
| OnData (lines : list SseLine)
| OnEnd
| OnError (error : JsError)
| OnTimeout.

Inductive Promise :=
| Pending
| Resolved (value : string)
| Rejected (error : JsError).

(** The variables the handlers of [handleStreamingResponse] share. *)
Record Aggregator := {
  fullResponse : string;
  hasStarted : bool;
  promise : Promise
}.

(** [resolve(value)]: only a pending promise changes. *)
Definition resolve (value : string) (a : Aggregator) : Aggregator :=
  {| fullResponse := fullResponse a; hasStarted := hasStarted a;
     promise := match promise a with
                | Pending => Resolved value
                | settled => settled
                end |}.

(** [reject(error)] *)
Definition reject (error : JsError) (a : Aggregator) : Aggregator :=
  {| fullResponse := fullResponse a; hasStarted := hasStarted a;
     promise := match promise a with
                | Pending => Rejected error
                | settled => settled
                end |}.

(** [part.text && !part.thoughtSignature] *)
Definition isTextPart (part : StreamPart) : bool :=
  match text part with
  | Some t => Js.truthy t && negb (thoughtSignature part)
  | None => false
  end.

(** The text an event contributes, if any:
    [eventData.content.parts.find(...)] and its [text]. *)
Definition eventText (eventData : EventData) : option string :=
  parts ← content_parts eventData;
  textPart ← List.find isTextPart parts;
  text textPart.

(** The body of the [try] block for one event.  The boolean tells whether
    the handler returned. *)
Definition onEvent (a : Aggregator) (eventData : EventData)
    : Aggregator * bool :=
  let a :=
    match eventText eventData with
    | Some t => {| fullResponse := t; hasStarted := true; promise := promise a |}
    | None => a
    end in
  if negb (bool_decide (partial eventData = Some true))
     && Js.truthy (fullResponse a)
  then (resolve (fullResponse a) a, true)
  else (a, false).

(** The ['data'] handler: the loop over the lines of a chunk. *)
Fixpoint onData (a : Aggregator) (lines : list SseLine) : Aggregator :=
  match lines with
  | [] => a
  | DataEvent eventData :: rest =>
      let '(a', returned) := onEvent a eventData in
      if returned then a' else onData a' rest
  | _ :: rest => onData a rest
  end.

Definition onSignal (a : Aggregator) (signal : StreamSignal) : Aggregator :=
  match signal with
  | OnData lines => onData a lines
  | OnEnd =>
      if Js.truthy (fullResponse a) then resolve (fullResponse a) a
      else resolve
             "I received your message, but the response was incomplete. Please try again."
             a
  | OnError error => reject error a
  | OnTimeout =>
      if Js.truthy (fullResponse a) then resolve (fullResponse a) a
      else resolve "Response timed out. Please try again with a shorter message." a
  end.

(** [handleStreamingResponse(stream, jid)]: the promise after the stream has
    emitted [signals]. *)
Definition handleStreamingResponse (signals : list StreamSignal) : Promise :=
  promise
    (foldl onSignal
       {| fullResponse := EmptyString; hasStarted := false; promise := Pending |}
       signals).

(** [await handleStreamingResponse(...)] inside [sendToADK]; [None] while
    the promise is pending. *)
Definition awaitStreamingResponse (signals : list StreamSignal)
    : option (Reply + JsError) :=
  match handleStreamingResponse signals with
  | Pending => None
  | Resolved value => Some (inl (ReplyText value))
  | Rejected error => Some (inr error)
  end.

(** *** The session block of [handleIncomingMessages] and [sendToADK] *)

Section Dispatcher.

Context {Data : Type}.
Context (backend : Backend Data).
(** The handler of a 200 response, applied to [response.data] and the
    [sessionId] of the call: [handleNonStreamingResponse] or
    [handleStreamingResponse]; [None] when it never settles. *)
Context (handleResponse : Data → string → option (Reply + JsError)).

(** [createADKSession(userId)]; [None] is the [null] result. *)
Definition createADKSession (st : BotState) (userId : string)
    : option string * BotState :=
  let st' := {|
    activeSessions := activeSessions st; sessionBucket := sessionBucket st;
    creations := S (creations st); submissions := submissions st;
    outbox := outbox st |} in
  match createSessionReply backend (creations st) with
  | HttpResponse status _ id =>
      if bool_decide (200 ≤ status < 300) then
        if bool_decide (status = 200) then
          (match id with
           | Some i => if Js.truthy i then Some i else None
           | None => None
           end, st')
        else (None, st')
      else (None, st')
  | NetworkError _ => (None, st')
  end.

(** The session block of [handleIncomingMessages] ("Create or get session
    for this user using persistent storage"): cache, then durable lookup,
    then creation.  [None] is the early return after the apology has been
    sent. *)
Definition resolveSession (st : BotState) (now userId : string)
    (messageText : option string) : option Session * BotState :=
  match activeSessions st !! userId with
  | None =>
      match getUserSession (sessionBucket st) userId with
      | Some existingSession =>
          let session := {|
            sessionId := json_sessionId existingSession;
            userId := userId;
            createdAt := json_createdAt existingSession;
            lastActivity := now;
            isReturningUser := true |} in
          let st := set_sessionBucket (λ b, updateUserActivity b now userId) st in
          (Some session, set_activeSessions <[userId := session]> st)
      | None =>
          match createADKSession st userId with
          | (None, st) =>
              (None,
               sendMessage st userId
                 "Sorry, I'm unable to create a new conversation session right now. Please try again later.")
          | (Some adkSessionId, st) =>
              let session := {|
                sessionId := adkSessionId;
                userId := userId;
                createdAt := now;
                lastActivity := now;
                isReturningUser := false |} in
              let st :=
                set_sessionBucket
                  (λ b, snd (storeUserSession b now userId adkSessionId
                               {| with_userId := None; with_sessionId := None;
                                  with_createdAt := None;
                                  with_lastActivity := None;
                                  with_isNewUser := Some true;
                                  with_firstMessage :=
                                    Some (default "[media]"
                                            (or_string messageText None)) |}))
                  st in
              (Some session, set_activeSessions <[userId := session]> st)
          end
      end
  | Some session =>
      let session := {|
        sessionId := sessionId session; userId := WhatsAppBot.userId session;
        createdAt := createdAt session; lastActivity := now;
        isReturningUser := isReturningUser session |} in
      let st := set_activeSessions <[userId := session]> st in
      (Some session,
       set_sessionBucket (λ b, updateUserActivity b now userId) st)
  end.

(** The [catch] clause of [sendToADK]. *)
Definition errorReply (error : JsError) : Reply :=
  ReplyText
    match error with
    | HttpError status statusText =>
        "Sorry, I encountered an error: " +:+ Js.toString status +:+ " "
          +:+ statusText
    | CodeError ECONNREFUSED =>
        "Sorry, the AI service is currently unavailable. Please try again later."
    | CodeError ECONNABORTED =>
        "Sorry, the request timed out. Please try again with a shorter message."
    | CodeError OtherCode =>
        "Sorry, I encountered an unexpected error. Please try again."
    end.

Definition serviceIssuesReply : Reply :=
  ReplyText
    "I apologize, but the AI service is currently experiencing issues. The development team has been notified. Please try again later.".

Definition unexpectedResponseReply : Reply :=
  ReplyText
    "I received your message, but the AI service returned an unexpected response. Please try again.".

(** [sendToADK(message, sessionId, userId, jid, mediaParts)].  The message,
    the jid and the media parts only travel in the payload, of which the
    state records the [sessionId].  The call re-enters itself after a 500;
    [fuel] bounds the depth of re-entry and [None] means the call has not
    returned within it (or waits on a handler that never settles). *)
Fixpoint sendToADK (fuel : nat) (st : BotState) (sessionId userId : string)
    : option (Reply * BotState) :=
  match fuel with
  | O => None
  | S fuel =>
      let reply := runReply backend (length (submissions st)) in
      let st := {|
        activeSessions := activeSessions st; sessionBucket := sessionBucket st;
        creations := creations st;
        submissions := submissions st ++ [sessionId];
        outbox := outbox st |} in
      match reply with
      | NetworkError code => Some (errorReply (CodeError code), st)
      | HttpResponse status statusText data =>
          if negb (bool_decide (200 ≤ status < 600)) then
            Some (errorReply (HttpError status statusText), st)
          else if bool_decide (status = 500) then
            match createADKSession st userId with
            | (Some newSessionId, st) =>
                let st :=
                  set_activeSessions
                    (alter (λ s, {| sessionId := newSessionId;
                                    userId := WhatsAppBot.userId s;
                                    createdAt := createdAt s;
                                    lastActivity := lastActivity s;
                                    isReturningUser := isReturningUser s |})
                       userId) st in
                sendToADK fuel st newSessionId userId
            | (None, st) => Some (serviceIssuesReply, st)
            end
          else if bool_decide (status = 200) then
            match handleResponse data sessionId with
            | Some (inl reply) => Some (reply, st)
            | Some (inr error) => Some (errorReply error, st)
            | None => None
            end
          else Some (unexpectedResponseReply, st)
      end
  end.

End Dispatcher.

End WhatsAppBot.


(** ** Loading by file name with a version suffix *)

Module VersionFallback.
Import GcsArtifactService.

(** [\d] *)
Definition isDigit (c : ascii) : bool :=
  let n := N_of_ascii c in (48 <=? n) && (n <=? 57).

(** Modelled from the spec: the [<N>] in the suffix patterns of
    [loadByFilenameWithVersionFallback], whose code is missing from the
    sources.  Whether [rest] is a non-empty run of digits followed by exactly
    [post]; [seen] tells that a digit has been read. *)
Fixpoint digitsThen (post : string) (seen : bool) (rest : string) : bool :=
  (seen && String.eqb rest post)
  || match rest with
     | EmptyString => false
     | String c rest' => isDigit c && digitsThen post true rest'
     end.

(** Modelled from the spec: the suffix stripping of
    [loadByFilenameWithVersionFallback], which lives in the backend's agent
    code ([upload_artifact_to_fal], of which README.md quotes the patterns
    and the loop) and has no counterpart in [index.js].  "Strips each known
    suffix pattern": a trailing [pre<N>post] is cut off, where the suffix
    starts at the leftmost position from which the rest of the name is
    [pre], digits, [post]. *)
Fixpoint stripVersionSuffix (pre post : string) (name : string) : string :=
  if Js.startsWith name pre
     && digitsThen post false (Js.substring (String.length pre) name)
  then EmptyString
  else match name with
       | EmptyString => EmptyString
       | String c rest => String c (stripVersionSuffix pre post rest)
       end.

(** Modelled from the spec: the pattern table of
    [loadByFilenameWithVersionFallback], missing from the sources.  The known
    textual forms of a version suffix are a trailing [" v<N>"], ["_v<N>"] and
    [" (<N>)"], in that order. *)
Definition versionSuffixes : list (string * string) :=
  [(" v", EmptyString); ("_v", EmptyString); (" (", ")")].

(** Modelled from the spec: the candidate list of
    [loadByFilenameWithVersionFallback], missing from the sources.  "A small
    ordered list of filename candidates (original first, then each stripped
    variant)"; a pattern that does not match contributes no variant. *)
Definition filenameCandidates (filename : string) : list string :=
  filename
  :: filter (λ candidate, candidate ≠ filename)
       ((λ '(pre, post), stripVersionSuffix pre post filename)
          <$> versionSuffixes).

(** Modelled from the spec: the loop of
    [loadByFilenameWithVersionFallback], missing from the sources.  "Attempts
    load for each until one succeeds": the first candidate that loads. *)
Fixpoint firstLoaded (load : string → option Part) (candidates : list string)
    : option Part :=
  match candidates with
  | [] => None
  | candidate :: rest =>
      match load candidate with
      | Some part => Some part
      | None => firstLoaded load rest
      end
  end.

(** Modelled from the spec: [loadByFilenameWithVersionFallback(appName,
    userId, filename)], missing from the sources, "attempts load for each
    [candidate] until one succeeds; reports all attempted variants on total
    failure".  Each attempt is [loadArtifact] of [index.js] at its latest
    version. *)
Definition loadByFilenameWithVersionFallback
    (JSON_parse : list byte → option ArtifactData)
    (bucket : gmap string GcsObject) (appName userId filename : string)
    (sessionId : option string) : Part + list string :=
  let candidates := filenameCandidates filename in
  match firstLoaded
          (λ candidate,
             loadArtifact JSON_parse bucket appName userId candidate None
               sessionId)
          candidates with
  | Some part => inl part
  | None => inr candidates
  end.

End VersionFallback.

(** ** Scenarios: repeated calls and sample inputs *)

Module Scenarios.
Import GcsArtifactService MediaHandler UserSessionManager WhatsAppBot.

(** Successive [saveArtifact] calls on one logical key, nothing else
    touching the bucket in between.  Each call brings its clock reading and
    its part; the versions come back in call order. *)
Fixpoint saveArtifacts (JSON_stringify : ArtifactData → list byte)
    (bucket : gmap string GcsObject) (appName userId filename : string)
    (sessionId : option string) (calls : list (string * Part))
    : list N * gmap string GcsObject :=
  match calls with
  | [] => ([], bucket)
  | (now, part) :: rest =>
      let '(version, bucket) :=
        saveArtifact JSON_stringify bucket now appName userId filename part
          sessionId in
      let '(versions, bucket) :=
        saveArtifacts JSON_stringify bucket appName userId filename sessionId
          rest in
      (version :: versions, bucket)
  end.

(** Successive saves on one logical key, each with the outcome of its
    listing: [true] when [getFiles] answers. *)
Fixpoint saveArtifacts_try (JSON_stringify : ArtifactData → list byte)
    (bucket : gmap string GcsObject) (appName userId filename : string)
    (sessionId : option string) (calls : list (bool * (string * Part)))
    : list N * gmap string GcsObject :=
  match calls with
  | [] => ([], bucket)
  | (listed, (now, part)) :: rest =>
      let '(version, bucket) :=
        saveArtifact_try JSON_stringify listed bucket now appName userId
          filename part sessionId in
      let '(versions, bucket) :=
        saveArtifacts_try JSON_stringify bucket appName userId filename
          sessionId rest in
      (version :: versions, bucket)
  end.

(** A part holding the given bytes. *)
Definition bytesPart (mime : string) (bytes : list byte) : Part :=
  {| part_mimeType := Some mime; part_data := Some (Buffer bytes);
     inline_data := None |}.

(** A serialiser that keeps the payload bytes; enough to run the examples. *)
Definition sampleStringify (a : ArtifactData) : list byte :=
  match data a with
  | Some (Buffer bytes) => bytes
  | Some (Text s) => list_byte_of_string s
  | None => []
  end.

(** An object with the given bytes. *)
Definition rawObject (mime : string) (bytes : list byte) : GcsObject :=
  {| content := bytes; contentType := mime; customMetadata := [] |}.

(** A bucket in which ["report.pdf"] of user ["u1"] in session ["s1"] has
    reached version 2^53. *)
Definition versionLimitBucket : gmap string GcsObject :=
  {[ "app/u1/s1/report.pdf/v9007199254740992"
       := rawObject "application/json" ["a"%byte] ]}.

(** A bucket holding one artifact per addressing convention for user
    ["u1"]: a legacy object below the artifacts folder, an object at the
    session-scoped address the backend writes, and the same object once more
    below the artifacts folder. *)
Definition twoConventionsBucket : gmap string GcsObject :=
  <["artifacts/app/u1/legacy.png/v1" := rawObject "image/png" []]>
    (<["app/u1/s1/photo.png/0" := rawObject "image/png" []]>
       (<["artifacts/app/u1/s1/photo.png/0" := rawObject "image/png" []]> ∅)).

(** *** Streams of fragments *)

(** The decoded events among the lines of a stream, in order. *)
Definition lineEvents (lines : list SseLine) : list EventData :=
  omap (λ line, match line with
                | DataEvent eventData => Some eventData
                | _ => None
                end) lines.

(** The text of the latest event that carries one, [start] when none does. *)
Definition latestFrom (start : string) (events : list EventData) : string :=
  default start (last (omap eventText events)).

Definition latestText (events : list EventData) : string :=
  latestFrom EmptyString events.

(** The value the first finalising event resolves with, reading [events]
    with [current] as the text so far. *)
Fixpoint firstFinal (current : string) (events : list EventData)
    : option string :=
  match events with
  | [] => None
  | eventData :: rest =>
      let current := default current (eventText eventData) in
      if negb (bool_decide (partial eventData = Some true)) && Js.truthy current
      then Some current
      else firstFinal current rest
  end.

(** A fragment with one text part and the given [partial] field. *)
Definition fragment (t : string) (isPartial : option bool) : EventData :=
  {| content_parts := Some [{| text := Some t; thoughtSignature := false |}];
     partial := isPartial |}.

(** A fragment without content. *)
Definition emptyFragment (isPartial : option bool) : EventData :=
  {| content_parts := None; partial := isPartial |}.

(** *** Backends and turns *)

(** A submission answered with a session fault. *)
Definition isFault {Data} (reply : AxiosReply Data) : Prop :=
  match reply with
  | HttpResponse status _ _ => status = 500
  | NetworkError _ => False
  end.

(** A session creation answered with status 200 and the id [id]. *)
Definition issues (reply : AxiosReply (option string)) (id : string) : Prop :=
  (∃ statusText, reply = HttpResponse 200 statusText (Some id))
  ∧ Js.truthy id = true.

(** A submission under [sessionId] that ends the turn: anything but a 500,
    and a handler that settles when the status is 200. *)
Definition answers {Data}
    (handleResponse : Data → string → option (Reply + JsError))
    (sessionId : string) (reply : AxiosReply Data) : Prop :=
  match reply with
  | HttpResponse status _ data =>
      status ≠ 500 ∧ (status = 200 → is_Some (handleResponse data sessionId))
  | NetworkError _ => True
  end.

(** [session.sessionId = newSessionId] on an entry of the map. *)
Definition withSessionId (newSessionId : string) (s : Session) : Session :=
  {| sessionId := newSessionId; userId := userId s; createdAt := createdAt s;
     lastActivity := lastActivity s; isReturningUser := isReturningUser s |}.

(** The bot after a submission under [sessionId] was answered with a fault
    and the session [newSessionId] was created in its place. *)
Definition afterFault (st : BotState) (sessionId userId newSessionId : string)
    : BotState :=
  {| activeSessions := alter (withSessionId newSessionId) userId (activeSessions st);
     sessionBucket := sessionBucket st;
     creations := S (creations st);
     submissions := submissions st ++ [sessionId];
     outbox := outbox st |}.

(** [this.activeSessions.delete(userId)], as [cleanupSessions] does for an
    expired entry; a restart drops every entry. *)
Definition evict (userId : string) (st : BotState) : BotState :=
  set_activeSessions (delete userId) st.

Definition restart (st : BotState) : BotState :=
  set_activeSessions (λ _, ∅) st.

Definition freshBot : BotState :=
  {| activeSessions := ∅; sessionBucket := ∅; creations := 0;
     submissions := []; outbox := [] |}.

(** A backend whose first [faults] submissions fail with status 500 and
    whose later ones answer with a text; every session creation succeeds
    with a new id. *)
Definition faultyBackend (faults : nat) : Backend string :=
  {| createSessionReply n :=
       HttpResponse 200 "OK" (Some ("session-" +:+ Js.toString (N.of_nat n)));
     runReply n :=
       if bool_decide (n < faults)%nat
       then HttpResponse 500 "Internal Server Error" EmptyString
       else HttpResponse 200 "OK" "Hello!" |}.

(** A backend that answers every submission with status 500. *)
Definition brokenBackend : Backend string :=
  {| createSessionReply n :=
       HttpResponse 200 "OK" (Some ("session-" +:+ Js.toString (N.of_nat n)));
     runReply n := HttpResponse 500 "Internal Server Error" EmptyString |}.

(** A handler that returns the response text. *)
Definition echoResponse (data sessionId : string) : option (Reply + JsError) :=
  Some (inl (ReplyText data)).

(** A bot that knows user ["u1"] under session ["session-old"], in memory
    and in the durable bucket. *)
Definition knownUserBot : BotState :=
  {| activeSessions :=
       {[ "u1" := {| sessionId := "session-old"; userId := "u1";
                     createdAt := "t0"; lastActivity := "t0";
                     isReturningUser := false |} ]};
     sessionBucket :=
       {[ getSessionFilePath "u1" :=
            {| json_userId := "u1"; json_sessionId := "session-old";
               json_createdAt := "t0"; json_lastActivity := "t0";
               json_isNewUser := Some true; json_firstMessage := Some "hi" |} ]};
     creations := 0; submissions := []; outbox := [] |}.

(** The bot after a chain of faults, each answered by creating the next
    session of [ids]. *)
Fixpoint afterFaults (st : BotState) (sessionId userId : string)
    (ids : list string) : BotState :=
  match ids with
  | [] => st
  | id :: rest => afterFaults (afterFault st sessionId userId id) id userId rest
  end.

(** A session creation that yields no session. *)
Definition refuses (reply : AxiosReply (option string)) : Prop :=
  ∀ id, ¬ issues reply id.

(** The bot once a payload has gone out under [sessionId]. *)
Definition submitted (st : BotState) (sessionId : string) : BotState :=
  {| activeSessions := activeSessions st; sessionBucket := sessionBucket st;
     creations := creations st;
     submissions := submissions st ++ [sessionId];
     outbox := outbox st |}.

(** The bot once the session creation that follows a fault has been
    refused. *)
Definition afterRefusal (st : BotState) (sessionId : string) : BotState :=
  {| activeSessions := activeSessions st; sessionBucket := sessionBucket st;
     creations := S (creations st);
     submissions := submissions st ++ [sessionId];
     outbox := outbox st |}.

(** The answer of the backend to a submission under [sessionId], as the
    user gets to read it, when it is not a session fault: what the response
    handler makes of the data of a 200 ([None] while the handler has not
    settled), the sentence for an unexpected response on another accepted
    status, and the sentence of the error otherwise. *)
Definition answerOf {Data}
    (handleResponse : Data → string → option (Reply + JsError))
    (sessionId : string) (reply : AxiosReply Data) : option Reply :=
  match reply with
  | NetworkError code => Some (errorReply (CodeError code))
  | HttpResponse status statusText data =>
      if bool_decide (200 ≤ status < 600) then
        if bool_decide (status = 200) then
          match handleResponse data sessionId with
          | Some (inl reply) => Some reply
          | Some (inr error) => Some (errorReply error)
          | None => None
          end
        else Some unexpectedResponseReply
      else Some (errorReply (HttpError status statusText))
  end.

(** [ids] are the sessions created in answer to a run of faults that starts
    with the next submission of [st]: the k-th of these submissions is a
    fault and the k-th creation issues the k-th id. *)
Definition faultChain {Data} (backend : Backend Data) (st : BotState)
    (ids : list string) : Prop :=
  ∀ k id, ids !! k = Some id →
    isFault (runReply backend (length (submissions st) + k))
    ∧ issues (createSessionReply backend (creations st + k)) id.

(** *** Sample converters and messages *)

(** A parser that reads every object as a PDF document with the object's
    bytes, the inverse of [sampleStringify] on such documents. *)
Definition sampleParse (bytes : list byte) : option ArtifactData :=
  Some {| mimeType := "application/pdf"; data := Some (Buffer bytes);
          timestamp := EmptyString; filename := EmptyString |}.

(** A workbook with two sheets, whatever the bytes. *)
Definition sampleWorkbook : Workbook string :=
  {| SheetNames := ["Q1"; "Q2"];
     Sheets := {[ "Q1" := "a,b"; "Q2" := "c,d" ]} |}.

Definition sampleXlsxRead (buffer : list byte) : option (Workbook string) :=
  Some sampleWorkbook.

Definition sampleSheetToCsv (worksheet : option string) : string :=
  default EmptyString worksheet.

Definition sampleExtractRawText (buffer : list byte) : option string :=
  Some "plain text".

Definition sampleFileType (buffer : list byte) : option string := None.

(** A document message with a declared MIME type and file name. *)
Definition documentOf (mime name : string) : Message :=
  {| imageMessage := None; videoMessage := None; audioMessage := None;
     documentMessage := Some {| mimetype := Some mime; fileName := Some name |};
     documentWithCaptionMessage := None; conversation := None;
     extendedTextMessage := None |}.

(** [processMediaMessage] with the sample converters, on an empty bucket. *)
Definition processSample (message : Message)
    : Outcome (MediaResult * gmap string GcsObject) :=
  processMediaMessage sampleXlsxRead sampleSheetToCsv sampleExtractRawText
    sampleFileType sampleStringify "app" ∅ ["P"; "K"]%byte "uuid" "t1" message
    "u1" (Some "s1").

(** The bucket after ["report.pdf"] has been saved three times. *)
Definition threeReportSaves : gmap string GcsObject :=
  (saveArtifacts sampleStringify ∅ "app" "u1" "report.pdf" None
     [("t1", bytesPart "application/pdf" ["a"%byte]);
      ("t2", bytesPart "application/pdf" ["b"%byte]);
      ("t3", bytesPart "application/pdf" ["c"%byte])]).2.

(** A path segment: a string without ["/"]. *)
Definition noSlash (segment : string) : Prop := Js.includes segment "/" = false.

(** The result of a call that did not throw. *)
Definition okResult (o : Outcome (MediaResult * gmap string GcsObject))
    : option MediaResult :=
  match o with
  | Ok (result, _) => Some result
  | Throw _ => None
  end.

(** The text [convertXlsxToText] writes for one sheet: its header line, its
    CSV rendering and a newline. *)
Definition sheetBlock {Worksheet} (sheet_to_csv : option Worksheet → string)
    (workbook : Workbook Worksheet) (index : nat) (sheetName : string) : string :=
  sheetHeader index sheetName
    +:+ sheet_to_csv (Sheets workbook !! sheetName) +:+ String "010" EmptyString.

(** Concatenation of a list of strings. *)
Definition joinStrings (l : list string) : string :=
  foldr String.append EmptyString l.

End Scenarios.

(** ** More of the artifact service *)

Module ArtifactAdmin.
Import GcsArtifactService.

(** [deleteArtifact(appName, userId, filename)]: the path is built without
    a session id, that is, for the session ['shared']; every object listed
    below it is deleted. *)
Definition deleteArtifact (bucket : gmap string GcsObject)
    (appName userId filename : string) : gmap string GcsObject :=
  let artifactPath := getArtifactPath appName userId filename None in
  let files := Gcs.getFiles bucket (artifactPath +:+ "/") in
  foldl (λ b name, delete name b) bucket files.

(** The document [saveArtifact] serialises for a part. *)
Definition artifactDocument (now filename : string) (part : Part)
    : ArtifactData :=
  {| mimeType :=
       or_default
         (or_string (part_mimeType part) (inline_data part ≫= mime_type))
         "application/octet-stream";
     data := or_payload (part_data part) (inline_data part ≫= inline_payload);
     timestamp := now;
     filename := filename |}.

(** The part [loadArtifact] builds from a parsed document. *)
Definition documentPart (a : ArtifactData) : Part :=
  {| inline_data := Some {| mime_type := Some (mimeType a);
                            inline_payload := data a |};
     part_mimeType := Some (mimeType a);
     part_data := data a |}.

End ArtifactAdmin.

(** ** Non-streaming responses *)

Module NonStreaming.
Import GcsArtifactService WhatsAppBot.

(** [part.inline_data] of a response part; absent fields are [None]. *)
Record InlineImage := {
  inline_mime_type : option string;
  inline_image_data : option string
}.

(** One element of [content.parts] of a response. *)
Record ResponsePart := {
  part_text : option string;
  part_inline_data : option InlineImage
}.

(** One event of an array response.  [event_parts] is absent when
    [event.content] or [event.content.parts] is; [artifactDelta] lists the
    keys of [event.actions.artifactDelta] in enumeration order and is absent
    when [event.actions] or the delta is. *)
Record ResponseEvent := {
  event_parts : option (list ResponsePart);
  event_response : option string;
  artifactDelta : option (list string)
}.

(** [response.data], by the shapes the handler tells apart: an object with
    its [response] and [content.parts], a string, an array of events, or
    anything else ([null], a number, ...). *)
Inductive ResponseData :=
| ObjectData (response : option string) (parts : option (list ResponsePart))
| StringData (s : string)
| ArrayData (events : list ResponseEvent)
| OtherData.

(** The three accumulators of the handler. *)
Record Collected := {
  responseText : string;
  imageParts : list ImageData;
  artifactImages : list ImageData
}.

Definition truthy_field (field : option string) : option string :=
  match field with
  | Some s => if Js.truthy s then Some s else None
  | None => None
  end.

(** The body of the loops over [parts]: text is appended, an inline image
    with a MIME type and data is collected, anything else is passed over. *)
Definition collectPart (c : Collected) (part : ResponsePart) : Collected :=
  match truthy_field (part_text part) with
  | Some t =>
      {| responseText := responseText c +:+ t; imageParts := imageParts c;
         artifactImages := artifactImages c |}
  | None =>
      match part_inline_data part with
      | Some inline =>
          match truthy_field (inline_mime_type inline),
                truthy_field (inline_image_data inline) with
          | Some mime, Some d =>
              {| responseText := responseText c;
                 imageParts :=
                   imageParts c ++ [{| image_mimeType := mime; image_data := d |}];
                 artifactImages := artifactImages c |}
          | _, _ => c
          end
      | None => c
      end
  end.

(** [getUserIdFromJid(jid)] *)
Definition getUserIdFromJid (jid : string) : string := jid.

(** The test on an artifact name before it is fetched. *)
Definition isImageArtifact (artifactName : string) : bool :=
  Js.includes artifactName ".png" || Js.includes artifactName ".jpg"
  || Js.includes artifactName ".jpeg" || Js.includes artifactName ".webp".

Section Handler.

(** The answer of [testGCSConnection] and the artifacts bucket. *)
Context (connected : bool).
Context (bucket : gmap string GcsObject).

(** The body of the loop over the names of [event.actions.artifactDelta]. *)
Definition collectArtifact (jid sessionId : string) (c : Collected)
    (artifactName : string) : Collected :=
  let userId := getUserIdFromJid jid in
  if isImageArtifact artifactName then
    match loadArtifactBySession connected bucket "app" userId sessionId
            artifactName None with
    | Some imageData =>
        if Js.truthy (image_data imageData) then
          {| responseText := responseText c; imageParts := imageParts c;
             artifactImages :=
               artifactImages c
               ++ [{| image_mimeType :=
                        if Js.truthy (image_mimeType imageData)
                        then image_mimeType imageData else "image/png";
                      image_data := image_data imageData |}] |}
        else c
    | None => c
    end
  else c.

(** The body of the loop over the events of an array response. *)
Definition collectEvent (jid sessionId : string) (c : Collected)
    (event : ResponseEvent) : Collected :=
  let c :=
    match event_parts event with
    | Some (part :: parts) => foldl collectPart c (part :: parts)
    | _ =>
        match truthy_field (event_response event) with
        | Some r =>
            {| responseText := r; imageParts := imageParts c;
               artifactImages := artifactImages c |}
        | None => c
        end
    end in
  match artifactDelta event with
  | Some names => foldl (collectArtifact jid sessionId) c names
  | None => c
  end.

Definition collect (data : ResponseData) (jid sessionId : string)
    : Collected :=
  let start :=
    {| responseText := EmptyString; imageParts := []; artifactImages := [] |} in
  match data with
  | ObjectData response parts =>
      match truthy_field response with
      | Some r =>
          {| responseText := r; imageParts := []; artifactImages := [] |}
      | None =>
          match parts with
          | Some parts => foldl collectPart start parts
          | None => start
          end
      end
  | StringData s =>
      {| responseText := s; imageParts := []; artifactImages := [] |}
  | ArrayData events => foldl (collectEvent jid sessionId) start events
  | OtherData => start
  end.

(** [handleNonStreamingResponse(data, jid, sessionId)]: the [text] and the
    [images] of the object it returns. *)
Definition handleNonStreamingResponse (data : ResponseData)
    (jid sessionId : string) : string * list ImageData :=
  let c := collect data jid sessionId in
  let allImages := imageParts c ++ artifactImages c in
  if Js.truthy (responseText c) || bool_decide (0 < length allImages)%nat then
    (if Js.truthy (responseText c) then responseText c
     else "Here's your generated image:",
     allImages)
  else
    ("I received your message, but the AI service returned an unexpected response format. Please try rephrasing your question.",
     []).

(** The handler as [sendToADK] awaits it. *)
Definition awaitNonStreamingResponse (jid : string) (data : ResponseData)
    (sessionId : string) : option (Reply + JsError) :=
  let '(text, images) := handleNonStreamingResponse data jid sessionId in
  Some (inl (ReplyParts text images)).

End Handler.

End NonStreaming.

(** ** Readings of a response *)

Module ResponseReadings.
Import GcsArtifactService WhatsAppBot NonStreaming.

(** The text a part contributes: its [text] when truthy. *)
Definition partText (part : ResponsePart) : string :=
  default EmptyString (truthy_field (part_text part)).

(** The inline image a part contributes: a part without truthy text whose
    [inline_data] has a truthy MIME type and truthy data. *)
Definition partImage (part : ResponsePart) : option ImageData :=
  match truthy_field (part_text part) with
  | Some _ => None
  | None =>
      inline ← part_inline_data part;
      mime ← truthy_field (inline_mime_type inline);
      d ← truthy_field (inline_image_data inline);
      Some {| image_mimeType := mime; image_data := d |}
  end.

(** The texts of the parts, joined in order. *)
Definition partsText (parts : list ResponsePart) : string :=
  foldr (λ part rest, partText part +:+ rest) EmptyString parts.

Definition eventParts (event : ResponseEvent) : list ResponsePart :=
  default [] (event_parts event).

(** The parts of all events, in order. *)
Definition eventsParts (events : list ResponseEvent) : list ResponsePart :=
  events ≫= eventParts.

(** The artifact names of all events, in order. *)
Definition eventsArtifacts (events : list ResponseEvent) : list string :=
  events ≫= λ event, default [] (artifactDelta event).

(** The name of the object read for an artifact of a session. *)
Definition sessionArtifactPath (jid sessionId artifactName : string) : string :=
  "app/" +:+ jid +:+ "/" +:+ sessionId +:+ "/" +:+ artifactName +:+ "/0".

(** The MIME type chosen from an artifact name. *)
Definition mimeOfName (artifactName : string) : string :=
  if Js.includes artifactName ".jpg" || Js.includes artifactName ".jpeg"
  then "image/jpeg"
  else if Js.includes artifactName ".webp" then "image/webp"
  else "image/png".

(** The image an artifact name yields from a bucket that can be reached:
    the name must look like an image and version 0 of it must exist in the
    session's folder with at least one byte. *)
Definition storedImage (bucket : gmap string GcsObject)
    (jid sessionId artifactName : string) : option ImageData :=
  if isImageArtifact artifactName then
    o ← bucket !! sessionArtifactPath jid sessionId artifactName;
    match content o with
    | [] => None
    | bytes =>
        Some {| image_mimeType := mimeOfName artifactName;
                image_data := base64 bytes |}
    end
  else None.

(** The text of a [Reply]. *)
Definition replyText (reply : Reply) : string :=
  match reply with
  | ReplyText text => text
  | ReplyParts text _ => text
  end.

End ResponseReadings.

(** ** Sample responses *)

Module ResponseScenarios.
Import GcsArtifactService WhatsAppBot NonStreaming.

(** A part with text only. *)
Definition textPart (t : string) : ResponsePart :=
  {| part_text := Some t; part_inline_data := None |}.

(** A part with an inline image only. *)
Definition imagePart (mime d : string) : ResponsePart :=
  {| part_text := None;
     part_inline_data :=
       Some {| inline_mime_type := Some mime; inline_image_data := Some d |} |}.

(** An event with parts and the names of the artifacts it changed. *)
Definition partsEvent (parts : list ResponsePart) (names : list string)
    : ResponseEvent :=
  {| event_parts := Some parts; event_response := None;
     artifactDelta := Some names |}.

(** A backend that answers every submission with status 200 and the same
    data; every session creation succeeds with a new id. *)
Definition steadyBackend {Data} (data : Data) : Backend Data :=
  {| createSessionReply n :=
       HttpResponse 200 "OK" (Some ("session-" +:+ Js.toString (N.of_nat n)));
     runReply n := HttpResponse 200 "OK" data |}.

End ResponseScenarios.

(** ** The in-memory session map over time *)

Module SessionCache.
Import UserSessionManager WhatsAppBot.

Section Cleanup.

(** [date.valueOf()]: the milliseconds a timestamp stands for, as the
    subtraction of two [Date]s takes them. *)
Context (valueOf : string → Z).



End Cleanup.


End SessionCache.

(** ** Sample clocks *)

Module SessionScenarios.
Import UserSessionManager WhatsAppBot.


(** The stored document of a user. *)
Definition storedSession (uid sid : string) : SessionJson :=
  {| json_userId := uid; json_sessionId := sid;
     json_createdAt := "1000"; json_lastActivity := "1000";
     json_isNewUser := Some true; json_firstMessage := Some "hi" |}.

(** A bot that holds [uid] under session [sid], last active at
    [lastActive], in memory and in the durable bucket. *)
Definition botWith (uid sid lastActive : string) : BotState :=
  {| activeSessions :=
       {[ uid := {| sessionId := sid; userId := uid; createdAt := "1000";
                    lastActivity := lastActive; isReturningUser := false |} ]};
     sessionBucket := {[ getSessionFilePath uid := storedSession uid sid ]};
     creations := 0; submissions := []; outbox := [] |}.

End SessionScenarios.

(** ** Messages to the user *)

Module Outbound.
Import GcsArtifactService.

(** *** [Buffer.from(s, 'base64')] *)

(** The value of a character of the base64 alphabets (["-"] and ["_"] count
    as ["+"] and ["/"]); [None] for any other character. *)
Definition unbase64 (c : ascii) : option N :=
  let n := N_of_ascii c in
  if (65 <=? n) && (n <=? 90) then Some (n - 65)
  else if (97 <=? n) && (n <=? 122) then Some (n - 71)
  else if (48 <=? n) && (n <=? 57) then Some (n + 4)
  else if (n =? 43) || (n =? 45) then Some 62
  else if (n =? 47) || (n =? 95) then Some 63
  else None.

(** The six-bit values of a base64 text: characters outside the alphabet
    are passed over and the first ["="] ends the text. *)
Fixpoint sextets (s : string) : list N :=
  match s with
  | EmptyString => []
  | String c rest =>
      match unbase64 c with
      | Some v => v :: sextets rest
      | None => if Ascii.eqb c "=" then [] else sextets rest
      end
  end.

(** The low eight bits of a number, as a byte. *)
Definition byteOf (n : N) : byte := default "000"%byte (Byte.of_N (n mod 256)).

(** Four six-bit values give three bytes; a last group of three gives two
    bytes, of two one byte, and a single value none. *)
Fixpoint decodeGroups (l : list N) : list byte :=
  match l with
  | a :: b :: c :: d :: rest =>
      byteOf (a * 4 + b / 16) :: byteOf ((b mod 16) * 16 + c / 4)
        :: byteOf ((c mod 4) * 64 + d) :: decodeGroups rest
  | [a; b; c] => [byteOf (a * 4 + b / 16); byteOf ((b mod 16) * 16 + c / 4)]
  | [a; b] => [byteOf (a * 4 + b / 16)]
  | _ => []
  end.

(** [Buffer.from(s, 'base64')], Node's lenient decoder: it never throws. *)
Definition Buffer_from_base64 (s : string) : list byte :=
  decodeGroups (sextets s).

(** *** [splitMessage] *)

(** The class [\s] on the characters of a byte string: the ASCII white
    space. *)
Definition isSpace (c : ascii) : bool :=
  let n := N_of_ascii c in
  ((9 <=? n) && (n <=? 13)) || (n =? 32).

(** The class [[.!?]]. *)
Definition isTerminator (c : ascii) : bool :=
  let n := N_of_ascii c in
  (n =? 46) || (n =? 33) || (n =? 63).

Fixpoint trimStart (s : string) : string :=
  match s with
  | EmptyString => EmptyString
  | String c rest => if isSpace c then trimStart rest else s
  end.

Fixpoint trimEnd (s : string) : string :=
  match s with
  | EmptyString => EmptyString
  | String c rest =>
      match trimEnd rest with
      | EmptyString => if isSpace c then EmptyString else String c EmptyString
      | kept => String c kept
      end
  end.

(** [s.trim()] *)
Definition trim (s : string) : string := trimEnd (trimStart s).

(** [s.substring(0, n)] *)
Fixpoint substringTo (n : nat) (s : string) : string :=
  match n, s with
  | O, _ => EmptyString
  | S n', String c s' => String c (substringTo n' s')
  | S _, EmptyString => EmptyString
  end.

(** Where the scan of [text.split(re)] stands, [re] being a run of marks
    [[.!?]+] followed by white space [\s*], all in one capture group: in the
    text between two separators, in the marks of a separator, or in the
    white space that ends it. *)
Inductive Scan := InText | InMarks | InSpaces.

(** The rest of the split, [piece] being the element under construction. *)
Fixpoint scanSentences (scan : Scan) (piece s : string) : list string :=
  match s with
  | EmptyString =>
      match scan with
      | InText => [piece]
      | _ => [piece; EmptyString]
      end
  | String c rest =>
      match scan with
      | InText =>
          if isTerminator c
          then piece :: scanSentences InMarks (String c EmptyString) rest
          else scanSentences InText (piece +:+ String c EmptyString) rest
      | InMarks =>
          if isTerminator c
          then scanSentences InMarks (piece +:+ String c EmptyString) rest
          else if isSpace c
          then scanSentences InSpaces (piece +:+ String c EmptyString) rest
          else piece :: scanSentences InText (String c EmptyString) rest
      | InSpaces =>
          if isSpace c
          then scanSentences InSpaces (piece +:+ String c EmptyString) rest
          else if isTerminator c
          then piece :: EmptyString
                 :: scanSentences InMarks (String c EmptyString) rest
          else piece :: scanSentences InText (String c EmptyString) rest
      end
  end.

(** [text.split(re)]: the texts between separators alternate with the
    separators, which the capture group keeps. *)
Definition splitSentences (text : string) : list string :=
  scanSentences InText EmptyString text.

(** The body of the loop over the words of a long sentence, on the chunks
    pushed so far and [wordChunk]. *)
Definition wordStep (maxLength : nat) (acc : list string * string)
    (word : string) : list string * string :=
  let '(chunks, wordChunk) := acc in
  if bool_decide (String.length (wordChunk +:+ " " +:+ word) ≤ maxLength)%nat
  then (chunks,
        wordChunk +:+ (if Js.truthy wordChunk then " " else EmptyString) +:+ word)
  else if Js.truthy wordChunk then (chunks ++ [wordChunk], word)
  else (chunks ++ [substringTo maxLength word], Js.substring maxLength word).

(** The body of the loop over the sentences, on the chunks pushed so far
    and [currentChunk]. *)
Definition sentenceStep (maxLength : nat) (acc : list string * string)
    (sentence : string) : list string * string :=
  let '(chunks, currentChunk) := acc in
  if bool_decide (String.length (currentChunk +:+ sentence) ≤ maxLength)%nat
  then (chunks, currentChunk +:+ sentence)
  else
    let '(chunks, currentChunk) :=
      if Js.truthy currentChunk
      then (chunks ++ [trim currentChunk], EmptyString)
      else (chunks, currentChunk) in
    if bool_decide (maxLength < String.length sentence)%nat then
      let '(chunks, wordChunk) :=
        foldl (wordStep maxLength) (chunks, EmptyString)
          (Js.split " " sentence) in
      (chunks, if Js.truthy wordChunk then wordChunk else currentChunk)
    else (chunks, sentence).

(** [splitMessage(text, maxLength)].  Lengths and cuts count the characters
    of the byte string, which are the code's UTF-16 code units when the text
    is ASCII. *)
Definition splitMessage (text : string) (maxLength : nat) : list string :=
  if bool_decide (String.length text ≤ maxLength)%nat then [text]
  else
    let '(chunks, currentChunk) :=
      foldl (sentenceStep maxLength) ([], EmptyString) (splitSentences text) in
    let chunks :=
      if Js.truthy currentChunk then chunks ++ [trim currentChunk]
      else chunks in
    filter (λ chunk, (0 < String.length chunk)%nat) chunks.

(** *** The socket *)

(** What [sock.sendMessage] is given. *)
Inductive Sent :=
| SentText (jid text : string)
| SentImage (jid : string) (image : list byte) (mimetype caption : string).

(** The socket: the number of calls of [sock.sendMessage] so far and the
    messages it has accepted, oldest first. *)
Record Socket := {
  attempts : nat;
  delivered : list Sent
}.

Section Sending.

(** Whether the n-th call of [sock.sendMessage] goes through; it throws
    otherwise. *)
Context (accepts : nat → bool).

(** [await this.sock.sendMessage(jid, content)]; the boolean tells whether
    the call returned. *)
Definition sock_sendMessage (sock : Socket) (message : Sent)
    : bool * Socket :=
  if accepts (attempts sock)
  then (true, {| attempts := S (attempts sock);
                 delivered := delivered sock ++ [message] |})
  else (false, {| attempts := S (attempts sock);
                  delivered := delivered sock |}).

(** The header of the chunk at [index] among [total]. *)
Definition partHeader (index total : nat) : string :=
  "📄 *Part " +:+ Js.toString (N.of_nat (index + 1)) +:+ "/"
    +:+ Js.toString (N.of_nat total) +:+ "*" +:+ String "010" (String "010" EmptyString).

(** The loop over the chunks from [index] on; a call that throws ends it. *)
Fixpoint sendChunks (sock : Socket) (jid : string) (total index : nat)
    (chunks : list string) : Socket :=
  match chunks with
  | [] => sock
  | chunk :: rest =>
      let chunkText :=
        if bool_decide (1 < total)%nat then partHeader index total +:+ chunk
        else chunk in
      let '(returned, sock) := sock_sendMessage sock (SentText jid chunkText) in
      if returned then sendChunks sock jid total (S index) rest else sock
  end.

(** [sendMessage(jid, text)]; the length is counted as in [splitMessage]. *)
Definition sendMessage (sock : Socket) (jid text : string) : Socket :=
  let maxLength := 800%nat in
  if bool_decide (String.length text ≤ maxLength)%nat
  then (sock_sendMessage sock (SentText jid text)).2
  else
    let chunks := splitMessage text maxLength in
    sendChunks sock jid (length chunks) 0 chunks.

(** [sendImage(jid, imageData)] *)
Definition sendImage (sock : Socket) (jid : string) (imageData : ImageData)
    : Socket :=
  let buffer := Buffer_from_base64 (image_data imageData) in
  let '(returned, sock) :=
    sock_sendMessage sock
      (SentImage jid buffer (image_mimeType imageData) "🎨 Generated image") in
  if returned then sock
  else sendMessage sock jid
         "❌ Sorry, I had trouble sending the generated image. Please try again.".

End Sending.

End Outbound.

(** ** Readings of a text *)

Module TextReadings.
Import Outbound.

(** No word of the text, as [splitMessage] cuts it into sentences and a
    sentence into words, is longer than [maxLength]. *)
Definition wordsFit (maxLength : nat) (text : string) : Prop :=
  Forall (λ sentence,
            Forall (λ word, (String.length word ≤ maxLength)%nat)
              (Js.split " " sentence))
    (splitSentences text).

(** An ASCII text: every character is below 128.  For such a text a
    character of the byte string is one UTF-16 code unit of the code's
    string, so that [String.length] is the code's [length] and a cut falls
    where the code's [substring] cuts; and its white space is what [\s]
    and [trim()] take for white space. *)
Definition asciiText (text : string) : Prop :=
  forallb (λ c, N_of_ascii c <? 128) (list_ascii_of_string text) = true.

(** A text of [n] short sentences. *)
Definition sentences (n : nat) : string :=
  foldr String.append EmptyString (replicate n "All is well. ").

End TextReadings.

(** ** Readings of the socket *)

Module SocketReadings.
Import Outbound.

(** How many of the [count] calls of [sock.sendMessage] from the call
    numbered [start] on go through before the first that throws. *)
Fixpoint accepted (accepts : nat → bool) (start count : nat) : nat :=
  match count with
  | O => O
  | S count =>
      if accepts start then S (accepted accepts (S start) count) else O
  end.

(** The texts [sendMessage] hands to the socket for the chunks of a long
    message: each chunk under its header when there are several. *)
Definition framed (jid : string) (chunks : list string) : list Sent :=
  imap (λ index chunk,
          SentText jid
            (if bool_decide (1 < length chunks)%nat
             then partHeader index (length chunks) +:+ chunk
             else chunk))
    chunks.

End SocketReadings.

(** ** A turn of the conversation *)

Module Conversation.
Import GcsArtifactService MediaHandler UserSessionManager WhatsAppBot.
Import NonStreaming Outbound.

(** [getMediaType(message)] *)
Definition getMediaType (m : Message) : option string :=
  if bool_decide (is_Some (imageMessage m)) then Some "image"
  else if bool_decide (is_Some (videoMessage m)) then Some "video"
  else if bool_decide (is_Some (audioMessage m)) then Some "audio"
  else if bool_decide (is_Some (documentMessage m)) then Some "document"
  else if bool_decide (is_Some (documentWithCaptionMessage m))
  then Some "document"
  else None.

(** [extractMessageText(message)]; [None] is [null]. *)
Definition extractMessageText (m : Message) : option string :=
  or_string (conversation m) (or_string (extendedTextMessage m) None).

(** [m.messages[0]]: its [message] and its [key.remoteJid]. *)
Record Incoming := {
  incoming_message : option Message;
  remoteJid : option string
}.

(** The bot with what it talks to: its sessions, the artifacts bucket and
    the socket. *)
Record Bot := {
  bot_state : BotState;
  artifactsBucket : gmap string GcsObject;
  sock : Socket
}.

(** The message sent after a media file has been processed. *)
Definition mediaNotice (mediaResult : MediaResult) : string :=
  if bool_decide (converted mediaResult = Some true) then
    if bool_decide (originalFormat mediaResult = Some "XLSX") then
      "📊 Excel file converted to text format for analysis: "
        +:+ result_filename mediaResult
    else if bool_decide (originalFormat mediaResult = Some "DOCX") then
      "📄 Word document converted to text format for analysis: "
        +:+ result_filename mediaResult
    else
      "🔄 " +:+ default "undefined" (originalFormat mediaResult)
        +:+ " file converted to text format: " +:+ result_filename mediaResult
  else
    "✅ Uploaded " +:+ result_filename mediaResult +:+ " ("
      +:+ result_mimeType mediaResult +:+ ")".

Section Turn.

Context {Worksheet : Type}.
Context (XLSX_read : list byte → option (Workbook Worksheet)).
Context (sheet_to_csv : option Worksheet → string).
Context (mammoth_extractRawText : list byte → option string).
Context (fileTypeFromBuffer : list byte → option string).
Context (JSON_stringify : ArtifactData → list byte).
Context (ADK_APP_NAME : string).
(** The backend, the answer of [testGCSConnection] and the socket. *)
Context (backend : Backend ResponseData).
Context (connected : bool).
Context (accepts : nat → bool).

(** The calls of [sendMessage] the session block has recorded in the
    [outbox] since it held [before] entries reach the socket. *)
Definition sendRecorded (before : nat) (st : BotState) (sock : Socket)
    : Socket :=
  foldl (λ sock call, Outbound.sendMessage accepts sock call.1 call.2) sock
    (drop before (outbox st)).

(** The end of [handleIncomingMessages]: what is done with the value of
    [sendToADK]. *)
Definition sendResponse (sock : Socket) (remoteJid : string)
    (response : Reply) : Socket :=
  match response with
  | ReplyText text =>
      if Js.truthy text then Outbound.sendMessage accepts sock remoteJid text
      else sock
  | ReplyParts text images =>
      let sock :=
        if Js.truthy text then Outbound.sendMessage accepts sock remoteJid text
        else sock in
      foldl (λ sock image, sendImage accepts sock remoteJid image) sock images
  end.

(** [handleIncomingMessages(m)].  [download] is what [downloadMediaMessage]
    delivers ([None] when it throws), [uuid] the value of [uuidv4()], [now]
    the clock; [fuel] bounds the re-entry of [sendToADK], and [None] means
    that call has not returned within it.  An exception ends the handler and
    is logged. *)
Definition handleIncomingMessages (fuel : nat) (bot : Bot)
    (m : option Incoming) (download : option (list byte))
    (uuid now : string) : option Bot :=
  match m with
  | None => Some bot
  | Some incoming =>
      match incoming_message incoming with
      | None => Some bot
      | Some message =>
          let hasMedia := hasMedia message in
          let messageText := extractMessageText message in
          if negb (bool_decide (is_Some messageText)) && negb hasMedia
          then Some bot
          else
            match or_string (remoteJid incoming) None with
            | None => Some bot
            | Some remoteJid =>
                let userId := remoteJid in
                let '(session, st) :=
                  resolveSession backend (bot_state bot) now userId
                    messageText in
                let sock :=
                  sendRecorded (length (outbox (bot_state bot))) st (sock bot) in
                match session with
                | None =>
                    Some {| bot_state := st;
                            artifactsBucket := artifactsBucket bot;
                            sock := sock |}
                | Some session =>
                    let media :=
                      if hasMedia then
                        match download with
                        | None => Throw "download"
                        | Some buffer =>
                            match
                              processMediaMessage XLSX_read sheet_to_csv
                                mammoth_extractRawText fileTypeFromBuffer
                                JSON_stringify ADK_APP_NAME
                                (artifactsBucket bot) buffer uuid now message
                                userId (Some (sessionId session))
                            with
                            | Ok (mediaResult, bucket) =>
                                Ok (bucket,
                                    Outbound.sendMessage accepts sock remoteJid
                                      (mediaNotice mediaResult))
                            | Throw e => Throw e
                            end
                        end
                      else Ok (artifactsBucket bot, sock) in
                    match media with
                    | Throw _ =>
                        Some {| bot_state := st;
                                artifactsBucket := artifactsBucket bot;
                                sock :=
                                  Outbound.sendMessage accepts sock remoteJid
                                    "❌ Sorry, I had trouble processing your media file. Please try again." |}
                    | Ok (bucket, sock) =>
                        match
                          sendToADK backend
                            (awaitNonStreamingResponse connected bucket remoteJid)
                            fuel st (sessionId session) userId
                        with
                        | None => None
                        | Some (response, st) =>
                            Some {| bot_state := st;
                                    artifactsBucket := bucket;
                                    sock := sendResponse sock remoteJid response |}
                        end
                    end
                end
            end
      end
  end.

End Turn.

End Conversation.

(** ** Sample turns *)

Module TurnScenarios.
Import GcsArtifactService MediaHandler UserSessionManager WhatsAppBot.
Import NonStreaming Outbound Conversation Scenarios ResponseScenarios.
Import SessionScenarios.

(** A text message from [jid]. *)
Definition textIncoming (jid text : string) : Incoming :=
  {| incoming_message :=
       Some {| imageMessage := None; videoMessage := None;
               audioMessage := None; documentMessage := None;
               documentWithCaptionMessage := None;
               conversation := Some text; extendedTextMessage := None |};
     remoteJid := Some jid |}.

(** A document from [jid]. *)
Definition documentIncoming (jid mime name : string) : Incoming :=
  {| incoming_message := Some (documentOf mime name);
     remoteJid := Some jid |}.

(** A bot with a socket that has not been used yet. *)
Definition botOf (st : BotState) (bucket : gmap string GcsObject) : Bot :=
  {| bot_state := st; artifactsBucket := bucket;
     sock := {| attempts := 0; delivered := [] |} |}.

(** A backend whose first submission fails with status 500 and whose later
    ones answer with [data]; every session creation succeeds with a new
    id. *)
Definition faultThenAnswer (data : ResponseData) : Backend ResponseData :=
  {| createSessionReply n :=
       HttpResponse 200 "OK" (Some ("session-" +:+ Js.toString (N.of_nat n)));
     runReply n :=
       if bool_decide (n = 0)%nat
       then HttpResponse 500 "Internal Server Error" OtherData
       else HttpResponse 200 "OK" data |}.

(** A spreadsheet reader that rejects every buffer. *)
Definition failingXlsxRead (buffer : list byte) : option (Workbook string) :=
  None.

(** [handleIncomingMessages] with the sample converters, the application
    name ["app"], a storage that answers and a socket that accepts every
    call. *)
Definition sampleTurn (backend : Backend ResponseData) (fuel : nat)
    (bot : Bot) (m : option Incoming) (download : option (list byte))
    : option Bot :=
  handleIncomingMessages sampleXlsxRead sampleSheetToCsv sampleExtractRawText
    sampleFileType sampleStringify "app" backend true (λ _, true) fuel bot m
    download "uuid" "2000".

(** An answer with a text and the name of an image artifact. *)
Definition pictureAnswer : ResponseData :=
  ArrayData [partsEvent [textPart "Here it is."] ["cat.webp"]].

End TurnScenarios.

(* ================================================================== *)
(** * Properties *)

Import GcsArtifactService MediaHandler UserSessionManager WhatsAppBot.
Import VersionFallback Scenarios.

(** ** Strings *)

Lemma append_nil_l (s : string) : EmptyString +:+ s = s.
Proof. reflexivity. Qed.

Lemma append_cons (c : ascii) (a s : string) :
  String c a +:+ s = String c (a +:+ s).
Proof. reflexivity. Qed.

Ltac unfold_append := rewrite ?append_cons, ?append_nil_l.

Lemma prefix_append (p s : string) : String.prefix p (p +:+ s) = true.
Proof.
  induction p as [|c p IH]; unfold_append; simpl.
  - by destruct s.
  - destruct (ascii_dec c c); [exact IH | congruence].
Qed.

Lemma append_assoc (a b c : string) : (a +:+ b) +:+ c = a +:+ (b +:+ c).
Proof. induction a as [|x a IH]; unfold_append; [done | by rewrite IH]. Qed.

Lemma uint_of_string_stop (a b : string) (c : ascii) :
  NilEmpty.uint_of_string (String c EmptyString) = None →
  NilEmpty.uint_of_string (a +:+ String c b) = None.
Proof.
  intros Hc. induction a as [|x a IH]; unfold_append; simpl.
  - simpl in Hc. destruct (NilEmpty.uint_of_string b); [|done].
    revert Hc. unfold uint_of_char. by destruct c as [[] [] [] [] [] [] [] []].
  - rewrite IH. done.
Qed.

Lemma toString_not_empty (n : N) : Js.toString n ≠ EmptyString.
Proof.
  unfold Js.toString. intros H.
  assert (Hd : N.to_uint n = Nil).
  { destruct (N.to_uint n); simpl in H; congruence. }
  pose proof (DecimalN.Unsigned.of_to n) as Hn. rewrite Hd in Hn. simpl in Hn.
  subst n. discriminate Hd.
Qed.

Lemma parseDigits_toString (n : N) : Js.parseDigits (Js.toString n) = Some n.
Proof.
  unfold Js.parseDigits. pose proof (toString_not_empty n) as Hne.
  destruct (Js.toString n) eqn:E; [done|]. rewrite <- E. unfold Js.toString.
  rewrite NilEmpty.usu. simpl. by rewrite DecimalN.Unsigned.of_to.
Qed.


Lemma prefix_nil (s : string) : String.prefix EmptyString s = true.
Proof. by destruct s. Qed.

Lemma prefix_cons (a b : ascii) (p s : string) :
  String.prefix (String a p) (String b s)
  = (if Ascii.eqb a b then String.prefix p s else false).
Proof.
  change (String.prefix (String a p) (String b s))
    with (match ascii_dec a b with
          | left _ => String.prefix p s
          | right _ => false
          end).
  destruct (ascii_dec a b), (Ascii.eqb_spec a b); congruence.
Qed.

Lemma prefix_cons_nil (a : ascii) (p : string) :
  String.prefix (String a p) EmptyString = false.
Proof. reflexivity. Qed.

Ltac unfold_prefix := rewrite ?prefix_cons, ?prefix_cons_nil, ?prefix_nil.

Lemma string_length_append (a b : string) :
  String.length (a +:+ b) = (String.length a + String.length b)%nat.
Proof.
  induction a as [|c a IH]; [done|]. rewrite append_cons. simpl. by rewrite IH.
Qed.

Lemma eqb_length (a b : string) :
  String.length a ≠ String.length b → String.eqb a b = false.
Proof. intros Hl. apply String.eqb_neq. intros ->. done. Qed.

Lemma substring_append (a b : string) :
  Js.substring (String.length a) (a +:+ b) = b.
Proof. induction a as [|c a IH]; [by destruct b | exact IH]. Qed.

Lemma append_nil_r (s : string) : s +:+ EmptyString = s.
Proof. induction s as [|c s IH]; [done|]. by rewrite append_cons, IH. Qed.

(** ** Version numbers in object names *)

Lemma match_version_step (name : string) :
  match_version name =
    match (if Js.startsWith name "/v" then Js.parseDigits (Js.substring 2 name)
           else None) with
    | Some v => Some v
    | None =>
        match name with
        | EmptyString => None
        | String _ rest => match_version rest
        end
    end.
Proof. by destruct name. Qed.

(** No version is read off a name that continues with another ["/v..."]
    segment before its end. *)
Lemma no_version_before_slash (c : ascii) (p ds : string) :
  (if Js.startsWith (String c (p +:+ "/v" +:+ ds)) "/v"
   then Js.parseDigits (Js.substring 2 (String c (p +:+ "/v" +:+ ds)))
   else None) = None.
Proof.
  unfold Js.startsWith. unfold_prefix.
  destruct (Ascii.eqb_spec "/" c) as [<-|]; [|done].
  destruct p as [|c2 p]; unfold_append; unfold_prefix; [done|].
  destruct (Ascii.eqb_spec "v" c2) as [<-|]; [|done].
  unfold Js.parseDigits. simpl Js.substring.
  replace (p +:+ "/v" +:+ ds) with (p +:+ String "/" ("v" +:+ ds)) by done.
  rewrite uint_of_string_stop by done.
  by destruct (p +:+ _).
Qed.

(** The name [saveArtifact] writes carries exactly the version it chose. *)
Lemma match_version_versioned (p : string) (n : N) :
  match_version (p +:+ "/v" +:+ Js.toString n) = Some n.
Proof.
  induction p as [|c p IH]; [rewrite append_nil_l | rewrite append_cons].
  - rewrite match_version_step. unfold Js.startsWith.
    replace ("/v" +:+ Js.toString n) with (String "/" (String "v" (Js.toString n)))
      by done.
    unfold_prefix. simpl. by rewrite parseDigits_toString.
  - rewrite match_version_step, no_version_before_slash. exact IH.
Qed.

(** ** Listing after a write *)

Lemma Math_max_cons (v : N) (l : list N) :
  Js.Math_max (v :: l) = N.max v (Js.Math_max l).
Proof. reflexivity. Qed.

Lemma Math_max_Permutation (l k : list N) :
  l ≡ₚ k → Js.Math_max l = Js.Math_max k.
Proof.
  induction 1 as [|x l k _ IH|x y l|l k m _ IH1 _ IH2];
    rewrite ?Math_max_cons; try lia; congruence.
Qed.

Lemma Math_max_upper (v : N) (l : list N) : v ∈ l → v ≤ Js.Math_max l.
Proof.
  induction 1 as [x l|x y l _ IH]; rewrite Math_max_cons; lia.
Qed.

Lemma getFiles_insert {A} (b : gmap string A) (name prefix : string) (o : A) :
  b !! name = None →
  Gcs.getFiles (<[name := o]> b) prefix
    ≡ₚ (if Js.startsWith name prefix then [name] else []) ++ Gcs.getFiles b prefix.
Proof.
  intros Hfresh. unfold Gcs.getFiles.
  rewrite (map_to_list_insert b name o Hfresh). rewrite fmap_cons. simpl.
  destruct (Js.startsWith name prefix) eqn:E.
  - by rewrite filter_cons_True.
  - rewrite filter_cons_False; [done | congruence].
Qed.

Lemma getFiles_elem {A} (b : gmap string A) (name prefix : string) :
  name ∈ Gcs.getFiles b prefix ↔
  is_Some (b !! name) ∧ Js.startsWith name prefix = true.
Proof.
  unfold Gcs.getFiles. rewrite list_elem_of_filter, list_elem_of_fmap.
  split.
  - intros [Hp [[k o] [-> Hin]]]. apply elem_of_map_to_list in Hin. eauto.
  - intros [[o Ho] Hp]. split; [done|]. exists (name, o). split; [done|].
    by apply elem_of_map_to_list.
Qed.

Lemma listVersions_elem (b : gmap string GcsObject)
    (app user file : string) (sid : option string) (n : N) :
  is_Some (b !! (getArtifactPath app user file sid +:+ "/v" +:+ Js.toString n)) →
  n ∈ listVersions b app user file sid.
Proof.
  intros Hsome. unfold listVersions. rewrite merge_sort_Permutation.
  apply list_elem_of_omap.
  exists (getArtifactPath app user file sid +:+ "/v" +:+ Js.toString n).
  split; [|apply match_version_versioned].
  apply getFiles_elem. split; [done|].
  unfold Js.startsWith. rewrite <- append_assoc. apply prefix_append.
Qed.

Lemma getFiles_insert_old {A} (b : gmap string A) (name prefix : string)
    (o : A) :
  is_Some (b !! name) →
  Gcs.getFiles (<[name := o]> b) prefix ≡ₚ Gcs.getFiles b prefix.
Proof.
  intros [o' Ho]. unfold Gcs.getFiles.
  rewrite <- (insert_delete_id b name o' Ho) at 2.
  rewrite <- (insert_delete_eq b name o).
  rewrite !map_to_list_insert by apply lookup_delete_eq.
  by rewrite !fmap_cons.
Qed.

Lemma listVersions_insert (b : gmap string GcsObject)
    (app user file : string) (sid : option string) (n : N) (o : GcsObject) :
  b !! (getArtifactPath app user file sid +:+ "/v" +:+ Js.toString n) = None →
  listVersions
    (<[getArtifactPath app user file sid +:+ "/v" +:+ Js.toString n := o]> b)
    app user file sid
  ≡ₚ n :: listVersions b app user file sid.
Proof.
  intros Hfresh.
  unfold listVersions. rewrite !merge_sort_Permutation.
  rewrite (getFiles_insert b _ _ o Hfresh).
  assert (Hpre : Js.startsWith
            (getArtifactPath app user file sid +:+ "/v" +:+ Js.toString n)
            (getArtifactPath app user file sid +:+ "/v") = true).
  { unfold Js.startsWith. rewrite <- append_assoc. apply prefix_append. }
  rewrite Hpre. simpl. by rewrite match_version_versioned.
Qed.

Lemma listVersions_insert_old (b : gmap string GcsObject)
    (app user file : string) (sid : option string) (name : string)
    (o : GcsObject) :
  is_Some (b !! name) →
  listVersions (<[name := o]> b) app user file sid
  ≡ₚ listVersions b app user file sid.
Proof.
  intros Hold. unfold listVersions. rewrite !merge_sort_Permutation.
  by rewrite (getFiles_insert_old b _ _ o Hold).
Qed.

(** ** The next version number *)

Lemma plus_one_safe (x : N) :
  x ≤ Js.MAX_SAFE_INTEGER → Js.plus_one x = x + 1.
Proof.
  intros Hx. unfold Js.plus_one.
  by rewrite (proj2 (N.leb_le x Js.MAX_SAFE_INTEGER) Hx).
Qed.

Lemma plus_one_le (x : N) : x ≤ Js.plus_one x.
Proof.
  unfold Js.plus_one.
  destruct (x <=? Js.MAX_SAFE_INTEGER); [lia|].
  destruct (x <? 2 ^ 54); [|lia]. destruct (N.even (x / 2)); lia.
Qed.

Lemma plus_one_not_zero (x : N) : Js.plus_one x ≠ 0.
Proof.
  unfold Js.plus_one.
  destruct (x <=? Js.MAX_SAFE_INTEGER) eqn:E; [lia|].
  apply N.leb_gt in E. unfold Js.MAX_SAFE_INTEGER in E.
  destruct (x <? 2 ^ 54); [|lia]. destruct (N.even (x / 2)); lia.
Qed.

Section SaveArtifact.

Context (JSON_stringify : ArtifactData → list byte).

(** The version [saveArtifact] assigns: the Number after the largest listed
    version, and 1 when nothing is listed. *)
Lemma saveArtifact_version (b : gmap string GcsObject)
    (now app user file : string) (part : Part) (sid : option string) :
  (saveArtifact JSON_stringify b now app user file part sid).1
  = match listVersions b app user file sid with
    | [] => 1
    | v :: vs => Js.plus_one (Js.Math_max (v :: vs))
    end.
Proof.
  unfold saveArtifact, saveArtifactWith. simpl.
  destruct (listVersions b app user file sid) as [|v vs] eqn:E; [done|].
  rewrite bool_decide_true; [done | simpl; lia].
Qed.

(** Below 2^53 the next version is one above the largest listed version. *)
Lemma saveArtifact_version_safe (b : gmap string GcsObject)
    (now app user file : string) (part : Part) (sid : option string) :
  Js.Math_max (listVersions b app user file sid) ≤ Js.MAX_SAFE_INTEGER →
  (saveArtifact JSON_stringify b now app user file part sid).1
  = Js.Math_max (listVersions b app user file sid) + 1.
Proof.
  intros Hsafe. rewrite saveArtifact_version.
  destruct (listVersions b app user file sid) as [|v vs]; [done|].
  by apply plus_one_safe.
Qed.

Lemma saveArtifact_version_not_zero (b : gmap string GcsObject)
    (now app user file : string) (part : Part) (sid : option string) :
  (saveArtifact JSON_stringify b now app user file part sid).1 ≠ 0.
Proof.
  rewrite saveArtifact_version.
  destruct (listVersions b app user file sid); [done | apply plus_one_not_zero].
Qed.

Lemma saveArtifact_version_upper (b : gmap string GcsObject)
    (now app user file : string) (part : Part) (sid : option string) :
  Js.Math_max (listVersions b app user file sid)
  ≤ (saveArtifact JSON_stringify b now app user file part sid).1.
Proof.
  rewrite saveArtifact_version.
  destruct (listVersions b app user file sid); [simpl; lia | apply plus_one_le].
Qed.

(** The bucket [saveArtifact] leaves: one object written at the versioned
    path. *)
Lemma saveArtifact_insert (b : gmap string GcsObject)
    (now app user file : string) (part : Part) (sid : option string) :
  ∃ o,
    (saveArtifact JSON_stringify b now app user file part sid).2
    = <[getArtifactPath app user file sid +:+ "/v"
        +:+ Js.toString
              (saveArtifact JSON_stringify b now app user file part sid).1 := o]> b.
Proof. eexists. reflexivity. Qed.

(** With a listing that stays in the exact range, the path written is new. *)
Lemma saveArtifact_fresh_path (b : gmap string GcsObject)
    (now app user file : string) (part : Part) (sid : option string) :
  Js.Math_max (listVersions b app user file sid) ≤ Js.MAX_SAFE_INTEGER →
  b !! (getArtifactPath app user file sid +:+ "/v"
        +:+ Js.toString (saveArtifact JSON_stringify b now app user file part sid).1)
  = None.
Proof.
  intros Hsafe. apply eq_None_not_Some. intros Hsome%listVersions_elem.
  rewrite saveArtifact_version_safe in Hsome by done.
  apply Math_max_upper in Hsome. lia.
Qed.

Lemma saveArtifact_listVersions (b : gmap string GcsObject)
    (now app user file : string) (part : Part) (sid : option string) :
  Js.Math_max (listVersions b app user file sid) ≤ Js.MAX_SAFE_INTEGER →
  listVersions (saveArtifact JSON_stringify b now app user file part sid).2
    app user file sid
  ≡ₚ (saveArtifact JSON_stringify b now app user file part sid).1
     :: listVersions b app user file sid.
Proof.
  intros Hsafe.
  destruct (saveArtifact_insert b now app user file part sid) as [o ->].
  apply listVersions_insert. by apply saveArtifact_fresh_path.
Qed.

(** The version returned is the largest one listed afterwards, whether the
    write was to a new name or not. *)
Lemma saveArtifact_latest (b : gmap string GcsObject)
    (now app user file : string) (part : Part) (sid : option string) :
  Js.Math_max
    (listVersions (saveArtifact JSON_stringify b now app user file part sid).2
       app user file sid)
  = (saveArtifact JSON_stringify b now app user file part sid).1.
Proof.
  pose proof (saveArtifact_version_upper b now app user file part sid) as Hup.
  destruct (saveArtifact_insert b now app user file part sid) as [o Hb].
  rewrite Hb.
  set (v := (saveArtifact JSON_stringify b now app user file part sid).1) in *.
  destruct (b !! (getArtifactPath app user file sid +:+ "/v" +:+ Js.toString v))
    as [o'|] eqn:Hold.
  - rewrite (Math_max_Permutation _ _
               (listVersions_insert_old b app user file sid _ o
                  (mk_is_Some _ _ Hold))).
    assert (Hin : v ∈ listVersions b app user file sid).
    { apply listVersions_elem. by rewrite Hold. }
    apply Math_max_upper in Hin. lia.
  - rewrite (Math_max_Permutation _ _
               (listVersions_insert b app user file sid v o Hold)).
    rewrite Math_max_cons. lia.
Qed.

Lemma saveArtifact_listed (b : gmap string GcsObject)
    (now app user file : string) (part : Part) (sid : option string) :
  listVersions (saveArtifact JSON_stringify b now app user file part sid).2
    app user file sid ≠ [].
Proof.
  destruct (saveArtifact_insert b now app user file part sid) as [o Hb].
  intros Hnil.
  assert (Hin : (saveArtifact JSON_stringify b now app user file part sid).1
                ∈ listVersions
                    (saveArtifact JSON_stringify b now app user file part sid).2
                    app user file sid).
  { apply listVersions_elem. rewrite Hb at 1. rewrite lookup_insert_eq. done. }
  rewrite Hnil in Hin. by apply elem_of_nil in Hin.
Qed.

Lemma saveArtifacts_try_cons (b : gmap string GcsObject)
    (app user file : string) (sid : option string) (listed : bool)
    (now : string) (part : Part) (calls : list (bool * (string * Part))) :
  (saveArtifacts_try JSON_stringify b app user file sid
     ((listed, (now, part)) :: calls)).1
  = (saveArtifact_try JSON_stringify listed b now app user file part sid).1
    :: (saveArtifacts_try JSON_stringify
          (saveArtifact_try JSON_stringify listed b now app user file part sid).2
          app user file sid calls).1.
Proof.
  cbn [saveArtifacts_try].
  destruct (saveArtifact_try JSON_stringify listed b now app user file part sid)
    as [v b1].
  cbn [fst snd].
  by destruct (saveArtifacts_try JSON_stringify b1 app user file sid calls).
Qed.

Lemma saveArtifacts_try_versions_from (calls : list (bool * (string * Part)))
    (b : gmap string GcsObject) (app user file : string) (sid : option string) :
  Forall (λ call, call.1 = true) calls →
  Js.Math_max (listVersions b app user file sid) + N.of_nat (length calls)
  ≤ Js.MAX_SAFE_INTEGER + 1 →
  (saveArtifacts_try JSON_stringify b app user file sid calls).1
  = (λ i, Js.Math_max (listVersions b app user file sid) + N.of_nat i)
      <$> seq 1 (length calls).
Proof.
  revert b. induction calls as [|[listed [now part]] calls IH];
    intros b Hlisted Hsafe; [done|].
  apply Forall_cons in Hlisted as [Hl Hlisted]. simpl in Hl. subst listed.
  cbn [length] in Hsafe.
  assert (Hmax : Js.Math_max (listVersions b app user file sid)
                 ≤ Js.MAX_SAFE_INTEGER) by lia.
  rewrite saveArtifacts_try_cons.
  change (saveArtifact_try JSON_stringify true b now app user file part sid)
    with (saveArtifact JSON_stringify b now app user file part sid).
  rewrite IH; [|done|].
  - rewrite saveArtifact_latest, saveArtifact_version_safe by done.
    cbn [length]. rewrite <- cons_seq, fmap_cons. f_equal.
    rewrite <- (fmap_S_seq 1), <- list_fmap_compose.
    apply list_fmap_ext. intros _ i _. simpl. lia.
  - rewrite saveArtifact_latest, saveArtifact_version_safe by done. lia.
Qed.

(** C4 (amended).  Saving N times in a row under one logical key that has
    no version yet, each save finding its listing answered and no version
    passing 2^53, yields the versions 1, 2, ..., N in call order; and every
    single save whose listing answers with versions that a Number counts
    exactly picks the largest existing version plus one, or 1 when there is
    none. *)
Theorem saveArtifact_versions_1_to_N (b : gmap string GcsObject)
    (app user file : string) (sid : option string)
    (calls : list (bool * (string * Part))) :
  listVersions b app user file sid = [] →
  Forall (λ call, call.1 = true) calls →
  N.of_nat (length calls) ≤ Js.MAX_SAFE_INTEGER + 1 →
  (saveArtifacts_try JSON_stringify b app user file sid calls).1
    = N.of_nat <$> seq 1 (length calls)
  ∧ ∀ b' now part,
      Js.Math_max (listVersions b' app user file sid) ≤ Js.MAX_SAFE_INTEGER →
      (saveArtifact_try JSON_stringify true b' now app user file part sid).1
      = match listVersions b' app user file sid with
        | [] => 1
        | v :: vs => Js.Math_max (v :: vs) + 1
        end.
Proof.
  intros Hnone Hlisted Hsafe. split.
  - rewrite saveArtifacts_try_versions_from;
      [|done|rewrite Hnone; cbn [Js.Math_max foldr]; lia].
    rewrite Hnone. simpl.
    apply list_fmap_ext. intros _ i _. lia.
  - intros b' now part Hmax.
    change (saveArtifact_try JSON_stringify true b' now app user file part sid)
      with (saveArtifact JSON_stringify b' now app user file part sid).
    rewrite saveArtifact_version_safe by done.
    by destruct (listVersions b' app user file sid).
Qed.

End SaveArtifact.

Lemma saveArtifact_versions_1_to_N_witness :
  (saveArtifacts_try sampleStringify ∅ "app" "u1" "report.pdf" (Some "s1")
     [(true, ("t1", bytesPart "application/pdf" ["a"%byte]));
      (true, ("t2", bytesPart "application/pdf" ["b"%byte]));
      (true, ("t3", bytesPart "application/pdf" ["c"%byte]))]).1
  = [1; 2; 3].
Proof.
  refine (proj1 (saveArtifact_versions_1_to_N sampleStringify ∅ "app" "u1"
                   "report.pdf" (Some "s1")
                   [(true, ("t1", bytesPart "application/pdf" ["a"%byte]));
                    (true, ("t2", bytesPart "application/pdf" ["b"%byte]));
                    (true, ("t3", bytesPart "application/pdf" ["c"%byte]))]
                   eq_refl _ _)).
  - repeat constructor.
  - vm_compute. discriminate.
Defined.

(** C4, as stated, fails in two ways.  A save whose listing of the existing
    versions fails goes on with the empty list and hands out version 1 a
    second time, over the object of the first save.  And at a key whose
    largest version is 2^53 the next version is 2^53 again, not the maximum
    plus one, so that object is written over. *)
Lemma saveArtifact_repeats_version :
  (saveArtifacts_try sampleStringify ∅ "app" "u1" "report.pdf" (Some "s1")
     [(true, ("t1", bytesPart "application/pdf" ["a"%byte]));
      (false, ("t2", bytesPart "application/pdf" ["b"%byte]))]).1
  = [1; 1]
  ∧ listVersions versionLimitBucket "app" "u1" "report.pdf" (Some "s1")
    = [9007199254740992]
  ∧ (saveArtifact_try sampleStringify true versionLimitBucket "t1" "app" "u1"
       "report.pdf" (bytesPart "application/pdf" ["b"%byte]) (Some "s1")).1
    = 9007199254740992
  ∧ content <$>
      (saveArtifact_try sampleStringify true versionLimitBucket "t1" "app" "u1"
         "report.pdf" (bytesPart "application/pdf" ["b"%byte]) (Some "s1")).2
        !! "app/u1/s1/report.pdf/v9007199254740992"
    = Some ["b"%byte].
Proof. by vm_compute. Qed.

(** ** Listing the artifacts of a user *)

Lemma includes_cons (c : ascii) (s sub : string) :
  Js.includes (String c s) sub = String.prefix sub (String c s) || Js.includes s sub.
Proof. reflexivity. Qed.

Lemma noSlash_cons (c : ascii) (s : string) :
  noSlash (String c s) → c ≠ "/"%char ∧ noSlash s.
Proof.
  unfold noSlash. rewrite includes_cons. unfold_prefix.
  intros [H1 H2]%orb_false_iff. split; [|done].
  intros ->. by rewrite Ascii.eqb_refl in H1.
Qed.

Lemma split_cons (sep c : ascii) (s : string) :
  Js.split sep (String c s)
  = if Ascii.eqb c sep then EmptyString :: Js.split sep s
    else match Js.split sep s with
         | w :: ws => String c w :: ws
         | [] => [String c EmptyString]
         end.
Proof. reflexivity. Qed.

(** The first segment of a path is cut at the first slash. *)
Lemma split_segment (segment rest : string) :
  noSlash segment →
  Js.split "/" (segment +:+ String "/" rest) = segment :: Js.split "/" rest.
Proof.
  induction segment as [|c segment IH]; intros Hns.
  - by rewrite append_nil_l, split_cons.
  - apply noSlash_cons in Hns as [Hc Hns].
    rewrite append_cons, split_cons, (IH Hns).
    by rewrite (proj2 (Ascii.eqb_neq c "/") Hc).
Qed.

Lemma split_head (c : ascii) (s : string) :
  c ≠ "/"%char → ∃ w ws, Js.split "/" (String c s) = String c w :: ws.
Proof.
  intros Hc. rewrite split_cons, (proj2 (Ascii.eqb_neq c "/") Hc).
  destruct (Js.split "/" s) as [|w ws]; by eexists _, _.
Qed.

(** An object stored as [<userPath><filename>/v...] contributes its file
    name. *)
Lemma listedFilename_legacy (userPath filename rest : string) :
  noSlash filename →
  listedFilename userPath (userPath +:+ filename +:+ "/v" +:+ rest)
  = Some filename.
Proof.
  intros Hns. unfold listedFilename. rewrite substring_append.
  change ("/v" +:+ rest) with (String "/" (String "v" rest)).
  rewrite (split_segment _ _ Hns).
  destruct (split_head "v" rest) as (w & ws & ->); [done|].
  unfold Js.startsWith. by unfold_prefix.
Qed.

(** An object stored as [<userPath><sessionId>/<filename>/<version>] never
    contributes its file name; it contributes the session id when the file
    name happens to start with ["v"]. *)
Lemma listedFilename_session_scoped (userPath sessionId filename version : string) :
  noSlash sessionId →
  listedFilename userPath
    (userPath +:+ sessionId +:+ "/" +:+ filename +:+ "/" +:+ version)
  = if Js.startsWith filename "v" then Some sessionId else None.
Proof.
  intros Hns. unfold listedFilename. rewrite substring_append.
  change ("/" +:+ filename +:+ "/" +:+ version)
    with (String "/" (filename +:+ "/" +:+ version)).
  rewrite (split_segment _ _ Hns). unfold Js.startsWith.
  destruct filename as [|c filename].
  - rewrite append_nil_l.
    change ("/" +:+ version) with (String "/" version).
    rewrite split_cons. simpl Ascii.eqb. cbn iota. by unfold_prefix.
  - rewrite append_cons. unfold_prefix.
    destruct (Ascii.eqb_spec "v" c) as [<-|Hc].
    + destruct (split_head "v" (filename +:+ "/" +:+ version)) as (w & ws & ->);
        [done|].
      by unfold_prefix.
    + rewrite split_cons. destruct (Ascii.eqb_spec c "/").
      * by unfold_prefix.
      * destruct (Js.split "/" _) as [|w ws]; unfold_prefix;
          by rewrite (proj2 (Ascii.eqb_neq "v" c) Hc).
Qed.

Lemma collected_filenames (userPath : string) (files : list string)
    (acc : gset string) (f : string) :
  f ∈ foldl (λ acc name,
               match listedFilename userPath name with
               | Some p0 => {[p0]} ∪ acc
               | None => acc
               end) acc files
  ↔ f ∈ acc ∨ ∃ name, name ∈ files ∧ listedFilename userPath name = Some f.
Proof.
  revert acc. induction files as [|name files IH]; intros acc; simpl.
  - split; [auto|]. intros [H|(name & H & _)]; [done|]. by apply elem_of_nil in H.
  - rewrite IH. destruct (listedFilename userPath name) as [p0|] eqn:E.
    + rewrite elem_of_union, elem_of_singleton. split.
      * intros [[->|H]|(n & Hn & Hl)]; [right|by left|right].
        -- exists name. split; [apply list_elem_of_here | done].
        -- exists n. split; [by apply list_elem_of_further | done].
      * intros [H|(n & Hn & Hl)]; [by left; right|].
        apply elem_of_cons in Hn as [->|Hn].
        -- left; left. congruence.
        -- right. by exists n.
    + split.
      * intros [H|(n & Hn & Hl)]; [by left|right].
        exists n. split; [by apply list_elem_of_further | done].
      * intros [H|(n & Hn & Hl)]; [by left|].
        apply elem_of_cons in Hn as [->|Hn]; [congruence|].
        right. by exists n.
Qed.

(** Which file names [listArtifactKeys] returns. *)
Lemma listArtifactKeys_elem (folder : string) (bucket : gmap string GcsObject)
    (app user f : string) :
  f ∈ listArtifactKeys folder bucket app user
  ↔ ∃ name,
      is_Some (bucket !! name)
      ∧ Js.startsWith name (folder +:+ "/" +:+ app +:+ "/" +:+ user +:+ "/") = true
      ∧ listedFilename (folder +:+ "/" +:+ app +:+ "/" +:+ user +:+ "/") name
        = Some f.
Proof.
  unfold listArtifactKeys. rewrite merge_sort_Permutation, elem_of_elements.
  rewrite collected_filenames. split.
  - intros [H|(name & Hn & Hl)]; [set_solver|].
    apply getFiles_elem in Hn as [Hs Hp]. by exists name.
  - intros (name & Hs & Hp & Hl). right. exists name.
    split; [by apply getFiles_elem | done].
Qed.

(** What [listArtifactKeys] does list: the file name of an object stored
    below the artifacts folder as [<folder>/<app>/<user>/<filename>/v...]. *)
Lemma listArtifactKeys_legacy (folder : string)
    (bucket : gmap string GcsObject) (app user filename rest : string) :
  noSlash filename →
  is_Some (bucket !! (folder +:+ "/" +:+ app +:+ "/" +:+ user +:+ "/"
                      +:+ filename +:+ "/v" +:+ rest)) →
  filename ∈ listArtifactKeys folder bucket app user.
Proof.
  intros Hns Hstored.
  apply listArtifactKeys_elem. eexists. split; [exact Hstored|].
  set (userPath := folder +:+ "/" +:+ app +:+ "/" +:+ user +:+ "/").
  replace (folder +:+ "/" +:+ app +:+ "/" +:+ user +:+ "/" +:+ filename
           +:+ "/v" +:+ rest)
    with (userPath +:+ filename +:+ "/v" +:+ rest)
    by (unfold userPath; by rewrite !append_assoc).
  split; [apply prefix_append | by apply listedFilename_legacy].
Qed.

(** C2.  On a bucket that holds a legacy artifact and a session-scoped
    artifact of the same user, [listArtifactKeys] returns the legacy file
    name only.  The session-scoped object at the address [getArtifactPath]
    builds is outside the prefix [<artifactsFolder>/<app>/<user>/] that is
    listed, a copy of it below the artifacts folder is skipped, and what
    [saveArtifact] writes for the user does not appear either. *)
Theorem listArtifactKeys_misses_session_scoped :
  listArtifactKeys "artifacts" twoConventionsBucket "app" "u1" = ["legacy.png"]
  ∧ ("photo.png" ∉ listArtifactKeys "artifacts" twoConventionsBucket "app" "u1")
  ∧ ("upload.pdf" ∉
       listArtifactKeys "artifacts"
         (saveArtifact sampleStringify twoConventionsBucket "t1" "app" "u1"
            "upload.pdf" (bytesPart "application/pdf" []) (Some "s1")).2
         "app" "u1").
Proof.
  split; [by vm_compute|]. split.
  - assert (E : listArtifactKeys "artifacts" twoConventionsBucket "app" "u1"
                = ["legacy.png"]) by (by vm_compute).
    rewrite E. intros H%list_elem_of_singleton. discriminate H.
  - assert (E : listArtifactKeys "artifacts"
                  (saveArtifact sampleStringify twoConventionsBucket "t1" "app"
                     "u1" "upload.pdf" (bytesPart "application/pdf" [])
                     (Some "s1")).2 "app" "u1"
                = ["legacy.png"]) by (by vm_compute).
    rewrite E. intros H%list_elem_of_singleton. discriminate H.
Qed.

(** ** Session-scoped loading *)

(** C10.  When [loadArtifactBySession] finds the object, the MIME type it
    returns is read off the file name alone (["image/jpeg"] for a name
    containing [".jpg"] or [".jpeg"], ["image/webp"] for [".webp"],
    ["image/png"] otherwise), whatever the object's bytes and metadata; the
    payload is the base64 text of the bytes; and an omitted version means
    version 0. *)
Theorem loadArtifactBySession_mime_from_filename
    (bucket : gmap string GcsObject) (app user session file : string)
    (version : option N) (o : GcsObject) :
  bucket !! (app +:+ "/" +:+ user +:+ "/" +:+ session +:+ "/" +:+ file +:+ "/"
             +:+ Js.toString (default 0 version)) = Some o →
  loadArtifactBySession true bucket app user session file version
  = Some {| image_mimeType :=
              if Js.includes file ".jpg" || Js.includes file ".jpeg"
              then "image/jpeg"
              else if Js.includes file ".webp" then "image/webp"
              else "image/png";
            image_data := base64 (content o) |}
  ∧ loadArtifactBySession true bucket app user session file None
    = loadArtifactBySession true bucket app user session file (Some 0).
Proof.
  intros Hfound. split; [|done].
  unfold loadArtifactBySession. simpl. rewrite Hfound. done.
Qed.

Lemma loadArtifactBySession_mime_from_filename_witness :
  loadArtifactBySession true
    (<["app/u1/s1/cat.webp/0" := rawObject "image/png" ["M"; "a"; "n"]%byte]> ∅)
    "app" "u1" "s1" "cat.webp" None
  = Some {| image_mimeType := "image/webp"; image_data := "TWFu" |}.
Proof.
  exact (proj1 (loadArtifactBySession_mime_from_filename
                  (<["app/u1/s1/cat.webp/0" :=
                       rawObject "image/png" ["M"; "a"; "n"]%byte]> ∅)
                  "app" "u1" "s1" "cat.webp" None
                  (rawObject "image/png" ["M"; "a"; "n"]%byte) eq_refl)).
Defined.

(** ** The streaming aggregator *)

Lemma truthy_true (s : string) : Js.truthy s = true ↔ s ≠ EmptyString.
Proof. unfold Js.truthy. destruct s; simpl; split; congruence. Qed.

Lemma latestFrom_nil (start : string) : latestFrom start [] = start.
Proof. reflexivity. Qed.

Lemma latestFrom_cons (start : string) (e : EventData) (events : list EventData) :
  latestFrom start (e :: events)
  = latestFrom (default start (eventText e)) events.
Proof.
  unfold latestFrom. cbn [omap list_omap].
  destruct (eventText e) as [t|]; [|done].
  rewrite last_cons. by destruct (last _).
Qed.

Lemma latestFrom_app (start : string) (l k : list EventData) :
  latestFrom start (l ++ k) = latestFrom (latestFrom start l) k.
Proof.
  revert start. induction l as [|e l IH]; intros start; [done|].
  simpl. by rewrite !latestFrom_cons, IH.
Qed.

Lemma firstFinal_app (current : string) (l k : list EventData) :
  firstFinal current (l ++ k)
  = match firstFinal current l with
    | Some v => Some v
    | None => firstFinal (latestFrom current l) k
    end.
Proof.
  revert current. induction l as [|e l IH]; intros current; [done|].
  simpl. destruct (negb _ && _); [done|].
  by rewrite IH, latestFrom_cons.
Qed.

(** A settled promise is never changed again. *)
Lemma onData_settled (lines : list SseLine) (a : Aggregator) :
  promise a ≠ Pending → promise (onData a lines) = promise a.
Proof.
  revert a. induction lines as [|line lines IH]; intros a Hset; [done|].
  destruct line as [| | |e]; simpl; try by apply IH.
  unfold onEvent.
  destruct (eventText e) as [t|]; simpl;
    (destruct (negb _ && _); simpl;
     [by destruct (promise a) | by rewrite IH]).
Qed.

Lemma onSignal_settled (signal : StreamSignal) (a : Aggregator) :
  promise a ≠ Pending → promise (onSignal a signal) = promise a.
Proof.
  intros Hset. destruct signal as [lines| |err|]; simpl.
  - by apply onData_settled.
  - destruct (Js.truthy _); simpl; by destruct (promise a).
  - by destruct (promise a).
  - destruct (Js.truthy _); simpl; by destruct (promise a).
Qed.

Lemma signals_settled (signals : list StreamSignal) (a : Aggregator) :
  promise a ≠ Pending → promise (foldl onSignal a signals) = promise a.
Proof.
  revert a. induction signals as [|s signals IH]; intros a Hset; [done|].
  simpl. rewrite IH; rewrite onSignal_settled; done.
Qed.

(** One chunk, read while the promise is pending. *)
Lemma onData_pending (lines : list SseLine) (a : Aggregator) :
  promise a = Pending →
  match firstFinal (fullResponse a) (lineEvents lines) with
  | Some v => promise (onData a lines) = Resolved v
  | None =>
      promise (onData a lines) = Pending
      ∧ fullResponse (onData a lines)
        = latestFrom (fullResponse a) (lineEvents lines)
  end.
Proof.
  revert a. induction lines as [|line lines IH]; intros a Hp; [done|].
  destruct line as [| | |e]; simpl; try by apply IH.
  rewrite latestFrom_cons. unfold onEvent.
  destruct (eventText e) as [t|]; simpl.
  - destruct (negb _ && Js.truthy t) eqn:E; simpl.
    + by rewrite Hp.
    + by apply (IH {| fullResponse := t; hasStarted := true;
                      promise := promise a |}).
  - destruct (negb _ && Js.truthy (fullResponse a)) eqn:E; simpl.
    + by rewrite Hp.
    + by apply IH.
Qed.

(** Any number of chunks: the promise and, while it is pending, the text
    kept depend only on the events, not on how the chunks cut them. *)
Lemma chunks_pending (chunks : list (list SseLine)) (a : Aggregator) :
  promise a = Pending →
  match firstFinal (fullResponse a) (lineEvents (concat chunks)) with
  | Some v => promise (foldl onSignal a (OnData <$> chunks)) = Resolved v
  | None =>
      promise (foldl onSignal a (OnData <$> chunks)) = Pending
      ∧ fullResponse (foldl onSignal a (OnData <$> chunks))
        = latestFrom (fullResponse a) (lineEvents (concat chunks))
  end.
Proof.
  revert a. induction chunks as [|lines chunks IH]; intros a Hp; [done|].
  simpl. unfold lineEvents in *. rewrite omap_app. fold (lineEvents lines).
  rewrite firstFinal_app, latestFrom_app.
  pose proof (onData_pending lines a Hp) as H1.
  destruct (firstFinal (fullResponse a) (lineEvents lines)) as [v|].
  - rewrite signals_settled; rewrite H1; done.
  - destruct H1 as [Hp1 Hf1]. specialize (IH (onData a lines) Hp1).
    rewrite Hf1 in IH. exact IH.
Qed.

(** The first finalising event, described by its position. *)
Lemma firstFinal_at (pre : list EventData) (current : string)
    (e : EventData) (post : list EventData) :
  (∀ p x q, pre = p ++ x :: q →
     partial x = Some true ∨ latestFrom current (p ++ [x]) = EmptyString) →
  partial e ≠ Some true →
  latestFrom current (pre ++ [e]) ≠ EmptyString →
  firstFinal current (pre ++ e :: post)
  = Some (latestFrom current (pre ++ [e])).
Proof.
  revert current. induction pre as [|x pre IH]; intros current Hpre He Hne.
  - simpl in *. rewrite latestFrom_cons, latestFrom_nil in Hne.
    rewrite latestFrom_cons, latestFrom_nil.
    rewrite bool_decide_false by done. simpl.
    by apply truthy_true in Hne as ->.
  - simpl. rewrite latestFrom_cons.
    assert (Hx : negb (bool_decide (partial x = Some true))
                 && Js.truthy (default current (eventText x)) = false).
    { destruct (Hpre [] x pre eq_refl) as [Hx|Hx].
      - by rewrite bool_decide_true.
      - simpl in Hx. rewrite latestFrom_cons, latestFrom_nil in Hx.
        rewrite Hx. apply andb_false_r. }
    rewrite Hx. apply IH; [|done|].
    + intros p y q ->. specialize (Hpre (x :: p) y q eq_refl).
      simpl in Hpre. by rewrite latestFrom_cons in Hpre.
    + simpl in Hne. by rewrite latestFrom_cons in Hne.
Qed.

(** C3 (amended).  However the stream cuts the fragments into chunks, the
    aggregator finalises at the first fragment that is not marked
    [partial = true] and at which some text has been seen; the value is the
    text of the latest fragment so far that carries a text part (a later text
    replaces an earlier one, nothing is concatenated); nothing the stream
    emits afterwards changes it.  The fragments "He" and "Hello" marked
    partial followed by "Hello world" marked final yield "Hello world". *)
Theorem streaming_finalizes_with_latest_text (chunks : list (list SseLine))
    (pre : list EventData) (e : EventData) (post : list EventData) :
  lineEvents (concat chunks) = pre ++ e :: post →
  (∀ p x q, pre = p ++ x :: q →
     partial x = Some true ∨ latestText (p ++ [x]) = EmptyString) →
  partial e ≠ Some true →
  latestText (pre ++ [e]) ≠ EmptyString →
  (∀ later,
     handleStreamingResponse ((OnData <$> chunks) ++ later)
     = Resolved (latestText (pre ++ [e])))
  ∧ handleStreamingResponse
      [OnData [DataEvent (fragment "He" (Some true));
               DataEvent (fragment "Hello" (Some true));
               DataEvent (fragment "Hello world" (Some false))]]
    = Resolved "Hello world".
Proof.
  intros Hev Hpre He Hne. split; [|done].
  intros later. unfold handleStreamingResponse. rewrite foldl_app.
  pose proof (chunks_pending chunks
                {| fullResponse := EmptyString; hasStarted := false;
                   promise := Pending |} eq_refl) as H.
  simpl in H. rewrite Hev, (firstFinal_at pre _ e post Hpre He Hne) in H.
  rewrite signals_settled; rewrite H; done.
Qed.

Lemma streaming_finalizes_with_latest_text_witness :
  handleStreamingResponse
    ((OnData <$>
        [[DataEvent (emptyFragment (Some false))];
         [OtherLine; DataEvent (fragment "Hi" (Some true));
          DataEvent (fragment "Hi there" None)];
         [DataEvent (fragment "ignored" (Some false))]])
     ++ [OnEnd])
  = Resolved "Hi there".
Proof.
  refine (proj1 (streaming_finalizes_with_latest_text
                   [[DataEvent (emptyFragment (Some false))];
                    [OtherLine; DataEvent (fragment "Hi" (Some true));
                     DataEvent (fragment "Hi there" None)];
                    [DataEvent (fragment "ignored" (Some false))]]
                   [emptyFragment (Some false); fragment "Hi" (Some true)]
                   (fragment "Hi there" None)
                   [fragment "ignored" (Some false)]
                   eq_refl _ _ _) [OnEnd]).
  - intros [|a [|b [|c p]]] x q H; simplify_eq/=; auto.
  - discriminate.
  - discriminate.
Defined.

(** C3, as stated, fails: a fragment marked final that arrives before any
    text leaves the promise pending, and the stream is read on. *)
Lemma first_final_fragment_without_text_is_read_over :
  partial (emptyFragment (Some false)) = Some false
  ∧ handleStreamingResponse [OnData [DataEvent (emptyFragment (Some false))]]
    = Pending
  ∧ handleStreamingResponse
      [OnData [DataEvent (emptyFragment (Some false));
               DataEvent (fragment "Hello" (Some false))]]
    = Resolved "Hello".
Proof. done. Qed.

(** A fragment whose [partial] field is absent counts as final. *)
Remark fragment_without_partial_field_finalizes :
  handleStreamingResponse
    [OnData [DataEvent (fragment "He" None);
             DataEvent (fragment "Hello" None);
             DataEvent (fragment "Hello world" (Some false))]]
  = Resolved "He".
Proof. done. Qed.

(** Without a finalising fragment the promise stays pending while data
    arrives, and the text kept is the latest one. *)
Lemma streaming_pending_keeps_latest (chunks : list (list SseLine)) :
  handleStreamingResponse (OnData <$> chunks) = Pending →
  fullResponse
    (foldl onSignal
       {| fullResponse := EmptyString; hasStarted := false; promise := Pending |}
       (OnData <$> chunks))
  = latestText (lineEvents (concat chunks)).
Proof.
  unfold handleStreamingResponse. intros Hp.
  pose proof (chunks_pending chunks
                {| fullResponse := EmptyString; hasStarted := false;
                   promise := Pending |} eq_refl) as H.
  simpl in H. destruct (firstFinal _ _); [congruence | by destruct H].
Qed.

Lemma onData_resolved_not_empty (lines : list SseLine) (a : Aggregator) :
  (∀ v, promise a = Resolved v → v ≠ EmptyString) →
  ∀ v, promise (onData a lines) = Resolved v → v ≠ EmptyString.
Proof.
  revert a. induction lines as [|line lines IH]; intros a Ha; [done|].
  destruct line as [| | |e]; simpl; try by apply IH.
  unfold onEvent.
  destruct (eventText e) as [t|]; simpl.
  - destruct (negb _ && Js.truthy t) eqn:E; simpl.
    + apply andb_true_iff in E as [_ E%truthy_true].
      destruct (promise a) eqn:Ep; intros v; [by intros [= <-] | | done].
      intros [= <-]. by apply Ha.
    + by apply (IH {| fullResponse := t; hasStarted := true;
                      promise := promise a |}).
  - destruct (negb _ && Js.truthy (fullResponse a)) eqn:E; simpl.
    + apply andb_true_iff in E as [_ E%truthy_true].
      destruct (promise a) eqn:Ep; intros v; [by intros [= <-] | | done].
      intros [= <-]. by apply Ha.
    + by apply IH.
Qed.

Lemma onSignal_resolved_not_empty (signal : StreamSignal) (a : Aggregator) :
  (∀ v, promise a = Resolved v → v ≠ EmptyString) →
  ∀ v, promise (onSignal a signal) = Resolved v → v ≠ EmptyString.
Proof.
  intros Ha. destruct signal as [lines| |err|]; simpl.
  - by apply onData_resolved_not_empty.
  - destruct (Js.truthy (fullResponse a)) eqn:E; simpl;
      destruct (promise a) eqn:Ep; intros v; try done;
      intros [= <-]; try (by apply Ha); by apply truthy_true.
  - destruct (promise a) eqn:Ep; intros v; try done. intros [= <-]. by apply Ha.
  - destruct (Js.truthy (fullResponse a)) eqn:E; simpl;
      destruct (promise a) eqn:Ep; intros v; try done;
      intros [= <-]; try (by apply Ha); by apply truthy_true.
Qed.

Lemma signals_resolved_not_empty (signals : list StreamSignal) (a : Aggregator) :
  (∀ v, promise a = Resolved v → v ≠ EmptyString) →
  ∀ v, promise (foldl onSignal a signals) = Resolved v → v ≠ EmptyString.
Proof.
  revert a. induction signals as [|s signals IH]; intros a Ha; [done|].
  simpl. apply IH. by apply onSignal_resolved_not_empty.
Qed.

(** C8.  A streamed turn never resolves to the empty string.  While no
    fragment has finalised the reply, the timer (set to twice the backend
    request timeout) resolves it with the text seen so far, or with the fixed
    timed-out sentence when none was seen; the end of the stream resolves it
    with the text seen so far, or with the fixed apology.  A stream that
    emits "partial answer" and then stalls yields "partial answer". *)
Theorem streaming_never_resolves_empty :
  (∀ signals v, handleStreamingResponse signals = Resolved v → v ≠ EmptyString)
  ∧ (∀ chunks later,
       handleStreamingResponse (OnData <$> chunks) = Pending →
       handleStreamingResponse ((OnData <$> chunks) ++ OnTimeout :: later)
       = Resolved
           (if Js.truthy (latestText (lineEvents (concat chunks)))
            then latestText (lineEvents (concat chunks))
            else "Response timed out. Please try again with a shorter message.")
       ∧ handleStreamingResponse ((OnData <$> chunks) ++ OnEnd :: later)
         = Resolved
             (if Js.truthy (latestText (lineEvents (concat chunks)))
              then latestText (lineEvents (concat chunks))
              else "I received your message, but the response was incomplete. Please try again."))
  ∧ (∀ adkTimeout, streamingTimeout adkTimeout = 2 * adkTimeout)
  ∧ handleStreamingResponse
      [OnData [DataEvent (fragment "partial answer" (Some true))]; OnTimeout]
    = Resolved "partial answer".
Proof.
  split; [|split; [|split; [|done]]].
  - intros signals. unfold handleStreamingResponse.
    by apply signals_resolved_not_empty.
  - intros chunks later Hp.
    pose proof (streaming_pending_keeps_latest chunks Hp) as Hf.
    unfold handleStreamingResponse in *. rewrite !foldl_app. simpl.
    rewrite !signals_settled.
    + rewrite Hf.
      destruct (Js.truthy (latestText _)); simpl; by rewrite Hp.
    + destruct (Js.truthy _); simpl; by rewrite Hp.
    + destruct (Js.truthy _); simpl; by rewrite Hp.
  - intros t. unfold streamingTimeout. lia.
Qed.

Lemma streaming_never_resolves_empty_witness :
  handleStreamingResponse
    [OnData [DataEvent (fragment "answer" (Some true))]; OnEnd; OnTimeout]
  = Resolved "answer"
  ∧ "answer" ≠ EmptyString.
Proof.
  split; [reflexivity|].
  exact (proj1 streaming_never_resolves_empty
           [OnData [DataEvent (fragment "answer" (Some true))]; OnEnd; OnTimeout]
           "answer" eq_refl).
Defined.

(** ** The turn dispatcher *)

Section DispatcherFacts.

Context {Data : Type}.
Context (backend : Backend Data).
Context (handleResponse : Data → string → option (Reply + JsError)).

Lemma createADKSession_issues (st : BotState) (uid id : string) :
  issues (createSessionReply backend (creations st)) id →
  createADKSession backend st uid
  = (Some id,
     {| activeSessions := activeSessions st; sessionBucket := sessionBucket st;
        creations := S (creations st); submissions := submissions st;
        outbox := outbox st |}).
Proof.
  intros [[statusText Hr] Hid]. unfold createADKSession. rewrite Hr.
  rewrite !bool_decide_true by lia. by rewrite Hid.
Qed.

Lemma createADKSession_refuses (st : BotState) (uid : string) :
  refuses (createSessionReply backend (creations st)) →
  createADKSession backend st uid
  = (None,
     {| activeSessions := activeSessions st; sessionBucket := sessionBucket st;
        creations := S (creations st); submissions := submissions st;
        outbox := outbox st |}).
Proof.
  intros Hno. unfold createADKSession.
  destruct (createSessionReply backend (creations st))
    as [status statusText id|code] eqn:Hr; [|done].
  case_bool_decide; [|done]. case_bool_decide as Hs; [|done].
  destruct id as [i|]; [|done]. destruct (Js.truthy i) eqn:Hi; [|done].
  exfalso. apply (Hno i). split; [|done]. exists statusText. by rewrite Hs.
Qed.

Lemma createADKSession_sessionBucket (st : BotState) (uid : string) :
  sessionBucket (createADKSession backend st uid).2 = sessionBucket st.
Proof.
  unfold createADKSession.
  destruct (createSessionReply backend (creations st)); [|done].
  repeat case_bool_decide; done.
Qed.

(** A fault answered by a new session: the call re-enters itself with it. *)
Lemma sendToADK_fault (fuel : nat) (st : BotState) (sid uid id : string) :
  isFault (runReply backend (length (submissions st))) →
  issues (createSessionReply backend (creations st)) id →
  sendToADK backend handleResponse (S fuel) st sid uid
  = sendToADK backend handleResponse fuel (afterFault st sid uid id) id uid.
Proof.
  intros Hf Hc. cbn [sendToADK].
  destruct (runReply backend (length (submissions st)))
    as [status statusText data|code]; [|done].
  simpl in Hf. subst status.
  rewrite bool_decide_true by lia. cbn [negb].
  rewrite bool_decide_true by done.
  rewrite (createADKSession_issues _ uid id) by done. done.
Qed.

(** A fault for which no session can be created ends the turn. *)
Lemma sendToADK_fault_refused (fuel : nat) (st : BotState) (sid uid : string) :
  isFault (runReply backend (length (submissions st))) →
  refuses (createSessionReply backend (creations st)) →
  sendToADK backend handleResponse (S fuel) st sid uid
  = Some (serviceIssuesReply,
          {| activeSessions := activeSessions st;
             sessionBucket := sessionBucket st;
             creations := S (creations st);
             submissions := submissions st ++ [sid];
             outbox := outbox st |}).
Proof.
  intros Hf Hc. cbn [sendToADK].
  destruct (runReply backend (length (submissions st)))
    as [status statusText data|code]; [|done].
  simpl in Hf. subst status.
  rewrite bool_decide_true by lia. cbn [negb].
  rewrite bool_decide_true by done.
  rewrite (createADKSession_refuses _ uid) by done. done.
Qed.

(** Any other answer ends the turn without touching the sessions. *)
Lemma sendToADK_answer (fuel : nat) (st : BotState) (sid uid : string) :
  answers handleResponse sid (runReply backend (length (submissions st))) →
  ∃ reply,
    sendToADK backend handleResponse (S fuel) st sid uid
    = Some (reply,
            {| activeSessions := activeSessions st;
               sessionBucket := sessionBucket st;
               creations := creations st;
               submissions := submissions st ++ [sid];
               outbox := outbox st |}).
Proof.
  intros Ha. cbn [sendToADK].
  destruct (runReply backend (length (submissions st)))
    as [status statusText data|code]; [|by eexists].
  destruct Ha as [Hne Hok].
  case_bool_decide; cbn [negb]; [|by eexists].
  rewrite bool_decide_false by done.
  case_bool_decide as H200; [|by eexists].
  destruct (Hok H200) as [[reply|err] ->]; by eexists.
Qed.

Lemma afterFaults_creations (ids : list string) (st : BotState) (sid uid : string) :
  creations (afterFaults st sid uid ids) = (creations st + length ids)%nat.
Proof.
  revert st sid. induction ids as [|id ids IH]; intros st sid; simpl; [lia|].
  rewrite IH. simpl. lia.
Qed.

Lemma afterFaults_submissions (ids : list string) (st : BotState) (sid uid : string) :
  submissions (afterFaults st sid uid ids) ++ [default sid (last ids)]
  = submissions st ++ sid :: ids.
Proof.
  revert st sid. induction ids as [|id ids IH]; intros st sid; [done|].
  simpl afterFaults. rewrite last_cons.
  specialize (IH (afterFault st sid uid id) id).
  destruct (last ids) as [l|]; simpl in *; rewrite IH, <- app_assoc; done.
Qed.

(** A chain of faults, each answered by a new session. *)
Lemma sendToADK_faults (ids : list string) (fuel : nat) (st : BotState)
    (sid uid : string) :
  (∀ k id, ids !! k = Some id →
     isFault (runReply backend (length (submissions st) + k))
     ∧ issues (createSessionReply backend (creations st + k)) id) →
  sendToADK backend handleResponse (length ids + fuel) st sid uid
  = sendToADK backend handleResponse fuel (afterFaults st sid uid ids)
      (default sid (last ids)) uid.
Proof.
  revert st sid. induction ids as [|id ids IH]; intros st sid Hall; [done|].
  destruct (Hall 0%nat id eq_refl) as [Hf Hc]. rewrite !Nat.add_0_r in *.
  cbn [length Nat.add]. rewrite (sendToADK_fault _ _ _ _ id) by done.
  rewrite IH.
  - simpl afterFaults. rewrite last_cons. by destruct (last ids).
  - intros k id' Hk. specialize (Hall (S k) id' Hk).
    cbn [afterFault submissions creations]. rewrite length_app. cbn [length].
    replace (length (submissions st) + 1 + k)%nat
      with (length (submissions st) + S k)%nat by lia.
    replace (S (creations st) + k)%nat with (creations st + S k)%nat by lia.
    exact Hall.
Qed.

Lemma afterFaults_length (ids : list string) (st : BotState) (sid uid : string) :
  length (submissions (afterFaults st sid uid ids))
  = (length (submissions st) + length ids)%nat.
Proof.
  pose proof (afterFaults_submissions ids st sid uid) as Hsub.
  apply (f_equal length) in Hsub. rewrite !length_app in Hsub.
  simpl in Hsub. lia.
Qed.

Lemma createADKSession_Some (st st1 : BotState) (uid id : string) :
  createADKSession backend st uid = (Some id, st1) →
  issues (createSessionReply backend (creations st)) id.
Proof.
  unfold createADKSession.
  destruct (createSessionReply backend (creations st))
    as [status statusText i|code]; [|done].
  case_bool_decide; [|done]. case_bool_decide as Hs; [|done].
  destruct i as [i|]; [|done]. destruct (Js.truthy i) eqn:Hi; [|done].
  intros [= -> _]. split; [|done]. exists statusText. by rewrite Hs.
Qed.

Lemma createADKSession_None (st st1 : BotState) (uid : string) :
  createADKSession backend st uid = (None, st1) →
  refuses (createSessionReply backend (creations st)).
Proof.
  intros Hc id Hid.
  rewrite (createADKSession_issues st uid id Hid) in Hc. discriminate Hc.
Qed.

(** An answer that is not a fault ends the turn with the reply made of it. *)
Lemma sendToADK_answerOf (fuel : nat) (st : BotState) (sid uid : string) :
  ¬ isFault (runReply backend (length (submissions st))) →
  sendToADK backend handleResponse (S fuel) st sid uid
  = (λ reply, (reply, submitted st sid))
      <$> answerOf handleResponse sid (runReply backend (length (submissions st))).
Proof.
  intros Hnf. cbn [sendToADK]. unfold answerOf.
  destruct (runReply backend (length (submissions st)))
    as [status statusText data|code]; [|done].
  simpl in Hnf.
  case_bool_decide; cbn [negb]; [|done].
  rewrite bool_decide_false by done.
  case_bool_decide; [|done].
  by destruct (handleResponse data sid) as [[reply|err]|].
Qed.

(** Every run that returns went through a chain of faults, each answered by
    a new session, and ended either on a fault whose session creation was
    refused, with the sentence for that, or on an answer, with the reply
    made of it. *)
Lemma sendToADK_returns (fuel : nat) (st : BotState) (sid uid : string)
    (reply : Reply) (st' : BotState) :
  sendToADK backend handleResponse fuel st sid uid = Some (reply, st') →
  ∃ ids,
    faultChain backend st ids
    ∧ submissions st' = submissions st ++ sid :: ids
    ∧ ((isFault (runReply backend (length (submissions st) + length ids))
        ∧ refuses (createSessionReply backend (creations st + length ids))
        ∧ reply = serviceIssuesReply
        ∧ creations st' = S (creations st + length ids))
       ∨ (¬ isFault (runReply backend (length (submissions st) + length ids))
          ∧ answerOf handleResponse (default sid (last ids))
              (runReply backend (length (submissions st) + length ids))
            = Some reply
          ∧ creations st' = (creations st + length ids)%nat)).
Proof.
  unfold faultChain.
  revert st sid. induction fuel as [|fuel IH]; intros st sid; [done|].
  destruct (runReply backend (length (submissions st)))
    as [status statusText data|code] eqn:Hrun.
  2: { rewrite sendToADK_answerOf by (rewrite Hrun; simpl; tauto).
       rewrite Hrun. intros [= <- <-]. exists []. rewrite !Nat.add_0_r.
       split; [by intros k id Hk|]. split; [done|]. right.
       rewrite Hrun. by split; [simpl; tauto|]. }
  destruct (decide (status = 500)) as [->|Hne].
  - destruct (createADKSession backend (submitted st sid) uid) as [[id|] st1]
      eqn:Hc.
    + pose proof (createADKSession_Some (submitted st sid) st1 uid id Hc) as Hi.
      rewrite (sendToADK_fault fuel st sid uid id) by (rewrite ?Hrun; done).
      intros (ids & Hchain & Hsub & Hend)%IH. exists (id :: ids).
      cbn [afterFault submissions creations length] in *.
      rewrite length_app in Hchain, Hend. cbn [length] in Hchain, Hend.
      replace (length (submissions st) + S (length ids))%nat
        with (length (submissions st) + 1 + length ids)%nat by lia.
      replace (creations st + S (length ids))%nat
        with (S (creations st) + length ids)%nat by lia.
      split; [|split].
      * intros [|k] id' Hk.
        -- injection Hk as <-. rewrite !Nat.add_0_r. by rewrite Hrun.
        -- specialize (Hchain k id' Hk).
           replace (length (submissions st) + S k)%nat
             with (length (submissions st) + 1 + k)%nat by lia.
           replace (creations st + S k)%nat
             with (S (creations st) + k)%nat by lia.
           exact Hchain.
      * rewrite Hsub, <- app_assoc. done.
      * rewrite last_cons. destruct (last ids); exact Hend.
    + pose proof (createADKSession_None (submitted st sid) st1 uid Hc) as Hr.
      rewrite (sendToADK_fault_refused fuel st sid uid)
        by (rewrite ?Hrun; done).
      intros [= <- <-]. exists []. rewrite !Nat.add_0_r.
      split; [by intros k id Hk|]. split; [done|]. left.
      rewrite Hrun. by repeat split.
  - rewrite sendToADK_answerOf by (rewrite Hrun; done).
    rewrite Hrun. destruct (answerOf _ _ _) as [r|] eqn:Ha; [|done].
    intros [= <- <-]. exists []. rewrite !Nat.add_0_r.
    split; [by intros k id Hk|]. split; [done|]. right.
    rewrite Hrun. by split.
Qed.

(** C1 (amended).  Every session fault is answered by one new session and
    one retry, with no budget.  After n faults in a row (each new session
    being granted) an answer ends the turn with exactly n sessions created
    and n + 1 submissions, the retries going out under the new sessions in
    order, and the reply of the turn is that answer.  The "experiencing
    issues" sentence ends the turn when the next fault meets a refused
    session creation, and only then: every run that returns ends either
    that way or with the answer to its last submission as reply. *)
Theorem sendToADK_retries_per_fault (ids : list string) (fuel : nat)
    (st : BotState) (sid uid : string) :
  faultChain backend st ids →
  (¬ isFault (runReply backend (length (submissions st) + length ids)) →
   sendToADK backend handleResponse (length ids + S fuel) st sid uid
   = (λ reply,
        (reply, submitted (afterFaults st sid uid ids) (default sid (last ids))))
       <$> answerOf handleResponse (default sid (last ids))
             (runReply backend (length (submissions st) + length ids)))
  ∧ creations (submitted (afterFaults st sid uid ids) (default sid (last ids)))
    = (creations st + length ids)%nat
  ∧ submissions (submitted (afterFaults st sid uid ids) (default sid (last ids)))
    = submissions st ++ sid :: ids
  ∧ (isFault (runReply backend (length (submissions st) + length ids)) →
     refuses (createSessionReply backend (creations st + length ids)) →
     sendToADK backend handleResponse (length ids + S fuel) st sid uid
     = Some (serviceIssuesReply,
             afterRefusal (afterFaults st sid uid ids)
               (default sid (last ids))))
  ∧ (∀ fuel' reply st',
       sendToADK backend handleResponse fuel' st sid uid = Some (reply, st') →
       ∃ ids',
         faultChain backend st ids'
         ∧ submissions st' = submissions st ++ sid :: ids'
         ∧ ((isFault (runReply backend (length (submissions st) + length ids'))
             ∧ refuses (createSessionReply backend
                          (creations st + length ids'))
             ∧ reply = serviceIssuesReply
             ∧ creations st' = S (creations st + length ids'))
            ∨ (¬ isFault
                   (runReply backend (length (submissions st) + length ids'))
               ∧ answerOf handleResponse (default sid (last ids'))
                   (runReply backend (length (submissions st) + length ids'))
                 = Some reply
               ∧ creations st' = (creations st + length ids')%nat))).
Proof.
  intros Hall.
  pose proof (afterFaults_submissions ids st sid uid) as Hsub.
  pose proof (afterFaults_length ids st sid uid) as Hlen.
  split; [|split; [|split; [|split]]].
  - intros Hnf. rewrite (sendToADK_faults ids (S fuel) st sid uid Hall).
    rewrite <- Hlen in *. by apply sendToADK_answerOf.
  - cbn [submitted creations]. apply afterFaults_creations.
  - cbn [submitted submissions]. exact Hsub.
  - intros Hf Hr. rewrite (sendToADK_faults ids (S fuel) st sid uid Hall).
    rewrite <- Hlen in Hf.
    rewrite <- afterFaults_creations with (sid := sid) (uid := uid) in Hr.
    by rewrite (sendToADK_fault_refused fuel _ (default sid (last ids)) uid Hf Hr).
  - intros fuel' reply st'. apply sendToADK_returns.
Qed.

(** While every submission faults and every session is granted, the call
    never returns, whatever depth of re-entry is allowed. *)
Lemma sendToADK_never_returns (fuel : nat) (st : BotState) (sid uid : string) :
  (∀ k, isFault (runReply backend (length (submissions st) + k))
        ∧ ∃ id, issues (createSessionReply backend (creations st + k)) id) →
  sendToADK backend handleResponse fuel st sid uid = None.
Proof.
  revert st sid. induction fuel as [|fuel IH]; intros st sid Hall; [done|].
  destruct (Hall 0%nat) as [Hf [id Hc]]. rewrite !Nat.add_0_r in *.
  rewrite (sendToADK_fault _ _ _ _ id) by done. apply IH.
  intros k. specialize (Hall (S k)).
  cbn [afterFault submissions creations]. rewrite length_app. cbn [length].
  replace (length (submissions st) + 1 + k)%nat
    with (length (submissions st) + S k)%nat by lia.
  replace (S (creations st) + k)%nat with (creations st + S k)%nat by lia.
  exact Hall.
Qed.

End DispatcherFacts.

(** A backend that faults on every submission keeps [sendToADK] creating
    sessions for ever. *)
Remark sendToADK_brokenBackend (fuel : nat) :
  sendToADK brokenBackend echoResponse fuel knownUserBot "session-old" "u1"
  = None.
Proof.
  apply sendToADK_never_returns. intros k. split; [done|].
  eexists. split; [by eexists | done].
Qed.

Lemma sendToADK_retries_per_fault_witness :
  sendToADK (faultyBackend 2) echoResponse 3 knownUserBot "session-old" "u1"
  = Some (ReplyText "Hello!",
          submitted
            (afterFaults knownUserBot "session-old" "u1"
               ["session-0"; "session-1"])
            "session-1")
  ∧ creations
      (submitted
         (afterFaults knownUserBot "session-old" "u1"
            ["session-0"; "session-1"])
         "session-1")
    = 2%nat
  ∧ submissions
      (submitted
         (afterFaults knownUserBot "session-old" "u1"
            ["session-0"; "session-1"])
         "session-1")
    = ["session-old"; "session-0"; "session-1"].
Proof.
  assert (Hchain : faultChain (faultyBackend 2) knownUserBot
                     ["session-0"; "session-1"]).
  { intros [|[|k]] id H; simplify_eq/=; (split; [done|]);
      (split; [by eexists | done]). }
  destruct (sendToADK_retries_per_fault (faultyBackend 2) echoResponse
              ["session-0"; "session-1"] 0 knownUserBot "session-old" "u1"
              Hchain) as (Hanswer & Hcreated & Hsubmitted & _).
  split; [|split; [exact Hcreated | exact Hsubmitted]].
  apply Hanswer. simpl. discriminate.
Defined.

(** C1, as stated, fails: two faults in a row are answered by two new
    sessions, and the third submission's answer is the reply of the turn. *)
Lemma two_faults_two_replacements :
  isFault (runReply (faultyBackend 2) 0)
  ∧ isFault (runReply (faultyBackend 2) 1)
  ∧ ∃ st',
      sendToADK (faultyBackend 2) echoResponse 3 knownUserBot "session-old" "u1"
      = Some (ReplyText "Hello!", st')
      ∧ creations st' = 2%nat
      ∧ submissions st' = ["session-old"; "session-0"; "session-1"]
      ∧ ReplyText "Hello!" ≠ serviceIssuesReply.
Proof.
  split; [done|]. split; [done|].
  eexists. split; [vm_compute; reflexivity|]. done.
Qed.

Section DurableMapping.

Context {Data : Type}.
Context (backend : Backend Data).
Context (handleResponse : Data → string → option (Reply + JsError)).

Lemma sendToADK_sessionBucket (fuel : nat) (st : BotState) (sid uid : string)
    (reply : Reply) (st' : BotState) :
  sendToADK backend handleResponse fuel st sid uid = Some (reply, st') →
  sessionBucket st' = sessionBucket st.
Proof.
  revert st sid. induction fuel as [|fuel IH]; intros st sid; [done|].
  cbn [sendToADK].
  destruct (runReply backend (length (submissions st)))
    as [status statusText data|code]; [|by intros [= _ <-]].
  case_bool_decide; cbn [negb]; [|by intros [= _ <-]].
  case_bool_decide.
  - set (st1 := {| activeSessions := activeSessions st;
                   sessionBucket := sessionBucket st;
                   creations := creations st;
                   submissions := submissions st ++ [sid];
                   outbox := outbox st |}).
    pose proof (createADKSession_sessionBucket backend st1 uid) as Hb.
    destruct (createADKSession backend st1 uid) as [[new|] st2];
      simpl in Hb.
    + intros Hrun%IH. simpl in Hrun. congruence.
    + intros [= _ <-]. done.
  - case_bool_decide; [|by intros [= _ <-]].
    destruct (handleResponse data) as [[r|e]|]; [| |done]; by intros [= _ <-].
Qed.

(** The recovery from a session fault rewrites the session id of the
    user's entry in the in-memory map, and no run of [sendToADK] changes the
    durable session bucket. *)
Lemma sendToADK_replaces_in_memory_only (fuel : nat) (st : BotState)
    (sid uid id : string) :
  isFault (runReply backend (length (submissions st))) →
  issues (createSessionReply backend (creations st)) id →
  answers handleResponse id (runReply backend (S (length (submissions st)))) →
  (∃ reply st',
     sendToADK backend handleResponse (S (S fuel)) st sid uid = Some (reply, st')
     ∧ activeSessions st' = alter (withSessionId id) uid (activeSessions st)
     ∧ sessionBucket st' = sessionBucket st
     ∧ submissions st' = submissions st ++ [sid; id])
  ∧ ∀ fuel' st0 sid0 uid0 reply st',
      sendToADK backend handleResponse fuel' st0 sid0 uid0 = Some (reply, st') →
      sessionBucket st' = sessionBucket st0.
Proof.
  intros Hf Hc Ha. split.
  - rewrite (sendToADK_fault backend handleResponse _ _ _ _ id Hf Hc).
    destruct (sendToADK_answer backend handleResponse fuel
                (afterFault st sid uid id) id uid) as [reply ->].
    { simpl. rewrite length_app. simpl. by rewrite Nat.add_1_r. }
    eexists _, _. split; [done|]. simpl. by rewrite <- app_assoc.
  - intros fuel' st0 sid0 uid0 reply st'. apply sendToADK_sessionBucket.
Qed.

End DurableMapping.

Lemma sendToADK_replaces_in_memory_only_witness :
  ∃ reply st',
    sendToADK (faultyBackend 1) echoResponse 2 knownUserBot "session-old" "u1"
    = Some (reply, st')
    ∧ activeSessions st'
      = alter (withSessionId "session-0") "u1" (activeSessions knownUserBot)
    ∧ sessionBucket st' = sessionBucket knownUserBot
    ∧ submissions st' = ["session-old"; "session-0"].
Proof.
  refine (proj1 (sendToADK_replaces_in_memory_only (faultyBackend 1)
                   echoResponse 0 knownUserBot "session-old" "u1" "session-0"
                   _ _ _)).
  - done.
  - split; [by eexists | done].
  - split; [done|]. intros _. by eexists.
Defined.

(** C5.  After a session fault has put a new session in place for a user
    the bot knows, the in-memory entry names the new session while the
    durable mapping still names the old one: [storeUserSession], which the
    session block calls for a new session, is not called by the handler of
    the fault.  A bot restarted from that state resolves the user to the old
    session again. *)
Theorem fault_recovery_leaves_durable_mapping :
  ∃ st',
    sendToADK (faultyBackend 1) echoResponse 2 knownUserBot "session-old" "u1"
    = Some (ReplyText "Hello!", st')
    ∧ sessionId <$> activeSessions st' !! "u1" = Some "session-0"
    ∧ json_sessionId <$> getUserSession (sessionBucket st') "u1"
      = Some "session-old"
    ∧ sessionId <$> (resolveSession (faultyBackend 1) (restart st') "t9" "u1"
                       (Some "hi")).1
      = Some "session-old".
Proof.
  eexists. split; [vm_compute; reflexivity|]. by vm_compute.
Qed.

(** ** The session directory *)

Section SessionDirectory.

Context {Data : Type}.
Context (backend : Backend Data).

Lemma getUserSession_store (b : gmap string SessionJson)
    (now uid sid : string) (fields : SessionFields) :
  getUserSession (storeUserSession b now uid sid fields).2 uid
  = Some {| json_userId := default uid (with_userId fields);
            json_sessionId := default sid (with_sessionId fields);
            json_createdAt := default now (with_createdAt fields);
            json_lastActivity := default now (with_lastActivity fields);
            json_isNewUser := with_isNewUser fields;
            json_firstMessage := with_firstMessage fields |}.
Proof. unfold getUserSession, storeUserSession. simpl. apply lookup_insert_eq. Qed.

(** [updateUserActivity] keeps the session id of the durable mapping. *)
Lemma updateUserActivity_sessionId (b : gmap string SessionJson)
    (now uid : string) :
  json_sessionId <$> getUserSession (updateUserActivity b now uid) uid
  = json_sessionId <$> getUserSession b uid.
Proof.
  unfold updateUserActivity.
  destruct (getUserSession b uid) as [d|] eqn:E; [|by rewrite E].
  by rewrite getUserSession_store.
Qed.

(** C6 (amended).  Resolving a never-seen user twice, with no session
    replacement in between, yields the same session id both times and
    [isReturningUser = false] the first time.  The second resolution
    reports [false] again as long as the user's entry is still in the
    in-memory map; it reports [true] only when that entry is gone (expired
    or lost in a restart) and the session is read back from the durable
    mapping. *)
Theorem resolveSession_twice (st : BotState) (now1 now2 uid id : string)
    (text1 text2 : option string) :
  activeSessions st !! uid = None →
  getUserSession (sessionBucket st) uid = None →
  issues (createSessionReply backend (creations st)) id →
  ∃ s1 st1,
    resolveSession backend st now1 uid text1 = (Some s1, st1)
    ∧ sessionId s1 = id ∧ isReturningUser s1 = false
    ∧ (∃ s2 st2,
         resolveSession backend st1 now2 uid text2 = (Some s2, st2)
         ∧ sessionId s2 = id ∧ isReturningUser s2 = false)
    ∧ (∃ s2 st2,
         resolveSession backend (evict uid st1) now2 uid text2 = (Some s2, st2)
         ∧ sessionId s2 = id ∧ isReturningUser s2 = true).
Proof.
  intros Hmem Hdur Hc. unfold resolveSession at 1. rewrite Hmem, Hdur.
  rewrite (createADKSession_issues backend st uid id Hc).
  eexists _, _. split; [done|]. split; [done|]. split; [done|]. split.
  - unfold resolveSession. simpl. rewrite lookup_insert_eq.
    eexists _, _. done.
  - unfold resolveSession, evict. simpl.
    rewrite lookup_delete_eq. unfold getUserSession, storeUserSession. simpl.
    rewrite lookup_insert_eq. eexists _, _. done.
Qed.

End SessionDirectory.

Lemma resolveSession_twice_witness :
  ∃ s1 st1,
    resolveSession (faultyBackend 0) freshBot "t1" "u1" (Some "hi")
    = (Some s1, st1)
    ∧ sessionId s1 = "session-0" ∧ isReturningUser s1 = false
    ∧ (∃ s2 st2,
         resolveSession (faultyBackend 0) st1 "t2" "u1" (Some "again")
         = (Some s2, st2)
         ∧ sessionId s2 = "session-0" ∧ isReturningUser s2 = false)
    ∧ (∃ s2 st2,
         resolveSession (faultyBackend 0) (evict "u1" st1) "t2" "u1"
           (Some "again")
         = (Some s2, st2)
         ∧ sessionId s2 = "session-0" ∧ isReturningUser s2 = true).
Proof.
  refine (resolveSession_twice (faultyBackend 0) freshBot "t1" "t2" "u1"
            "session-0" (Some "hi") (Some "again") _ _ _).
  - done.
  - done.
  - split; [by eexists | done].
Defined.

(** C6, as stated, fails: the second of two consecutive resolutions of a
    never-seen user reports [isReturningUser = false]. *)
Lemma second_resolution_reports_new_user :
  activeSessions freshBot !! "u1" = None
  ∧ getUserSession (sessionBucket freshBot) "u1" = None
  ∧ isReturningUser
      <$> (resolveSession (faultyBackend 0) freshBot "t1" "u1" (Some "hi")).1
    = Some false
  ∧ isReturningUser
      <$> (resolveSession (faultyBackend 0)
             (resolveSession (faultyBackend 0) freshBot "t1" "u1" (Some "hi")).2
             "t2" "u1" (Some "again")).1
    = Some false
  ∧ sessionId
      <$> (resolveSession (faultyBackend 0)
             (resolveSession (faultyBackend 0) freshBot "t1" "u1" (Some "hi")).2
             "t2" "u1" (Some "again")).1
    = Some "session-0".
Proof. by vm_compute. Qed.

(** ** The media normaliser *)

(** C9.  A spreadsheet whose file name ends in [".XLSX"] is converted to
    text, yet keeps its file name: [replace('.xlsx', '.txt')] finds nothing
    to replace.  A name that contains [".docx"] before its extension has
    that first occurrence rewritten and keeps the extension. *)
Theorem processMediaMessage_extension_not_rewritten :
  (result_filename <$> okResult (processSample (documentOf XLSX_MIME "Q1.XLSX"))
   = Some "Q1.XLSX"
   ∧ result_mimeType <$> okResult (processSample (documentOf XLSX_MIME "Q1.XLSX"))
     = Some "text/plain"
   ∧ converted <$> okResult (processSample (documentOf XLSX_MIME "Q1.XLSX"))
     = Some (Some true)
   ∧ originalFormat <$> okResult (processSample (documentOf XLSX_MIME "Q1.XLSX"))
     = Some (Some "XLSX"))
  ∧ (result_filename
       <$> okResult (processSample (documentOf DOCX_MIME "notes.docx.final.docx"))
     = Some "notes.txt.final.docx"
     ∧ result_mimeType
         <$> okResult (processSample (documentOf DOCX_MIME "notes.docx.final.docx"))
       = Some "text/plain"
     ∧ converted
         <$> okResult (processSample (documentOf DOCX_MIME "notes.docx.final.docx"))
       = Some (Some true)).
Proof. repeat split; vm_compute; reflexivity. Qed.

Section MediaFacts.

Context {Worksheet : Type}.
Context (XLSX_read : list byte → option (Workbook Worksheet)).
Context (sheet_to_csv : option Worksheet → string).
Context (mammoth_extractRawText : list byte → option string).
Context (fileTypeFromBuffer : list byte → option string).
Context (JSON_stringify : ArtifactData → list byte).
Context (ADK_APP_NAME : string).

(** A declared MIME type other than the two Office types passes the bytes
    through: same MIME type, the buffer as payload, no [converted] flag. *)
Lemma processMediaMessage_pass_through (bucket : gmap string GcsObject)
    (buffer : list byte) (uuid now mime name userId : string)
    (sessionId : option string) :
  Js.truthy mime = true → Js.truthy name = true →
  mime ≠ XLSX_MIME → mime ≠ DOCX_MIME →
  ∃ result bucket',
    processMediaMessage XLSX_read sheet_to_csv mammoth_extractRawText
      fileTypeFromBuffer JSON_stringify ADK_APP_NAME bucket buffer uuid now
      (documentOf mime name) userId sessionId
    = Ok (result, bucket')
    ∧ result_filename result = name
    ∧ result_mimeType result = mime
    ∧ part_data (result_part result) = Some (Buffer buffer)
    ∧ converted result = None
    ∧ originalFormat result = None.
Proof.
  intros Hm Hn Hx Hd. unfold processMediaMessage, documentOf.
  cbn -[String.eqb XLSX_MIME DOCX_MIME saveArtifact].
  rewrite Hm, Hn. cbn -[String.eqb XLSX_MIME DOCX_MIME saveArtifact].
  rewrite ?Hm, ?Hn. cbn -[String.eqb XLSX_MIME DOCX_MIME saveArtifact].
  rewrite (proj2 (String.eqb_neq mime XLSX_MIME) Hx).
  rewrite (proj2 (String.eqb_neq mime DOCX_MIME) Hd).
  destruct (saveArtifact _ _ _ _ _ _ _ _) as [v b'] eqn:E.
  eexists _, _. done.
Qed.

(** The two Office types are converted: the result is [text/plain], flagged
    [converted], and names its source format. *)
Lemma processMediaMessage_converts (bucket : gmap string GcsObject)
    (buffer : list byte) (uuid now mime name userId : string)
    (sessionId : option string) (result : MediaResult)
    (bucket' : gmap string GcsObject) :
  mime = XLSX_MIME ∨ mime = DOCX_MIME →
  processMediaMessage XLSX_read sheet_to_csv mammoth_extractRawText
    fileTypeFromBuffer JSON_stringify ADK_APP_NAME bucket buffer uuid now
    (documentOf mime name) userId sessionId
  = Ok (result, bucket') →
  result_mimeType result = "text/plain"
  ∧ converted result = Some true
  ∧ originalFormat result = Some (if String.eqb mime XLSX_MIME then "XLSX" else "DOCX").
Proof.
  intros [-> | ->]; unfold processMediaMessage, documentOf; simpl;
    destruct (Js.truthy name); simpl.
  all: try (destruct (convertXlsxToText _ _ _); [|done]).
  all: try (destruct (convertDocxToText _ _); [|done]).
  all: unfold saveConverted;
    destruct (saveArtifact _ _ _ _ _ _ _ _) as [v b'] eqn:E;
    intros [= <- <-]; done.
Qed.

End MediaFacts.

Section SheetHeaders.

Context {Worksheet : Type}.
Context (XLSX_read : list byte → option (Workbook Worksheet)).
Context (sheet_to_csv : option Worksheet → string).

Lemma sheets_fold (workbook : Workbook Worksheet) (names : list string)
    (k : nat) (text : string) :
  foldl (λ textContent '(index, sheetName),
           let worksheet := Sheets workbook !! sheetName in
           let textContent := textContent +:+ sheetHeader index sheetName in
           let csvData := sheet_to_csv worksheet in
           textContent +:+ csvData +:+ String "010" EmptyString)
    text (imap (λ i n, ((k + i)%nat, n)) names)
  = text +:+ joinStrings
               (imap (λ i n, sheetBlock sheet_to_csv workbook (k + i) n) names).
Proof.
  revert k text. induction names as [|name names IH]; intros k text.
  - simpl. by rewrite append_nil_r.
  - rewrite !imap_cons. cbn [foldl joinStrings foldr].
    rewrite (imap_ext _ (λ i n, ((S k + i)%nat, n)))
      by (intros; unfold compose; f_equal; lia).
    rewrite (imap_ext (_ ∘ S) (λ i n, sheetBlock sheet_to_csv workbook (S k + i) n))
      by (intros; unfold compose; f_equal; lia).
    rewrite IH. fold (joinStrings
                        (imap (λ i n, sheetBlock sheet_to_csv workbook (S k + i) n)
                           names)).
    unfold sheetBlock at 2. rewrite Nat.add_0_r. by rewrite !append_assoc.
Qed.

(** A workbook with K sheets is rendered as K blocks in workbook order,
    each opened by the header line of its sheet. *)
Lemma convertXlsxToText_blocks (buffer : list byte)
    (workbook : Workbook Worksheet) :
  XLSX_read buffer = Some workbook →
  convertXlsxToText XLSX_read sheet_to_csv buffer
  = Ok (joinStrings
          (imap (sheetBlock sheet_to_csv workbook) (SheetNames workbook))).
Proof.
  intros Hread. unfold convertXlsxToText. rewrite Hread. f_equal.
  pose proof (sheets_fold workbook (SheetNames workbook) 0 EmptyString) as H.
  rewrite append_nil_l in H. exact H.
Qed.

End SheetHeaders.

(** ** File names with a version suffix *)

Lemma digitsThen_step (post : string) (seen : bool) (rest : string) :
  digitsThen post seen rest
  = (seen && String.eqb rest post)
    || match rest with
       | EmptyString => false
       | String c rest' => isDigit c && digitsThen post true rest'
       end.
Proof. by destruct rest. Qed.

(** The decimal digits of a number, followed by [post], are accepted. *)
Lemma digitsThen_digits (post : string) (d : uint) (seen : bool) :
  seen = true ∨ d ≠ Nil →
  digitsThen post seen (NilEmpty.string_of_uint d +:+ post) = true.
Proof.
  revert seen. induction d as [|d IH|d IH|d IH|d IH|d IH|d IH|d IH|d IH|d IH|d IH];
    intros seen Hs.
  1: { destruct Hs as [->|]; [|done]. simpl NilEmpty.string_of_uint.
       rewrite append_nil_l, digitsThen_step, String.eqb_refl. done. }
  all: simpl NilEmpty.string_of_uint; rewrite append_cons, digitsThen_step;
    rewrite (IH true (or_introl eq_refl));
    match goal with |- context [isDigit ?c] =>
      replace (isDigit c) with true by reflexivity
    end;
    apply orb_true_r.
Qed.

(** A character that is not a digit, too far from the end to start [post],
    makes the test fail. *)
Lemma digitsThen_stops (post : string) (x : string) (seen : bool)
    (c : ascii) (rest : string) :
  isDigit c = false →
  (String.length post ≤ String.length rest)%nat →
  digitsThen post seen (x +:+ String c rest) = false.
Proof.
  intros Hc Hlen. revert seen. induction x as [|y x IH]; intros seen.
  - rewrite append_nil_l, digitsThen_step, Hc.
    rewrite eqb_length by (simpl; lia). by destruct seen.
  - rewrite append_cons, digitsThen_step, IH.
    rewrite eqb_length.
    + by rewrite !andb_false_r.
    + simpl. rewrite string_length_append. simpl. lia.
Qed.

Lemma stripVersionSuffix_step (pre post name : string) :
  stripVersionSuffix pre post name
  = if Js.startsWith name pre
       && digitsThen post false (Js.substring (String.length pre) name)
    then EmptyString
    else match name with
         | EmptyString => EmptyString
         | String c rest => String c (stripVersionSuffix pre post rest)
         end.
Proof. by destruct name. Qed.

(** A suffix made of a two-character marker, a number and a closing text is
    cut off whole, whatever the name before it. *)
Lemma stripVersionSuffix_cut (p1 p2 : ascii) (post : string) (f : string) (n : N) :
  p1 ≠ p2 → isDigit p1 = false →
  stripVersionSuffix (String p1 (String p2 EmptyString)) post
    (f +:+ String p1 (String p2 EmptyString) +:+ Js.toString n +:+ post)
  = f.
Proof.
  intros Hne Hd. set (pre := String p1 (String p2 EmptyString)).
  induction f as [|c f IH].
  - rewrite append_nil_l, stripVersionSuffix_step.
    unfold Js.startsWith. rewrite prefix_append, substring_append.
    unfold Js.toString. rewrite digitsThen_digits; [done|].
    right. intros Hnil. apply (toString_not_empty n). unfold Js.toString.
    by rewrite Hnil.
  - rewrite append_cons, stripVersionSuffix_step, IH.
    replace (Js.startsWith _ pre && _) with false; [done|].
    symmetry. unfold Js.startsWith, pre.
    destruct f as [|c2 f].
    + rewrite append_nil_l. change (String p1 (String p2 EmptyString) +:+ ?x)
        with (String p1 (String p2 x)).
      unfold_prefix. destruct (Ascii.eqb_spec p1 c); [|done].
      destruct (Ascii.eqb_spec p2 p1); [congruence | done].
    + rewrite append_cons. simpl Js.substring.
      change (String p1 (String p2 EmptyString) +:+ ?x)
        with (String p1 (String p2 x)).
      rewrite digitsThen_stops; [apply andb_false_r | done |].
      simpl. rewrite string_length_append. lia.
Qed.

Lemma firstLoaded_elem (load : string → option Part) (candidates : list string)
    (candidate : string) :
  candidate ∈ candidates → is_Some (load candidate) →
  is_Some (firstLoaded load candidates).
Proof.
  intros Hin Hload. induction Hin as [c l|c c' l _ IH]; simpl.
  - destruct Hload as [p ->]. by eexists.
  - destruct (load c'); [by eexists | by apply IH].
Qed.

Lemma firstLoaded_found (load : string → option Part) (candidates : list string)
    (loaded : Part) :
  firstLoaded load candidates = Some loaded →
  ∃ candidate, candidate ∈ candidates ∧ load candidate = Some loaded.
Proof.
  induction candidates as [|c l IH]; [done|]. simpl.
  destruct (load c) as [p|] eqn:E.
  - intros [= ->]. exists c. split; [apply list_elem_of_here | done].
  - intros (c' & Hin & Hl)%IH. exists c'.
    split; [by apply list_elem_of_further | done].
Qed.

Lemma filenameCandidates_head (input : string) :
  head (filenameCandidates input) = Some input.
Proof. reflexivity. Qed.

Lemma filenameCandidates_stripped (input pre post filename : string) :
  (pre, post) ∈ versionSuffixes →
  stripVersionSuffix pre post input = filename →
  filename ≠ input →
  filename ∈ filenameCandidates input.
Proof.
  intros Hin <- Hne. unfold filenameCandidates. apply list_elem_of_further.
  apply list_elem_of_filter. split; [done|].
  apply list_elem_of_fmap. by exists (pre, post).
Qed.

Lemma append_longer (f s : string) : s ≠ EmptyString → f ≠ f +:+ s.
Proof.
  intros Hs Heq. apply (f_equal String.length) in Heq.
  rewrite string_length_append in Heq. destruct s; [done|]. simpl in Heq. lia.
Qed.

Lemma uint_nil_or (d : uint) : d = Nil ∨ d ≠ Nil.
Proof. destruct d; [by left | right; discriminate ..]. Qed.

(** The digits of a number end with a digit. *)
Lemma string_of_uint_last (d : uint) :
  d ≠ Nil →
  ∃ y c, NilEmpty.string_of_uint d = y +:+ String c EmptyString
         ∧ isDigit c = true.
Proof.
  induction d as [|d IH|d IH|d IH|d IH|d IH|d IH|d IH|d IH|d IH|d IH];
    intros Hd; [done|..].
  all: simpl NilEmpty.string_of_uint;
    destruct (uint_nil_or d) as [->|Hne];
    [ eexists EmptyString, _; split; reflexivity
    | destruct (IH Hne) as (y & c & -> & Hc);
      eexists (String _ y), c; split; [reflexivity | exact Hc] ].
Qed.

Lemma toString_last (n : N) :
  ∃ y c, Js.toString n = y +:+ String c EmptyString ∧ isDigit c = true.
Proof.
  unfold Js.toString. apply string_of_uint_last. intros Hnil.
  apply (toString_not_empty n). unfold Js.toString. by rewrite Hnil.
Qed.

(** The end of a string is the end of what [substring] leaves of it. *)
Lemma substring_last (k : nat) (name : string) (c : ascii) :
  Js.substring k (name +:+ String c EmptyString) = EmptyString
  ∨ ∃ y, Js.substring k (name +:+ String c EmptyString)
         = y +:+ String c EmptyString.
Proof.
  revert name. induction k as [|k IH]; intros name.
  - right. by exists name.
  - destruct name as [|a name]; [|rewrite append_cons; apply IH].
    rewrite append_nil_l. destruct k; by left.
Qed.

(** A suffix pattern that ends with the number does not match a name that
    ends with something else than a digit. *)
Lemma digitsThen_last_not_digit (seen : bool) (y : string) (c : ascii) :
  isDigit c = false →
  digitsThen EmptyString seen (y +:+ String c EmptyString) = false.
Proof. intros Hc. by apply digitsThen_stops. Qed.

(** A suffix pattern that ends with a closing character does not match a
    name that ends with another character. *)
Lemma digitsThen_last_other (close : ascii) (seen : bool) (y : string)
    (c : ascii) :
  c ≠ close →
  digitsThen (String close EmptyString) seen (y +:+ String c EmptyString)
  = false.
Proof.
  intros Hc. revert seen. induction y as [|a y IH]; intros seen.
  - rewrite append_nil_l, digitsThen_step.
    change (digitsThen (String close EmptyString) true EmptyString) with false.
    rewrite andb_false_r, orb_false_r.
    rewrite (proj2 (String.eqb_neq (String c EmptyString)
                      (String close EmptyString))) by congruence.
    apply andb_false_r.
  - rewrite append_cons, digitsThen_step, IH.
    rewrite eqb_length.
    + by rewrite !andb_false_r.
    + simpl. rewrite string_length_append. simpl. lia.
Qed.

Lemma digitsThen_nil (post : string) : digitsThen post false EmptyString = false.
Proof. reflexivity. Qed.

(** A pattern whose test fails on every end of a name ending with [c] leaves
    the name as it is. *)
Lemma stripVersionSuffix_last (p1 p2 : ascii) (post : string) (c : ascii)
    (name : string) :
  (∀ seen y, digitsThen post seen (y +:+ String c EmptyString) = false) →
  stripVersionSuffix (String p1 (String p2 EmptyString)) post
    (name +:+ String c EmptyString)
  = name +:+ String c EmptyString.
Proof.
  intros Hfails.
  assert (Htest : ∀ name,
    Js.startsWith (name +:+ String c EmptyString)
      (String p1 (String p2 EmptyString))
    && digitsThen post false
         (Js.substring 2 (name +:+ String c EmptyString)) = false).
  { intros name'.
    destruct (substring_last 2 name' c) as [->|[y ->]].
    - by rewrite digitsThen_nil, andb_false_r.
    - by rewrite Hfails, andb_false_r. }
  induction name as [|a name IH].
  - rewrite append_nil_l, stripVersionSuffix_step.
    unfold Js.startsWith. by unfold_prefix; destruct (Ascii.eqb p1 c).
  - rewrite stripVersionSuffix_step.
    change (String.length (String p1 (String p2 EmptyString))) with 2%nat.
    rewrite Htest. rewrite append_cons. by rewrite IH.
Qed.

(** A pattern that starts with something else than a digit leaves the digits
    of a number as they are. *)
Lemma stripVersionSuffix_digits (q1 q2 : ascii) (post : string) (d : uint) :
  isDigit q1 = false →
  stripVersionSuffix (String q1 (String q2 EmptyString)) post
    (NilEmpty.string_of_uint d)
  = NilEmpty.string_of_uint d.
Proof.
  intros Hq.
  induction d as [|d IH|d IH|d IH|d IH|d IH|d IH|d IH|d IH|d IH|d IH];
    [done|..].
  all: simpl NilEmpty.string_of_uint; rewrite stripVersionSuffix_step;
    unfold Js.startsWith; unfold_prefix;
    match goal with |- context [Ascii.eqb ?q ?c] =>
      destruct (Ascii.eqb_spec q c) as [->|_]; [discriminate Hq|]
    end;
    cbn [andb]; by rewrite IH.
Qed.

(** A pattern with another opening character than the one of the suffix a
    name carries leaves the name as it is. *)
Lemma stripVersionSuffix_other (p1 q1 : ascii) (f : string) (n : N) :
  p1 ≠ q1 → isDigit p1 = false → isDigit q1 = false → q1 ≠ "v"%char →
  stripVersionSuffix (String q1 (String "v" EmptyString)) EmptyString
    (f +:+ String p1 (String "v" EmptyString) +:+ Js.toString n)
  = f +:+ String p1 (String "v" EmptyString) +:+ Js.toString n.
Proof.
  intros Hne Hp Hq Hv.
  change (String p1 (String "v" EmptyString) +:+ Js.toString n)
    with (String p1 (String "v" (Js.toString n))).
  induction f as [|c f IH].
  - rewrite append_nil_l, stripVersionSuffix_step.
    unfold Js.startsWith. unfold_prefix.
    rewrite (proj2 (Ascii.eqb_neq q1 p1)) by congruence. cbn [andb].
    f_equal. rewrite stripVersionSuffix_step. unfold Js.startsWith.
    unfold_prefix. rewrite (proj2 (Ascii.eqb_neq q1 "v")) by done.
    cbn [andb]. f_equal. by apply stripVersionSuffix_digits.
  - rewrite append_cons, stripVersionSuffix_step, IH.
    replace (_ && _) with false; [done|]. symmetry.
    change (String.length (String q1 (String "v" EmptyString))) with 2%nat.
    destruct f as [|c2 f].
    + rewrite append_nil_l. cbn [Js.substring].
      pose proof (digitsThen_stops EmptyString EmptyString false "v"
                    (Js.toString n) eq_refl (Nat.le_0_l _)) as Hstop.
      rewrite append_nil_l in Hstop. rewrite Hstop. apply andb_false_r.
    + rewrite append_cons. cbn [Js.substring].
      rewrite (digitsThen_stops EmptyString f false p1
                 (String "v" (Js.toString n)));
        [apply andb_false_r | done | simpl; lia].
Qed.

(** The candidates of a name that carries one of the known suffixes: the
    name itself, then the name without the suffix; the other two patterns
    find nothing to strip. *)
Lemma filenameCandidates_suffixed (filename : string) (n : N) (input : string) :
  input ∈ [filename +:+ " v" +:+ Js.toString n;
           filename +:+ "_v" +:+ Js.toString n;
           filename +:+ " (" +:+ Js.toString n +:+ ")"] →
  filenameCandidates input = [input; filename].
Proof.
  intros Hin.
  destruct (toString_last n) as (y & c & Hts & Hc).
  assert (Hclose : c ≠ ")"%char) by (intros ->; discriminate Hc).
  assert (Hsame : ∀ l : list string,
            filter (λ candidate, candidate ≠ input) (input :: l)
            = filter (λ candidate, candidate ≠ input) l).
  { intros l. apply filter_cons_False. intros H. by apply H. }
  unfold filenameCandidates, versionSuffixes. cbn [fmap list_fmap].
  rewrite !elem_of_cons, elem_of_nil in Hin.
  destruct Hin as [->|[->|[->|[]]]].
  - rewrite <- (append_nil_r (Js.toString n)) at 2.
    rewrite (stripVersionSuffix_cut " " "v") by done.
    rewrite (stripVersionSuffix_other " " "_") by done.
    assert (Hparen :
      stripVersionSuffix " (" ")" (filename +:+ " v" +:+ Js.toString n)
      = filename +:+ " v" +:+ Js.toString n).
    { rewrite Hts, <- !append_assoc. apply stripVersionSuffix_last.
      intros seen z. by apply digitsThen_last_other. }
    rewrite Hparen.
    rewrite filter_cons_True by (by apply append_longer).
    by rewrite !Hsame.
  - rewrite (stripVersionSuffix_other "_" " ") by done.
    rewrite <- (append_nil_r (Js.toString n)) at 3.
    rewrite (stripVersionSuffix_cut "_" "v") by done.
    assert (Hparen :
      stripVersionSuffix " (" ")" (filename +:+ "_v" +:+ Js.toString n)
      = filename +:+ "_v" +:+ Js.toString n).
    { rewrite Hts, <- !append_assoc. apply stripVersionSuffix_last.
      intros seen z. by apply digitsThen_last_other. }
    rewrite Hparen, Hsame.
    rewrite filter_cons_True by (by apply append_longer).
    by rewrite Hsame.
  - assert (Hdigits : ∀ q1,
      stripVersionSuffix (String q1 "v") EmptyString
        (filename +:+ " (" +:+ Js.toString n +:+ ")")
      = filename +:+ " (" +:+ Js.toString n +:+ ")").
    { intros q1. rewrite <- !append_assoc. apply stripVersionSuffix_last.
      intros seen z. by apply digitsThen_last_not_digit. }
    rewrite !Hdigits, !Hsame.
    rewrite (stripVersionSuffix_cut " " "(") by done.
    by rewrite filter_cons_True by (by apply append_longer).
Qed.

Section VersionFallbackFacts.

Context (JSON_parse : list byte → option ArtifactData).

(** The latest version of a file name is what [loadArtifact] reads when it
    is given no version. *)
Lemma loadArtifact_reads_latest (bucket : gmap string GcsObject)
    (app user filename : string) (sessionId : option string)
    (o : GcsObject) (document : ArtifactData) :
  listVersions bucket app user filename sessionId ≠ [] →
  bucket !! (getArtifactPath app user filename sessionId +:+ "/v"
             +:+ Js.toString
                   (Js.Math_max (listVersions bucket app user filename sessionId)))
  = Some o →
  JSON_parse (content o) = Some document →
  loadArtifact JSON_parse bucket app user filename None sessionId
  = Some (ArtifactAdmin.documentPart document).
Proof.
  intros Hlisted Hobject Hparse. unfold loadArtifact.
  destruct (listVersions bucket app user filename sessionId) as [|v vs];
    [done|].
  rewrite bool_decide_false by done. cbn [mbind option_bind].
  rewrite Hobject. cbn [mbind option_bind]. by rewrite Hparse.
Qed.

(** C7.  The fallback load tries the name as given first and then the name
    with each known version suffix cut off, and stops at the first attempt
    that succeeds.  When the latest version of [filename] is stored, the
    load of [filename] returns the part of that document.  For [filename]
    followed by [" v<N>"], ["_v<N>"] or [" (<N>)"] the candidates are the
    name as given and then [filename], and the load succeeds: it returns the
    artifact stored under the name as given if there is one, and the part
    of the stored document of [filename] otherwise. *)
Theorem loadByFilenameWithVersionFallback_variants
    (bucket : gmap string GcsObject) (app user filename : string)
    (sessionId : option string) (suffix : N) (o : GcsObject)
    (document : ArtifactData) :
  listVersions bucket app user filename sessionId ≠ [] →
  bucket !! (getArtifactPath app user filename sessionId +:+ "/v"
             +:+ Js.toString
                   (Js.Math_max (listVersions bucket app user filename sessionId)))
  = Some o →
  JSON_parse (content o) = Some document →
  head (filenameCandidates filename) = Some filename
  ∧ loadByFilenameWithVersionFallback JSON_parse bucket app user filename
      sessionId
    = inl (ArtifactAdmin.documentPart document)
  ∧ ∀ input,
      input ∈ [filename +:+ " v" +:+ Js.toString suffix;
               filename +:+ "_v" +:+ Js.toString suffix;
               filename +:+ " (" +:+ Js.toString suffix +:+ ")"] →
      filenameCandidates input = [input; filename]
      ∧ loadByFilenameWithVersionFallback JSON_parse bucket app user input
          sessionId
        = inl (default (ArtifactAdmin.documentPart document)
                 (loadArtifact JSON_parse bucket app user input None
                    sessionId)).
Proof.
  intros Hlisted Hobject Hparse.
  pose proof (loadArtifact_reads_latest bucket app user filename sessionId o
                document Hlisted Hobject Hparse) as Hload.
  split; [apply filenameCandidates_head|]. split.
  - unfold loadByFilenameWithVersionFallback, filenameCandidates.
    cbn [firstLoaded]. by rewrite Hload.
  - intros input Hin.
    pose proof (filenameCandidates_suffixed filename suffix input Hin) as Hcs.
    split; [exact Hcs|].
    unfold loadByFilenameWithVersionFallback. rewrite Hcs.
    cbn [firstLoaded].
    destruct (loadArtifact JSON_parse bucket app user input None sessionId);
      [done|].
    by rewrite Hload.
Qed.

End VersionFallbackFacts.

Lemma loadByFilenameWithVersionFallback_variants_witness :
  listVersions threeReportSaves "app" "u1" "report.pdf" None = [1; 2; 3]
  ∧ ∀ input,
      input ∈ ["report.pdf"; "report.pdf v3"; "report.pdf_v3"; "report.pdf (3)"] →
      loadByFilenameWithVersionFallback sampleParse threeReportSaves "app"
        "u1" input None
      = inl (ArtifactAdmin.documentPart
               {| mimeType := "application/pdf";
                  data := Some (Buffer ["c"%byte]);
                  timestamp := EmptyString; filename := EmptyString |}).
Proof.
  split; [by vm_compute|]. intros input Hin.
  destruct (loadByFilenameWithVersionFallback_variants
              sampleParse threeReportSaves "app" "u1" "report.pdf" None 3
              {| content := ["c"%byte];
                 contentType := "application/json";
                 customMetadata :=
                   [("artifactVersion", "3");
                    ("originalMimeType", "application/pdf");
                    ("filename", "report.pdf")] |}
              {| mimeType := "application/pdf";
                 data := Some (Buffer ["c"%byte]);
                 timestamp := EmptyString; filename := EmptyString |})
    as (_ & Hplain & Hsuffixed).
  - by vm_compute.
  - by vm_compute.
  - by vm_compute.
  - apply elem_of_cons in Hin as [->|Hin]; [exact Hplain|].
    destruct (Hsuffixed input Hin) as [_ ->]. f_equal.
    rewrite !elem_of_cons, elem_of_nil in Hin.
    destruct Hin as [->|[->|[->|[]]]]; by vm_compute.
Defined.


(** [loadArtifact] of [index.js] takes the file name as it is given: with a
    version suffix it finds nothing. *)
Remark loadArtifact_strips_nothing :
  loadArtifact sampleParse threeReportSaves "app" "u1" "report.pdf v3" None None
  = None.
Proof. by vm_compute. Qed.

(* ================================================================== *)
(** * Further properties of the code *)

Import ArtifactAdmin.

(** ** The artifact store: writes, reads and deletion *)

Section ArtifactStore.

Context (JSON_stringify : ArtifactData → list byte).
Context (JSON_parse : list byte → option ArtifactData).

Lemma saveArtifact_bucket (b : gmap string GcsObject)
    (now app user file : string) (part : Part) (sid : option string) :
  ∃ o,
    content o = JSON_stringify (artifactDocument now file part)
    ∧ (saveArtifact JSON_stringify b now app user file part sid).2
      = <[getArtifactPath app user file sid +:+ "/v"
          +:+ Js.toString
                (saveArtifact JSON_stringify b now app user file part sid).1 := o]> b.
Proof. eexists. split; [|reflexivity]. reflexivity. Qed.

Lemma saveArtifact_lookup_old (b : gmap string GcsObject)
    (now app user file : string) (part : Part) (sid : option string)
    (name : string) (o : GcsObject) :
  Js.Math_max (listVersions b app user file sid) ≤ Js.MAX_SAFE_INTEGER →
  b !! name = Some o →
  (saveArtifact JSON_stringify b now app user file part sid).2 !! name = Some o.
Proof.
  intros Hsafe Hname.
  pose proof (saveArtifact_fresh_path JSON_stringify b now app user file part
                sid Hsafe) as Hfresh.
  destruct (saveArtifact_bucket b now app user file part sid) as (o' & _ & ->).
  rewrite lookup_insert_ne; [done | congruence].
Qed.

(** X1. With a listing that answers and whose versions a Number counts
    exactly (none above [MAX_SAFE_INTEGER]), [saveArtifact] does not
    overwrite: the name it writes to held no object before, and every object
    of the bucket is still there, unchanged, afterwards.  A save whose
    listing fails writes version 1, whatever the bucket holds. *)
Theorem saveArtifact_keeps_objects (b : gmap string GcsObject)
    (now app user file : string) (part : Part) (sid : option string)
    (name : string) (o : GcsObject) :
  Js.Math_max (listVersions b app user file sid) ≤ Js.MAX_SAFE_INTEGER →
  b !! name = Some o →
  (saveArtifact_try JSON_stringify true b now app user file part sid).2 !! name
  = Some o
  ∧ b !! (getArtifactPath app user file sid +:+ "/v"
          +:+ Js.toString
                (saveArtifact_try JSON_stringify true b now app user file part
                   sid).1)
    = None
  ∧ (saveArtifact_try JSON_stringify false b now app user file part sid).1 = 1
  ∧ content <$>
      (saveArtifact_try JSON_stringify false b now app user file part sid).2
        !! (getArtifactPath app user file sid +:+ "/v1")
    = Some (JSON_stringify (artifactDocument now file part)).
Proof.
  intros Hsafe Hname. split; [|split; [|split]].
  - by apply saveArtifact_lookup_old.
  - by apply saveArtifact_fresh_path.
  - reflexivity.
  - unfold saveArtifact_try, saveArtifactWith. cbn [listVersions_try snd].
    change (bool_decide (0 < length (@nil N))%nat) with false. cbn iota.
    change (Js.toString 1) with "1".
    by rewrite lookup_insert_eq.
Qed.

Lemma loadArtifact_version (b : gmap string GcsObject)
    (app user file : string) (sid : option string) (v : N) :
  v ≠ 0 →
  loadArtifact JSON_parse b app user file (Some v) sid
  = b !! (getArtifactPath app user file sid +:+ "/v" +:+ Js.toString v)
    ≫= λ o, documentPart <$> JSON_parse (content o).
Proof.
  intros Hv. unfold loadArtifact. rewrite bool_decide_false by done.
  cbn [mbind option_bind].
  destruct (b !! _) as [o|]; [|done]. cbn [mbind option_bind].
  by destruct (JSON_parse _).
Qed.

Lemma loadArtifact_latest (b : gmap string GcsObject)
    (app user file : string) (sid : option string) :
  loadArtifact JSON_parse b app user file None sid
  = match listVersions b app user file sid with
    | [] => None
    | v :: vs =>
        b !! (getArtifactPath app user file sid +:+ "/v"
              +:+ Js.toString (Js.Math_max (v :: vs)))
        ≫= λ o, documentPart <$> JSON_parse (content o)
    end.
Proof.
  unfold loadArtifact.
  destruct (listVersions b app user file sid) as [|v vs]; [done|].
  rewrite bool_decide_false by done. cbn [mbind option_bind].
  destruct (b !! _) as [o|]; [|done]. cbn [mbind option_bind].
  by destruct (JSON_parse _).
Qed.

Lemma loadArtifact_zero (b : gmap string GcsObject)
    (app user file : string) (sid : option string) :
  loadArtifact JSON_parse b app user file (Some 0) sid
  = loadArtifact JSON_parse b app user file None sid.
Proof. reflexivity. Qed.

Lemma loadArtifact_saved (b : gmap string GcsObject)
    (now app user file : string) (part : Part) (sid : option string) :
  loadArtifact JSON_parse
    (saveArtifact JSON_stringify b now app user file part sid).2
    app user file None sid
  = documentPart <$> JSON_parse (JSON_stringify (artifactDocument now file part))
  ∧ loadArtifact JSON_parse
      (saveArtifact JSON_stringify b now app user file part sid).2
      app user file
      (Some (saveArtifact JSON_stringify b now app user file part sid).1) sid
    = documentPart <$> JSON_parse (JSON_stringify (artifactDocument now file part)).
Proof.
  pose proof (saveArtifact_latest JSON_stringify b now app user file part sid)
    as Hmax.
  pose proof (saveArtifact_listed JSON_stringify b now app user file part sid)
    as Hlisted.
  pose proof (saveArtifact_version_not_zero JSON_stringify b now app user file
                part sid) as Hv.
  destruct (saveArtifact_bucket b now app user file part sid) as (o & Ho & Hb).
  set (saved := saveArtifact JSON_stringify b now app user file part sid) in *.
  assert (Hlookup : saved.2 !! (getArtifactPath app user file sid +:+ "/v"
                                +:+ Js.toString saved.1) = Some o).
  { rewrite Hb. apply lookup_insert_eq. }
  split.
  - rewrite loadArtifact_latest.
    destruct (listVersions saved.2 app user file sid) as [|v vs]; [done|].
    rewrite Hmax, Hlookup. cbn [mbind option_bind]. by rewrite Ho.
  - rewrite loadArtifact_version by done.
    rewrite Hlookup. cbn [mbind option_bind]. by rewrite Ho.
Qed.

(** X2. What was saved last is what loads: after a [saveArtifact] whose
    listing answers, [loadArtifact] of the same key, without a version or
    with the version just returned, reads the object just written and yields
    the part made of what [JSON.parse] reads in the document that was
    serialised. *)
Theorem loadArtifact_after_saveArtifact (b : gmap string GcsObject)
    (now app user file : string) (part : Part) (sid : option string)
    (document : ArtifactData) :
  JSON_parse (JSON_stringify (artifactDocument now file part))
  = Some document →
  loadArtifact JSON_parse
    (saveArtifact JSON_stringify b now app user file part sid).2
    app user file None sid
  = Some (documentPart document)
  ∧ loadArtifact JSON_parse
      (saveArtifact JSON_stringify b now app user file part sid).2
      app user file
      (Some (saveArtifact JSON_stringify b now app user file part sid).1) sid
    = Some (documentPart document).
Proof.
  intros Hparse.
  destruct (loadArtifact_saved b now app user file part sid) as [-> ->].
  by rewrite Hparse.
Qed.

(** X3. A version that loads keeps loading the same part after a save under
    any key, when that save finds its listing answered with versions a
    Number counts exactly (none above [MAX_SAFE_INTEGER]). *)
Theorem loadArtifact_version_stable (b : gmap string GcsObject)
    (app user file : string) (sid : option string) (v : N) (loaded : Part)
    (now app' user' file' : string) (part : Part) (sid' : option string) :
  Js.Math_max (listVersions b app' user' file' sid') ≤ Js.MAX_SAFE_INTEGER →
  v ≠ 0 →
  loadArtifact JSON_parse b app user file (Some v) sid = Some loaded →
  loadArtifact JSON_parse
    (saveArtifact_try JSON_stringify true b now app' user' file' part sid').2
    app user file (Some v) sid
  = Some loaded.
Proof.
  intros Hsafe Hv. rewrite !loadArtifact_version by done.
  destruct (b !! _) as [o|] eqn:Ho; [|done].
  change (saveArtifact_try JSON_stringify true b now app' user' file' part sid')
    with (saveArtifact JSON_stringify b now app' user' file' part sid').
  by rewrite (saveArtifact_lookup_old b now app' user' file' part sid' _ o
                Hsafe Ho).
Qed.

End ArtifactStore.

Lemma saveArtifact_keeps_objects_witness :
  (saveArtifact_try sampleStringify true
     (<["app/u1/shared/a.pdf/v1" := rawObject "application/json" ["a"%byte]]> ∅)
     "t2" "app" "u1" "a.pdf" (bytesPart "application/pdf" ["b"%byte]) None).2
    !! "app/u1/shared/a.pdf/v1"
  = Some (rawObject "application/json" ["a"%byte])
  ∧ (<["app/u1/shared/a.pdf/v1" := rawObject "application/json" ["a"%byte]]> ∅
       : gmap string GcsObject) !! "app/u1/shared/a.pdf/v2" = None
  ∧ (saveArtifact_try sampleStringify false
       (<["app/u1/shared/a.pdf/v1" := rawObject "application/json" ["a"%byte]]> ∅)
       "t2" "app" "u1" "a.pdf" (bytesPart "application/pdf" ["b"%byte]) None).1
    = 1
  ∧ content <$>
      (saveArtifact_try sampleStringify false
         (<["app/u1/shared/a.pdf/v1" :=
              rawObject "application/json" ["a"%byte]]> ∅)
         "t2" "app" "u1" "a.pdf" (bytesPart "application/pdf" ["b"%byte])
         None).2 !! "app/u1/shared/a.pdf/v1"
    = Some ["b"%byte].
Proof.
  refine (saveArtifact_keeps_objects sampleStringify
            (<["app/u1/shared/a.pdf/v1" :=
                 rawObject "application/json" ["a"%byte]]> ∅)
            "t2" "app" "u1" "a.pdf" (bytesPart "application/pdf" ["b"%byte]) None
            "app/u1/shared/a.pdf/v1" (rawObject "application/json" ["a"%byte])
            _ eq_refl).
  vm_compute. discriminate.
Defined.

Lemma loadArtifact_after_saveArtifact_witness :
  loadArtifact sampleParse
    (saveArtifact sampleStringify threeReportSaves "t4" "app" "u1" "report.pdf"
       (bytesPart "application/pdf" ["d"%byte]) None).2
    "app" "u1" "report.pdf" None None
  = Some (documentPart
            {| mimeType := "application/pdf"; data := Some (Buffer ["d"%byte]);
               timestamp := EmptyString; filename := EmptyString |})
  ∧ loadArtifact sampleParse
      (saveArtifact sampleStringify threeReportSaves "t4" "app" "u1"
         "report.pdf" (bytesPart "application/pdf" ["d"%byte]) None).2
      "app" "u1" "report.pdf"
      (Some (saveArtifact sampleStringify threeReportSaves "t4" "app" "u1"
               "report.pdf" (bytesPart "application/pdf" ["d"%byte]) None).1)
      None
    = Some (documentPart
              {| mimeType := "application/pdf";
                 data := Some (Buffer ["d"%byte]);
                 timestamp := EmptyString; filename := EmptyString |}).
Proof.
  exact (loadArtifact_after_saveArtifact sampleStringify sampleParse
           threeReportSaves "t4" "app" "u1" "report.pdf"
           (bytesPart "application/pdf" ["d"%byte]) None _ eq_refl).
Defined.

Lemma loadArtifact_version_stable_witness :
  loadArtifact sampleParse
    (saveArtifact_try sampleStringify true
       (<["app/u1/shared/a.pdf/v1" :=
            rawObject "application/json" ["a"%byte]]> ∅)
       "t2" "app" "u1" "a.pdf" (bytesPart "application/pdf" ["b"%byte]) None).2
    "app" "u1" "a.pdf" (Some 1) None
  = Some (documentPart
            {| mimeType := "application/pdf"; data := Some (Buffer ["a"%byte]);
               timestamp := EmptyString; filename := EmptyString |}).
Proof.
  apply (loadArtifact_version_stable sampleStringify sampleParse
           (<["app/u1/shared/a.pdf/v1" :=
                rawObject "application/json" ["a"%byte]]> ∅)
           "app" "u1" "a.pdf" None 1 _
           "t2" "app" "u1" "a.pdf" (bytesPart "application/pdf" ["b"%byte]) None).
  - vm_compute. discriminate.
  - lia.
  - vm_compute. reflexivity.
Defined.


(** ** Deletion *)

Lemma prefix_append_l (a c s : string) :
  String.prefix (a +:+ c) s = true → String.prefix a s = true.
Proof.
  revert s. induction a as [|x a IH]; intros s; [by rewrite prefix_nil|].
  rewrite append_cons. destruct s as [|y s]; unfold_prefix; [done|].
  destruct (Ascii.eqb x y); [apply IH | done].
Qed.

Lemma prefix_append_same (a x y : string) :
  String.prefix (a +:+ x) (a +:+ y) = String.prefix x y.
Proof.
  induction a as [|c a IH]; [by rewrite !append_nil_l|].
  rewrite !append_cons. unfold_prefix. by rewrite Ascii.eqb_refl.
Qed.

Lemma prefix_segment (s t x y : string) :
  noSlash s → noSlash t →
  String.prefix (t +:+ "/" +:+ x) (s +:+ "/" +:+ y) = true → s = t.
Proof.
  revert s. induction t as [|c t IH]; intros s Hs Ht.
  - rewrite append_nil_l. destruct s as [|d s]; [done|].
    apply noSlash_cons in Hs as [Hd _].
    rewrite !append_cons. unfold_prefix.
    destruct (Ascii.eqb_spec "/" d) as [<-|]; done.
  - apply noSlash_cons in Ht as [Hc Ht].
    destruct s as [|d s].
    + rewrite append_nil_l, !append_cons. unfold_prefix.
      destruct (Ascii.eqb_spec c "/") as [->|]; done.
    + apply noSlash_cons in Hs as [_ Hs].
      rewrite !append_cons. unfold_prefix.
      destruct (Ascii.eqb_spec c d) as [->|]; [|done].
      intros Hp. f_equal. by apply IH.
Qed.

Lemma delete_all_lookup {A} (b : gmap string A) (names : list string)
    (name : string) :
  foldl (λ b name, delete name b) b names !! name
  = if decide (name ∈ names) then None else b !! name.
Proof.
  revert b. induction names as [|n names IH]; intros b.
  - destruct (decide _) as [Hin|]; [by apply elem_of_nil in Hin | done].
  - cbn [foldl]. rewrite IH. destruct (decide (name ∈ names)) as [Hin|Hout].
    + rewrite decide_True; [done | by right].
    + destruct (decide (name = n)) as [->|Hne].
      * rewrite decide_True by left. apply lookup_delete_eq.
      * rewrite decide_False by (rewrite elem_of_cons; tauto).
        by rewrite lookup_delete_ne.
Qed.

Lemma deleteArtifact_lookup (b : gmap string GcsObject)
    (app user file name : string) :
  deleteArtifact b app user file !! name
  = if Js.startsWith name (getArtifactPath app user file None +:+ "/")
    then None else b !! name.
Proof.
  unfold deleteArtifact. rewrite delete_all_lookup.
  destruct (Js.startsWith name _) eqn:Hp.
  - destruct (b !! name) as [o|] eqn:Ho.
    + rewrite decide_True; [done|]. apply getFiles_elem. eauto.
    + by destruct (decide _).
  - rewrite decide_False; [done|]. intros [_ Hin]%getFiles_elem. congruence.
Qed.

Section Deletion.

Context (JSON_stringify : ArtifactData → list byte).
Context (JSON_parse : list byte → option ArtifactData).

Lemma deleteArtifact_listVersions (b : gmap string GcsObject)
    (app user file : string) :
  listVersions (deleteArtifact b app user file) app user file None = [].
Proof.
  unfold listVersions.
  assert (Hnone : Gcs.getFiles (deleteArtifact b app user file)
            (getArtifactPath app user file None +:+ "/v") = []).
  { apply elem_of_nil_inv. intros name [[o Ho] Hp]%getFiles_elem.
    rewrite deleteArtifact_lookup in Ho.
    replace (getArtifactPath app user file None +:+ "/v")
      with ((getArtifactPath app user file None +:+ "/") +:+ "v") in Hp
      by (by rewrite append_assoc).
    unfold Js.startsWith in *. apply prefix_append_l in Hp.
    by rewrite Hp in Ho. }
  by rewrite Hnone.
Qed.

(** X4. [deleteArtifact] removes every version of the artifact in the
    ['shared'] session: afterwards no version is listed, nothing loads, by any
    version number, and the next [saveArtifact] of that name starts again at
    version 1. *)
Theorem deleteArtifact_removes_shared_versions (b : gmap string GcsObject)
    (app user file now : string) (part : Part) (version : option N) :
  listVersions (deleteArtifact b app user file) app user file None = []
  ∧ loadArtifact JSON_parse (deleteArtifact b app user file)
      app user file version None = None
  ∧ (saveArtifact JSON_stringify (deleteArtifact b app user file)
       now app user file part None).1 = 1.
Proof.
  pose proof (deleteArtifact_listVersions b app user file) as Hnone.
  split; [done|]. split.
  - assert (Hlatest : loadArtifact JSON_parse (deleteArtifact b app user file)
                        app user file None None = None).
    { by rewrite loadArtifact_latest, Hnone. }
    destruct version as [v|]; [|done].
    destruct (decide (v = 0)) as [->|Hv]; [done|].
    rewrite loadArtifact_version by done.
    rewrite deleteArtifact_lookup.
    unfold Js.startsWith.
    replace (getArtifactPath app user file None +:+ "/v" +:+ Js.toString v)
      with ((getArtifactPath app user file None +:+ "/")
            +:+ "v" +:+ Js.toString v)
      by (by rewrite append_assoc).
    by rewrite prefix_append.
  - by rewrite saveArtifact_version, Hnone.
Qed.

Lemma session_paths_apart (app user file file' rest : string)
    (sid sid' : option string) :
  noSlash (default "shared" sid) → noSlash (default "shared" sid') →
  default "shared" sid ≠ default "shared" sid' →
  Js.startsWith (getArtifactPath app user file' sid +:+ rest)
    (getArtifactPath app user file sid' +:+ "/") = false.
Proof.
  intros Hs Ht Hne. apply not_true_is_false. intros Hp. apply Hne.
  unfold Js.startsWith, getArtifactPath in Hp.
  rewrite !append_assoc in Hp.
  rewrite !prefix_append_same in Hp.
  by apply prefix_segment in Hp.
Qed.

Lemma prefix_refl (s : string) : String.prefix s s = true.
Proof. rewrite <- (append_nil_r s) at 2. apply prefix_append. Qed.

Lemma session_names_apart (app user file file' rest rest' : string)
    (sid sid' : option string) :
  noSlash (default "shared" sid) → noSlash (default "shared" sid') →
  default "shared" sid ≠ default "shared" sid' →
  getArtifactPath app user file' sid +:+ rest
  ≠ getArtifactPath app user file sid' +:+ rest'.
Proof.
  intros Hs Ht Hne Heq. apply Hne.
  unfold getArtifactPath in Heq. rewrite !append_assoc in Heq.
  pose proof (prefix_refl (app +:+ "/" +:+ user +:+ "/"
                           +:+ default "shared" sid' +:+ "/" +:+ file
                           +:+ rest')) as Hp.
  rewrite <- Heq in Hp at 2.
  rewrite !prefix_append_same in Hp.
  by apply prefix_segment in Hp.
Qed.

Lemma prefix_split (p s : string) :
  String.prefix p s = true → ∃ rest, s = p +:+ rest.
Proof.
  revert s. induction p as [|c p IH]; intros s.
  - intros _. exists s. by rewrite append_nil_l.
  - destruct s as [|d s]; unfold_prefix; [done|].
    destruct (Ascii.eqb_spec c d) as [->|]; [|done].
    intros [rest ->]%IH. exists rest. by rewrite append_cons.
Qed.

Lemma getFiles_agree {A} (b1 b2 : gmap string A) (prefix : string) :
  (∀ name, Js.startsWith name prefix = true → b1 !! name = b2 !! name) →
  Gcs.getFiles b1 prefix ≡ₚ Gcs.getFiles b2 prefix.
Proof.
  intros Hagree. apply NoDup_Permutation.
  - unfold Gcs.getFiles. apply NoDup_filter, NoDup_fst_map_to_list.
  - unfold Gcs.getFiles. apply NoDup_filter, NoDup_fst_map_to_list.
  - intros name. rewrite !getFiles_elem.
    split; intros [Hsome Hp]; (split; [|done]).
    + by rewrite <- (Hagree name Hp).
    + by rewrite (Hagree name Hp).
Qed.

Lemma listVersions_agree (b1 b2 : gmap string GcsObject)
    (app user file : string) (sid : option string) :
  (∀ rest, b1 !! (getArtifactPath app user file sid +:+ rest)
           = b2 !! (getArtifactPath app user file sid +:+ rest)) →
  listVersions b1 app user file sid = listVersions b2 app user file sid.
Proof.
  intros Hsame. unfold listVersions.
  apply (StronglySorted_unique N.le).
  - apply (StronglySorted_merge_sort N.le).
  - apply (StronglySorted_merge_sort N.le).
  - rewrite !merge_sort_Permutation. f_equiv.
    apply getFiles_agree. intros name [rest ->]%prefix_split.
    rewrite append_assoc. apply Hsame.
Qed.

Lemma loadArtifact_agree (b1 b2 : gmap string GcsObject)
    (app user file : string) (version : option N) (sid : option string) :
  (∀ rest, b1 !! (getArtifactPath app user file sid +:+ rest)
           = b2 !! (getArtifactPath app user file sid +:+ rest)) →
  loadArtifact JSON_parse b1 app user file version sid
  = loadArtifact JSON_parse b2 app user file version sid.
Proof.
  intros Hsame.
  pose proof (listVersions_agree b1 b2 app user file sid Hsame) as Hlist.
  destruct version as [v|].
  - destruct (decide (v = 0)) as [->|Hv].
    + rewrite !loadArtifact_zero, !loadArtifact_latest, Hlist.
      destruct (listVersions b2 app user file sid); [done|].
      by rewrite Hsame.
    + by rewrite !loadArtifact_version, Hsame by done.
  - rewrite !loadArtifact_latest, Hlist.
    destruct (listVersions b2 app user file sid); [done|].
    by rewrite Hsame.
Qed.

(** X5. [deleteArtifact] builds its path without a session id, so it only
    reaches the ['shared'] session: for a session id other than ['shared'],
    the versions listed and the part loaded, by any version number or the
    latest, are the same after the deletion as before. *)
Theorem deleteArtifact_keeps_session_versions (b : gmap string GcsObject)
    (app user file s : string) (version : option N) :
  noSlash s → s ≠ "shared" →
  listVersions (deleteArtifact b app user file) app user file (Some s)
  = listVersions b app user file (Some s)
  ∧ loadArtifact JSON_parse (deleteArtifact b app user file)
      app user file version (Some s)
    = loadArtifact JSON_parse b app user file version (Some s).
Proof.
  intros Hs Hne.
  assert (Hkept : ∀ rest,
    deleteArtifact b app user file
      !! (getArtifactPath app user file (Some s) +:+ rest)
    = b !! (getArtifactPath app user file (Some s) +:+ rest)).
  { intros rest. rewrite deleteArtifact_lookup.
    by rewrite (session_paths_apart app user file file rest (Some s) None)
      by done. }
  split.
  - by apply listVersions_agree.
  - by apply loadArtifact_agree.
Qed.

End Deletion.

Lemma deleteArtifact_keeps_session_versions_witness :
  listVersions
    (deleteArtifact
       (<["app/u1/s1/a.pdf/v1" := rawObject "application/json" ["a"%byte]]>
          (<["app/u1/shared/a.pdf/v1" :=
               rawObject "application/json" ["b"%byte]]> ∅))
       "app" "u1" "a.pdf")
    "app" "u1" "a.pdf" (Some "s1")
  = listVersions
      (<["app/u1/s1/a.pdf/v1" := rawObject "application/json" ["a"%byte]]>
         (<["app/u1/shared/a.pdf/v1" :=
              rawObject "application/json" ["b"%byte]]> ∅))
      "app" "u1" "a.pdf" (Some "s1")
  ∧ loadArtifact sampleParse
      (deleteArtifact
         (<["app/u1/s1/a.pdf/v1" := rawObject "application/json" ["a"%byte]]>
            (<["app/u1/shared/a.pdf/v1" :=
                 rawObject "application/json" ["b"%byte]]> ∅))
         "app" "u1" "a.pdf")
      "app" "u1" "a.pdf" None (Some "s1")
    = loadArtifact sampleParse
        (<["app/u1/s1/a.pdf/v1" := rawObject "application/json" ["a"%byte]]>
           (<["app/u1/shared/a.pdf/v1" :=
                rawObject "application/json" ["b"%byte]]> ∅))
        "app" "u1" "a.pdf" None (Some "s1").
Proof.
  apply (deleteArtifact_keeps_session_versions sampleParse
           (<["app/u1/s1/a.pdf/v1" := rawObject "application/json" ["a"%byte]]>
              (<["app/u1/shared/a.pdf/v1" :=
                   rawObject "application/json" ["b"%byte]]> ∅))
           "app" "u1" "a.pdf" "s1" None).
  - reflexivity.
  - discriminate.
Defined.


(** ** Non-streaming responses *)

Import NonStreaming ResponseReadings.

Lemma truthy_append_l (a b : string) :
  Js.truthy a = true → Js.truthy (a +:+ b) = true.
Proof. destruct a; [done|]. by rewrite append_cons. Qed.

Lemma base64_truthy (b : byte) (bs : list byte) :
  Js.truthy (base64 (b :: bs)) = true.
Proof. destruct bs as [|c [|d bs]]; reflexivity. Qed.

Lemma collectPart_fold (c : Collected) (parts : list ResponsePart) :
  foldl collectPart c parts
  = {| responseText := responseText c +:+ partsText parts;
       imageParts := imageParts c ++ omap partImage parts;
       artifactImages := artifactImages c |}.
Proof.
  revert c. induction parts as [|part parts IH]; intros c.
  - destruct c as [t i a]. cbn. by rewrite append_nil_r, app_nil_r.
  - cbn [foldl]. rewrite IH. unfold collectPart, partImage, partText.
    cbn [partsText foldr omap list_omap]. unfold partText, partImage.
    destruct (truthy_field (part_text part)) as [t|]; cbn.
    { by rewrite append_assoc. }
    rewrite append_nil_l.
    destruct (part_inline_data part) as [inline|]; cbn; [|done].
    destruct (truthy_field (inline_mime_type inline)) as [mime|]; cbn; [|done].
    destruct (truthy_field (inline_image_data inline)) as [d|]; cbn; [|done].
    by rewrite <- app_assoc.
Qed.

Section NonStreamingFacts.

Context (connected : bool).
Context (bucket : gmap string GcsObject).

Lemma collectArtifact_stored (jid sessionId : string) (c : Collected)
    (name : string) :
  collectArtifact connected bucket jid sessionId c name
  = {| responseText := responseText c; imageParts := imageParts c;
       artifactImages :=
         artifactImages c
         ++ (if connected
             then option_list (storedImage bucket jid sessionId name)
             else []) |}.
Proof.
  destruct c as [t i a]. cbn [responseText imageParts artifactImages].
  unfold collectArtifact, storedImage, loadArtifactBySession, getUserIdFromJid,
    sessionArtifactPath, mimeOfName.
  cbn [responseText imageParts artifactImages].
  destruct (isImageArtifact name);
    [|destruct connected; by rewrite app_nil_r].
  destruct connected; cbn [negb]; [|by rewrite app_nil_r].
  change (Js.toString (default 0 None)) with "0".
  replace ("app" +:+ "/" +:+ jid +:+ "/" +:+ sessionId +:+ "/" +:+ name
             +:+ "/" +:+ "0")
    with ("app/" +:+ jid +:+ "/" +:+ sessionId +:+ "/" +:+ name +:+ "/0")
    by done.
  destruct (bucket !! _) as [o|]; cbn [mbind option_bind option_list];
    [|by rewrite app_nil_r].
  cbn [image_data image_mimeType].
  destruct (content o) as [|b bs]; [by rewrite app_nil_r|].
  rewrite base64_truthy. cbn [option_list].
  by destruct (_ || _), (Js.includes name ".webp").
Qed.

Lemma collectArtifact_fold (jid sessionId : string) (c : Collected)
    (names : list string) :
  foldl (collectArtifact connected bucket jid sessionId) c names
  = {| responseText := responseText c; imageParts := imageParts c;
       artifactImages :=
         artifactImages c
         ++ (if connected then omap (storedImage bucket jid sessionId) names
             else []) |}.
Proof.
  revert c. induction names as [|name names IH]; intros c.
  - destruct c, connected; cbn; by rewrite app_nil_r.
  - cbn [foldl]. rewrite IH, collectArtifact_stored.
    cbn [responseText imageParts artifactImages]. f_equal.
    rewrite <- app_assoc. f_equal.
    destruct connected; [|done]. cbn [omap list_omap].
    by destruct (storedImage bucket jid sessionId name).
Qed.

Lemma collectEvent_images (jid sessionId : string) (c : Collected)
    (event : ResponseEvent) :
  imageParts (collectEvent connected bucket jid sessionId c event)
  = imageParts c ++ omap partImage (eventParts event)
  ∧ artifactImages (collectEvent connected bucket jid sessionId c event)
    = artifactImages c
      ++ (if connected
          then omap (storedImage bucket jid sessionId)
                 (default [] (artifactDelta event))
          else []).
Proof.
  unfold collectEvent, eventParts.
  set (c' := match event_parts event with Some (_ :: _) => _ | _ => _ end).
  assert (Hc' : imageParts c' = imageParts c ++ omap partImage (default [] (event_parts event))
                ∧ artifactImages c' = artifactImages c).
  { subst c'. destruct (event_parts event) as [[|part parts]|]; cbn [default].
    - rewrite app_nil_r. by destruct (truthy_field _).
    - by rewrite collectPart_fold.
    - rewrite app_nil_r. by destruct (truthy_field _). }
  destruct Hc' as [Hi Ha].
  destruct (artifactDelta event) as [names|]; cbn [default].
  - rewrite collectArtifact_fold. cbn [imageParts artifactImages].
    by rewrite Hi, Ha.
  - rewrite Hi, Ha. split; [done|]. destruct connected; by rewrite app_nil_r.
Qed.

Lemma collectEvent_text (jid sessionId : string) (c : Collected)
    (event : ResponseEvent) :
  truthy_field (event_response event) = None →
  responseText (collectEvent connected bucket jid sessionId c event)
  = responseText c +:+ partsText (eventParts event).
Proof.
  intros Hr. unfold collectEvent, eventParts. rewrite Hr.
  set (c' := match event_parts event with Some (_ :: _) => _ | _ => _ end).
  assert (Hc' : responseText c'
                = responseText c +:+ partsText (default [] (event_parts event))).
  { subst c'. destruct (event_parts event) as [[|part parts]|]; cbn [default].
    - by rewrite append_nil_r.
    - by rewrite collectPart_fold.
    - by rewrite append_nil_r. }
  destruct (artifactDelta event) as [names|]; [|done].
  by rewrite collectArtifact_fold.
Qed.

Lemma partsText_app (l k : list ResponsePart) :
  partsText (l ++ k) = partsText l +:+ partsText k.
Proof.
  induction l as [|part l IH]; cbn [app partsText foldr].
  - by rewrite append_nil_l.
  - fold (partsText (l ++ k)). fold (partsText l).
    by rewrite IH, append_assoc.
Qed.

Lemma collectEvents_images (jid sessionId : string) (c : Collected)
    (events : list ResponseEvent) :
  imageParts (foldl (collectEvent connected bucket jid sessionId) c events)
  = imageParts c ++ omap partImage (eventsParts events)
  ∧ artifactImages (foldl (collectEvent connected bucket jid sessionId) c events)
    = artifactImages c
      ++ (if connected
          then omap (storedImage bucket jid sessionId) (eventsArtifacts events)
          else []).
Proof.
  unfold eventsParts, eventsArtifacts.
  revert c. induction events as [|event events IH]; intros c.
  - destruct connected; cbn; by rewrite !app_nil_r.
  - cbn [foldl]. destruct (IH (collectEvent connected bucket jid sessionId c event))
      as [-> ->].
    destruct (collectEvent_images jid sessionId c event) as [-> ->].
    rewrite !bind_cons, !omap_app, <- !app_assoc.
    split; [done|]. f_equal. by destruct connected.
Qed.

Lemma collectEvents_text (jid sessionId : string) (c : Collected)
    (events : list ResponseEvent) :
  Forall (λ event, truthy_field (event_response event) = None) events →
  responseText (foldl (collectEvent connected bucket jid sessionId) c events)
  = responseText c +:+ partsText (eventsParts events).
Proof.
  unfold eventsParts.
  intros Hall. revert c. induction Hall as [|event events Hr _ IH]; intros c.
  - cbn. by rewrite append_nil_r.
  - cbn [foldl]. rewrite IH, collectEvent_text by done.
    by rewrite bind_cons, partsText_app, append_assoc.
Qed.

Lemma handleNonStreamingResponse_images (data : ResponseData)
    (jid sessionId : string) :
  (handleNonStreamingResponse connected bucket data jid sessionId).2
  = imageParts (collect connected bucket data jid sessionId)
    ++ artifactImages (collect connected bucket data jid sessionId).
Proof.
  unfold handleNonStreamingResponse.
  destruct (Js.truthy _); [done|]. cbn [orb].
  destruct (bool_decide _) eqn:E; [done|].
  apply bool_decide_eq_false in E. cbn [snd].
  destruct (_ ++ _); [done|]. cbn in E. lia.
Qed.

Lemma handleNonStreamingResponse_text (data : ResponseData)
    (jid sessionId : string) :
  (handleNonStreamingResponse connected bucket data jid sessionId).1
  = if Js.truthy (responseText (collect connected bucket data jid sessionId))
    then responseText (collect connected bucket data jid sessionId)
    else match (handleNonStreamingResponse connected bucket data jid sessionId).2
         with
         | [] => "I received your message, but the AI service returned an unexpected response format. Please try rephrasing your question."
         | _ :: _ => "Here's your generated image:"
         end.
Proof.
  rewrite handleNonStreamingResponse_images.
  unfold handleNonStreamingResponse.
  destruct (Js.truthy _); [done|]. cbn [orb].
  destruct (_ ++ _); by cbn.
Qed.

(** X6. For an array response, the images returned are the inline images of
    all parts of all events, in order, followed by the artifact images, in
    the order the events name them.  An artifact contributes an image only
    when the storage answers, its name looks like an image, and version 0 of
    it exists with at least one byte in the folder of the user and the
    session. *)
Theorem handleNonStreamingResponse_array_images
    (events : list ResponseEvent) (jid sessionId : string) :
  (handleNonStreamingResponse connected bucket (ArrayData events) jid sessionId).2
  = omap partImage (eventsParts events)
    ++ (if connected
        then omap (storedImage bucket jid sessionId) (eventsArtifacts events)
        else []).
Proof.
  rewrite handleNonStreamingResponse_images. unfold collect.
  by destruct (collectEvents_images jid sessionId
                 {| responseText := EmptyString; imageParts := [];
                    artifactImages := [] |} events) as [-> ->].
Qed.

(** X7. For an array response whose events carry no [response] field, the
    text returned is the text of all parts of all events joined in order;
    when that is empty, it is the caption for images if there is an image and
    the apology for an unexpected format otherwise. *)
Theorem handleNonStreamingResponse_array_text
    (events : list ResponseEvent) (jid sessionId : string) :
  Forall (λ event, truthy_field (event_response event) = None) events →
  (handleNonStreamingResponse connected bucket (ArrayData events) jid sessionId).1
  = if Js.truthy (partsText (eventsParts events))
    then partsText (eventsParts events)
    else match (handleNonStreamingResponse connected bucket (ArrayData events)
                  jid sessionId).2 with
         | [] => "I received your message, but the AI service returned an unexpected response format. Please try rephrasing your question."
         | _ :: _ => "Here's your generated image:"
         end.
Proof.
  intros Hall. rewrite handleNonStreamingResponse_text. unfold collect.
  by rewrite collectEvents_text, append_nil_l by done.
Qed.

Lemma handleNonStreamingResponse_truthy (data : ResponseData)
    (jid sessionId : string) :
  Js.truthy (handleNonStreamingResponse connected bucket data jid sessionId).1
  = true.
Proof.
  rewrite handleNonStreamingResponse_text.
  destruct (Js.truthy (responseText _)) eqn:E; [exact E|].
  by destruct (_.2).
Qed.

End NonStreamingFacts.

(** ** Replies of a turn *)

Import ResponseScenarios.

Lemma errorReply_truthy (error : JsError) :
  Js.truthy (replyText (errorReply error)) = true.
Proof. by destruct error as [status statusText|[]]. Qed.

Section ReplyFacts.

Context {Data : Type}.
Context (backend : Backend Data).
Context (handleResponse : Data → string → option (Reply + JsError)).

Lemma sendToADK_reply_truthy (fuel : nat) (st st' : BotState)
    (sid uid : string) (reply : Reply) :
  (∀ data sessionId r,
     handleResponse data sessionId = Some (inl r) →
     Js.truthy (replyText r) = true) →
  sendToADK backend handleResponse fuel st sid uid = Some (reply, st') →
  Js.truthy (replyText reply) = true.
Proof.
  intros Hhandler. revert st sid.
  induction fuel as [|fuel IH]; intros st sid; [done|].
  cbn [sendToADK].
  destruct (runReply backend _) as [status statusText data|code].
  2:{ intros [= <- _]. apply errorReply_truthy. }
  destruct (negb _).
  { intros [= <- _]. apply errorReply_truthy. }
  destruct (bool_decide (status = 500)).
  { destruct (createADKSession _ _ _) as [[newSessionId|] st1].
    - apply IH.
    - by intros [= <- _]. }
  destruct (bool_decide (status = 200)).
  - destruct (handleResponse data sid) as [[r|error]|] eqn:Hr; [| |done].
    + intros [= <- _]. by apply (Hhandler data sid).
    + intros [= <- _]. apply errorReply_truthy.
  - by intros [= <- _].
Qed.

End ReplyFacts.

(** X8. Whatever the backend answers, whatever the shape of the response
    data and whatever the artifacts bucket holds, a reply that [sendToADK]
    returns through the non-streaming handler has a non-empty text: the user
    is never sent an empty message. *)
Theorem sendToADK_reply_not_empty (fuel : nat) (st st' : BotState)
    (sid uid jid : string) (reply : Reply)
    (connected : bool) (bucket : gmap string GcsObject)
    (backend : Backend ResponseData) :
  sendToADK backend (awaitNonStreamingResponse connected bucket jid)
    fuel st sid uid = Some (reply, st') →
  Js.truthy (replyText reply) = true.
Proof.
  apply sendToADK_reply_truthy. intros data sessionId r.
  unfold awaitNonStreamingResponse.
  pose proof (handleNonStreamingResponse_truthy connected bucket data
                jid sessionId) as Htext.
  destruct (handleNonStreamingResponse _ _ _ _ _) as [t images].
  by intros [= <-].
Qed.

Lemma sendToADK_reply_not_empty_witness :
  Js.truthy
    (replyText (ReplyParts "Here's your generated image:"
                  [{| image_mimeType := "image/png"; image_data := "TWFu" |}]))
  = true.
Proof.
  apply (sendToADK_reply_not_empty 1 freshBot
           {| activeSessions := ∅; sessionBucket := ∅; creations := 0;
              submissions := ["s1"]; outbox := [] |}
           "s1" "u1" "u1" _ true ∅
           (steadyBackend
              (ArrayData [partsEvent [imagePart "image/png" "TWFu"] []]))).
  vm_compute. reflexivity.
Defined.

(** X9. The same holds in the streaming variant: whatever the backend
    answers and whatever the stream emits, a reply that [sendToADK] returns
    through [handleStreamingResponse] has a non-empty text. *)
Theorem sendToADK_streaming_reply_not_empty (fuel : nat) (st st' : BotState)
    (sid uid : string) (reply : Reply)
    (backend : Backend (list StreamSignal)) :
  sendToADK backend (λ stream _, awaitStreamingResponse stream)
    fuel st sid uid = Some (reply, st') →
  Js.truthy (replyText reply) = true.
Proof.
  apply sendToADK_reply_truthy. intros stream _ r.
  unfold awaitStreamingResponse, handleStreamingResponse.
  destruct (promise _) as [|v|error] eqn:Hp; [done| |done].
  intros [= <-]. apply truthy_true.
  eapply signals_resolved_not_empty; [|exact Hp].
  intros v' Hv'. cbn in Hv'. discriminate Hv'.
Qed.

Lemma sendToADK_streaming_reply_not_empty_witness :
  Js.truthy (replyText (ReplyText "Hello")) = true.
Proof.
  apply (sendToADK_streaming_reply_not_empty 1 freshBot
           {| activeSessions := ∅; sessionBucket := ∅; creations := 0;
              submissions := ["s1"]; outbox := [] |}
           "s1" "u1" _
           (steadyBackend [OnData [DataEvent (fragment "Hello" None)]])).
  vm_compute. reflexivity.
Defined.

(** ** Sessions over time *)

Import SessionCache SessionScenarios.



Section SessionsOverTime.

Context {Data : Type}.
Context (backend : Backend Data).

Lemma createADKSession_maps (st : BotState) (uid : string) :
  activeSessions (createADKSession backend st uid).2 = activeSessions st
  ∧ sessionBucket (createADKSession backend st uid).2 = sessionBucket st
  ∧ outbox (createADKSession backend st uid).2 = outbox st
  ∧ creations (createADKSession backend st uid).2 = S (creations st).
Proof.
  unfold createADKSession.
  destruct (createSessionReply backend _) as [status statusText id|code]; [|done].
  by repeat case_bool_decide.
Qed.





End SessionsOverTime.






(** ** Base64 *)

Import Outbound.

Lemma unbase64_b64_char (i : N) : i < 64 → unbase64 (b64_char i) = Some i.
Proof.
  intros Hi. assert (Hn : (N.to_nat i < 64)%nat) by lia.
  rewrite <- (N2Nat.id i). revert Hn. generalize (N.to_nat i). clear.
  intros n Hn.
  do 64 (destruct n as [|n]; [reflexivity|]). lia.
Qed.

Lemma sextets_b64_char (i : N) (rest : string) :
  i < 64 → sextets (String (b64_char i) rest) = i :: sextets rest.
Proof. intros Hi. cbn [sextets]. by rewrite unbase64_b64_char. Qed.

Lemma sextets_padding (rest : string) : sextets (String "=" rest) = [].
Proof. reflexivity. Qed.

Lemma byteOf_to_N (b : byte) : byteOf (Byte.to_N b) = b.
Proof.
  unfold byteOf. pose proof (Byte.to_N_bounded b).
  rewrite N.mod_small by lia. by rewrite Byte.of_to_N.
Qed.

Lemma base64_first (x y : N) :
  x < 256 → y < 256 → (x / 4) * 4 + ((x mod 4) * 16 + y / 16) / 16 = x.
Proof. intros. zify. Z.to_euclidean_division_equations. lia. Qed.

Lemma base64_second (x y z : N) :
  x < 256 → y < 256 → z < 256 →
  (((x mod 4) * 16 + y / 16) mod 16) * 16 + ((y mod 16) * 4 + z / 64) / 4 = y.
Proof. intros. zify. Z.to_euclidean_division_equations. lia. Qed.

Lemma base64_third (y z : N) :
  y < 256 → z < 256 → (((y mod 16) * 4 + z / 64) mod 4) * 64 + z mod 64 = z.
Proof. intros. zify. Z.to_euclidean_division_equations. lia. Qed.

Lemma sextet_bounds (x y z : N) :
  x < 256 → y < 256 → z < 256 →
  x / 4 < 64 ∧ (x mod 4) * 16 + y / 16 < 64 ∧ (y mod 16) * 4 + z / 64 < 64
  ∧ z mod 64 < 64 ∧ (x mod 4) * 16 < 64 ∧ (y mod 16) * 4 < 64.
Proof. intros. zify. Z.to_euclidean_division_equations. lia. Qed.

Lemma by_threes {A} (P : list A → Prop) :
  P [] → (∀ a, P [a]) → (∀ a b, P [a; b]) →
  (∀ a b c l, P l → P (a :: b :: c :: l)) →
  ∀ l, P l.
Proof.
  intros H0 H1 H2 H3 l.
  assert (H : P l ∧ (∀ a, P (a :: l)) ∧ (∀ a b, P (a :: b :: l))).
  { induction l as [|c l (IH0 & IH1 & IH2)]; [done|].
    split; [apply IH1|]. split; [intros a; apply IH2|].
    intros a b. by apply H3. }
  apply H.
Qed.

Lemma decodeGroups_base64 (bytes : list byte) :
  decodeGroups (sextets (base64 bytes)) = bytes.
Proof.
  induction bytes as [|a|a b|a b c rest IH] using by_threes.
  - reflexivity.
  - pose proof (Byte.to_N_bounded a).
    destruct (sextet_bounds (Byte.to_N a) 0 0) as (? & _ & _ & _ & ? & _);
      [lia..|].
    cbn [base64]. rewrite !sextets_b64_char, sextets_padding by done.
    cbn [decodeGroups].
    replace (Byte.to_N a / 4 * 4 + Byte.to_N a mod 4 * 16 / 16)
      with (Byte.to_N a)
      by (zify; Z.to_euclidean_division_equations; lia).
    by rewrite byteOf_to_N.
  - pose proof (Byte.to_N_bounded a). pose proof (Byte.to_N_bounded b).
    destruct (sextet_bounds (Byte.to_N a) (Byte.to_N b) 0)
      as (? & ? & _ & _ & _ & ?); [lia..|].
    cbn [base64]. rewrite !sextets_b64_char, sextets_padding by done.
    cbn [decodeGroups].
    rewrite base64_first by lia.
    replace (((Byte.to_N a mod 4 * 16 + Byte.to_N b / 16) mod 16) * 16
             + Byte.to_N b mod 16 * 4 / 4)
      with (Byte.to_N b)
      by (zify; Z.to_euclidean_division_equations; lia).
    by rewrite !byteOf_to_N.
  - pose proof (Byte.to_N_bounded a). pose proof (Byte.to_N_bounded b).
    pose proof (Byte.to_N_bounded c).
    destruct (sextet_bounds (Byte.to_N a) (Byte.to_N b) (Byte.to_N c))
      as (? & ? & ? & ? & _ & _); [lia..|].
    cbn [base64]. rewrite !sextets_b64_char by done.
    cbn [decodeGroups].
    rewrite base64_first, base64_second, base64_third by lia.
    by rewrite !byteOf_to_N, IH.
Qed.

(** X13. Decoding undoes encoding: [Buffer.from(s, 'base64')] applied to
    [buffer.toString('base64')] gives back the bytes of the buffer, whatever
    they are and however many. *)
Theorem Buffer_from_base64_toString (bytes : list byte) :
  Buffer_from_base64 (base64 bytes) = bytes.
Proof. apply decodeGroups_base64. Qed.

(** ** Long messages *)

Import TextReadings.

Lemma trimStart_length (s : string) :
  (String.length (trimStart s) ≤ String.length s)%nat.
Proof.
  induction s as [|c s IH]; [done|]. cbn [trimStart].
  destruct (isSpace c); cbn [String.length]; lia.
Qed.

Lemma trimEnd_length (s : string) :
  (String.length (trimEnd s) ≤ String.length s)%nat.
Proof.
  induction s as [|c s IH]; [done|]. cbn [trimEnd].
  destruct (trimEnd s) as [|d kept].
  - destruct (isSpace c); cbn [String.length]; lia.
  - cbn [String.length] in *. lia.
Qed.

Lemma trim_length (s : string) :
  (String.length (trim s) ≤ String.length s)%nat.
Proof.
  unfold trim. pose proof (trimEnd_length (trimStart s)).
  pose proof (trimStart_length s). lia.
Qed.

Lemma substringTo_length (n : nat) (s : string) :
  (String.length (substringTo n s) ≤ n)%nat.
Proof.
  revert s. induction n as [|n IH]; intros [|c s]; cbn; try lia.
  specialize (IH s). lia.
Qed.

Lemma substring_length (n : nat) (s : string) :
  String.length (Js.substring n s) = (String.length s - n)%nat.
Proof.
  revert s. induction n as [|n IH]; intros [|c s]; cbn; try lia.
  apply IH.
Qed.

(** What the loops of [splitMessage] keep true: every chunk pushed and the
    chunk under construction fit. *)
Lemma wordStep_fits (maxLength : nat) (chunks : list string)
    (wordChunk word : string) :
  Forall (λ chunk, (String.length chunk ≤ maxLength)%nat) chunks →
  (String.length wordChunk ≤ maxLength)%nat →
  (String.length word ≤ maxLength)%nat →
  Forall (λ chunk, (String.length chunk ≤ maxLength)%nat)
    (wordStep maxLength (chunks, wordChunk) word).1
  ∧ (String.length (wordStep maxLength (chunks, wordChunk) word).2
     ≤ maxLength)%nat.
Proof.
  intros Hchunks Hwc Hword. unfold wordStep.
  case_bool_decide as Hfit.
  - split; [done|]. cbn [snd].
    rewrite !string_length_append in *.
    destruct (Js.truthy wordChunk); cbn [String.length] in *; lia.
  - destruct (Js.truthy wordChunk); cbn [fst snd].
    + split; [|done]. apply Forall_app. split; [done|]. by constructor.
    + split.
      * apply Forall_app. split; [done|]. constructor; [|done].
        apply substringTo_length.
      * rewrite substring_length. lia.
Qed.

Lemma words_fit (maxLength : nat) (words : list string)
    (chunks : list string) (wordChunk : string) :
  Forall (λ word, (String.length word ≤ maxLength)%nat) words →
  Forall (λ chunk, (String.length chunk ≤ maxLength)%nat) chunks →
  (String.length wordChunk ≤ maxLength)%nat →
  Forall (λ chunk, (String.length chunk ≤ maxLength)%nat)
    (foldl (wordStep maxLength) (chunks, wordChunk) words).1
  ∧ (String.length (foldl (wordStep maxLength) (chunks, wordChunk) words).2
     ≤ maxLength)%nat.
Proof.
  intros Hwords. revert chunks wordChunk.
  induction Hwords as [|word words Hword _ IH]; intros chunks wordChunk Hc Hw.
  - done.
  - cbn [foldl].
    destruct (wordStep_fits maxLength chunks wordChunk word Hc Hw Hword)
      as [Hc' Hw'].
    destruct (wordStep maxLength (chunks, wordChunk) word) as [chunks' wc'].
    by apply IH.
Qed.

Lemma sentenceStep_fits (maxLength : nat) (chunks : list string)
    (currentChunk sentence : string) :
  Forall (λ word, (String.length word ≤ maxLength)%nat)
    (Js.split " " sentence) →
  Forall (λ chunk, (String.length chunk ≤ maxLength)%nat) chunks →
  (String.length currentChunk ≤ maxLength)%nat →
  Forall (λ chunk, (String.length chunk ≤ maxLength)%nat)
    (sentenceStep maxLength (chunks, currentChunk) sentence).1
  ∧ (String.length (sentenceStep maxLength (chunks, currentChunk) sentence).2
     ≤ maxLength)%nat.
Proof.
  intros Hwords Hchunks Hcc. unfold sentenceStep.
  case_bool_decide as Hfit; [done|].
  assert (Hpushed :
    Forall (λ chunk, (String.length chunk ≤ maxLength)%nat)
      (if Js.truthy currentChunk
       then (chunks ++ [trim currentChunk], EmptyString)
       else (chunks, currentChunk)).1
    ∧ (String.length
         (if Js.truthy currentChunk
          then (chunks ++ [trim currentChunk], EmptyString)
          else (chunks, currentChunk)).2 ≤ maxLength)%nat).
  { destruct (Js.truthy currentChunk); cbn [fst snd]; [|done].
    split; [|cbn; lia]. apply Forall_app. split; [done|].
    constructor; [|done]. pose proof (trim_length currentChunk). lia. }
  destruct (if Js.truthy currentChunk then _ else _) as [chunks' cc'].
  cbn [fst snd] in Hpushed. destruct Hpushed as [Hc' Hcc'].
  case_bool_decide as Hlong; [|cbn [fst snd]; split; [done | lia]].
  destruct (words_fit maxLength (Js.split " " sentence) chunks' EmptyString
              Hwords Hc') as [Hc'' Hw]; [cbn; lia|].
  destruct (foldl _ _ _) as [chunks'' wordChunk]. cbn [fst snd] in *.
  split; [done|]. by destruct (Js.truthy wordChunk).
Qed.

Lemma sentences_fit (maxLength : nat) (sentences : list string)
    (chunks : list string) (currentChunk : string) :
  Forall (λ sentence,
            Forall (λ word, (String.length word ≤ maxLength)%nat)
              (Js.split " " sentence)) sentences →
  Forall (λ chunk, (String.length chunk ≤ maxLength)%nat) chunks →
  (String.length currentChunk ≤ maxLength)%nat →
  Forall (λ chunk, (String.length chunk ≤ maxLength)%nat)
    (foldl (sentenceStep maxLength) (chunks, currentChunk) sentences).1
  ∧ (String.length
       (foldl (sentenceStep maxLength) (chunks, currentChunk) sentences).2
     ≤ maxLength)%nat.
Proof.
  intros Hall. revert chunks currentChunk.
  induction Hall as [|sentence sentences Hs _ IH]; intros chunks cc Hc Hcc.
  - done.
  - cbn [foldl].
    destruct (sentenceStep_fits maxLength chunks cc sentence Hs Hc Hcc)
      as [Hc' Hcc'].
    destruct (sentenceStep maxLength (chunks, cc) sentence) as [chunks' cc'].
    by apply IH.
Qed.

Lemma splitMessage_fits (text : string) (maxLength : nat) :
  wordsFit maxLength text →
  Forall (λ chunk, (String.length chunk ≤ maxLength)%nat)
    (splitMessage text maxLength).
Proof.
  intros Hwords. unfold splitMessage.
  case_bool_decide as Hshort; [by repeat constructor|].
  destruct (sentences_fit maxLength (splitSentences text) [] EmptyString
              Hwords) as [Hc Hcc]; [done | cbn; lia |].
  destruct (foldl _ _ _) as [chunks cc]. cbn [fst snd] in *.
  apply Forall_forall. intros chunk [_ Hin]%list_elem_of_filter. revert chunk Hin.
  apply Forall_forall.
  destruct (Js.truthy cc); [|done].
  apply Forall_app. split; [done|]. constructor; [|done].
  pose proof (trim_length cc). lia.
Qed.

Lemma splitMessage_not_empty (text : string) (maxLength : nat) :
  text ≠ EmptyString →
  Forall (λ chunk, (0 < String.length chunk)%nat) (splitMessage text maxLength).
Proof.
  intros Htext. unfold splitMessage.
  case_bool_decide as Hshort.
  - constructor; [|done]. destruct text; [done | cbn; lia].
  - destruct (foldl _ _ _) as [chunks cc].
    apply Forall_forall. by intros chunk [Hlen _]%list_elem_of_filter.
Qed.

(** Words of a part of a text are no longer than the words of the text. *)
Lemma split_head_append (a b : string) :
  (String.length (default EmptyString (head (Js.split " " a)))
   ≤ String.length (default EmptyString (head (Js.split " " (a +:+ b)))))%nat.
Proof.
  induction a as [|c a IH].
  - cbn. lia.
  - rewrite append_cons. cbn [Js.split].
    destruct (Ascii.eqb c " "); [done|].
    destruct (Js.split " " a) as [|w ws], (Js.split " " (a +:+ b)) as [|v vs];
      cbn in *; lia.
Qed.

Lemma split_not_nil (sep : ascii) (s : string) : Js.split sep s ≠ [].
Proof.
  destruct s as [|c s]; [done|]. cbn [Js.split].
  destruct (Ascii.eqb c sep); [done|]. by destruct (Js.split sep s).
Qed.

Lemma split_append_fits (maxLength : nat) (a b : string) :
  Forall (λ word, (String.length word ≤ maxLength)%nat)
    (Js.split " " (a +:+ b)) →
  Forall (λ word, (String.length word ≤ maxLength)%nat) (Js.split " " a)
  ∧ Forall (λ word, (String.length word ≤ maxLength)%nat) (Js.split " " b).
Proof.
  induction a as [|c a IH].
  - rewrite append_nil_l. intros Hb. split; [|done].
    constructor; [cbn; lia | done].
  - rewrite append_cons. cbn [Js.split].
    destruct (Ascii.eqb c " ").
    + intros [H0 Hrest]%Forall_cons. destruct (IH Hrest) as [Ha Hb].
      split; [by constructor | done].
    + pose proof (split_head_append a b) as Hhead.
      pose proof (split_not_nil " " a) as Hna.
      destruct (Js.split " " (a +:+ b)) as [|v vs] eqn:Ev.
      { by apply split_not_nil in Ev. }
      intros [Hv Hvs]%Forall_cons. cbn [String.length] in Hv.
      destruct IH as [Ha Hb]; [constructor; [lia | done]|].
      split; [|done].
      destruct (Js.split " " a) as [|w ws]; [done|].
      apply Forall_cons in Ha as [Hw Hws].
      constructor; [|done]. cbn in *. lia.
Qed.

Lemma scanSentences_join (scan : Scan) (piece s : string) :
  joinStrings (scanSentences scan piece s) = piece +:+ s.
Proof.
  revert scan piece. induction s as [|c s IH]; intros scan piece.
  - destruct scan; cbn; by rewrite ?append_nil_r.
  - destruct scan; cbn [scanSentences];
      destruct (isTerminator c), (isSpace c);
      cbn [joinStrings foldr];
      rewrite ?IH, ?append_nil_l, ?append_assoc; reflexivity.
Qed.

Lemma joinStrings_elem (l : list string) (p : string) :
  p ∈ l → ∃ before after, joinStrings l = before +:+ p +:+ after.
Proof.
  induction 1 as [p l|p q l _ (before & after & IH)].
  - exists EmptyString, (joinStrings l). by rewrite append_nil_l.
  - exists (q +:+ before), after. cbn [joinStrings foldr].
    fold (joinStrings l). by rewrite IH, append_assoc.
Qed.

Lemma words_of_text_fit (maxLength : nat) (text : string) :
  Forall (λ word, (String.length word ≤ maxLength)%nat) (Js.split " " text) →
  wordsFit maxLength text.
Proof.
  intros Hwords. apply Forall_forall. intros sentence Hin.
  apply joinStrings_elem in Hin as (before & after & Hjoin).
  unfold splitSentences in Hjoin.
  rewrite scanSentences_join, append_nil_l in Hjoin. rewrite Hjoin in Hwords.
  apply split_append_fits in Hwords as [_ Hwords].
  by apply split_append_fits in Hwords as [Hwords _].
Qed.

(** X14. For an ASCII text, every chunk [splitMessage] returns is at most
    [maxLength] long, provided no word of the text, cut at the spaces, is
    longer than that; and no chunk of a non-empty text is empty. *)
Theorem splitMessage_chunks_fit (text : string) (maxLength : nat) :
  asciiText text →
  Forall (λ word, (String.length word ≤ maxLength)%nat) (Js.split " " text) →
  text ≠ EmptyString →
  Forall (λ chunk, (0 < String.length chunk ≤ maxLength)%nat)
    (splitMessage text maxLength).
Proof.
  intros _ Hwords%words_of_text_fit Htext.
  pose proof (splitMessage_fits text maxLength Hwords) as Hfit.
  pose proof (splitMessage_not_empty text maxLength Htext) as Hne.
  rewrite Forall_forall in *. intros chunk Hin.
  split; [by apply Hne | by apply Hfit].
Qed.

Lemma splitMessage_chunks_fit_witness :
  Forall (λ chunk, (0 < String.length chunk ≤ 12)%nat)
    (splitMessage "Hello there. How are you today? Fine!" 12).
Proof.
  apply (splitMessage_chunks_fit "Hello there. How are you today? Fine!" 12).
  - reflexivity.
  - vm_compute. repeat constructor.
  - discriminate.
Defined.

(** ** The socket *)

Import SocketReadings.

Section SocketFacts.

Context (accepts : nat → bool).

Lemma sendChunks_delivered (sock : Socket) (jid : string)
    (total index : nat) (chunks : list string) :
  delivered (sendChunks accepts sock jid total index chunks)
  = delivered sock
    ++ take (accepted accepts (attempts sock) (length chunks))
         (imap (λ i chunk,
                  SentText jid
                    (if bool_decide (1 < total)%nat
                     then partHeader (index + i) total +:+ chunk
                     else chunk))
            chunks).
Proof.
  revert sock index. induction chunks as [|chunk chunks IH]; intros sock index.
  - cbn. by rewrite app_nil_r.
  - cbn [sendChunks length accepted]. unfold sock_sendMessage.
    destruct (accepts (attempts sock)) eqn:Hok.
    + rewrite IH. cbn [delivered attempts]. rewrite <- app_assoc.
      f_equal. rewrite imap_cons. cbn [take app]. rewrite Nat.add_0_r.
      f_equal. f_equal. apply imap_ext. intros i chunk' _. unfold compose.
      by replace (S index + i)%nat with (index + S i)%nat by lia.
    + cbn [delivered take]. by rewrite app_nil_r.
Qed.

(** X15. An ASCII message of at most 800 characters is handed to the socket
    as it is.  A longer one is handed over chunk by chunk, in order, each
    chunk under its header [Part i/n] when there are several; the first
    chunk the socket refuses ends the sending, so that no later chunk is
    delivered. *)
Theorem sendMessage_delivers_until_refused (sock : Socket)
    (jid text : string) :
  asciiText text →
  delivered (sendMessage accepts sock jid text)
  = delivered sock
    ++ if bool_decide (String.length text ≤ 800)%nat
       then (if accepts (attempts sock) then [SentText jid text] else [])
       else take (accepted accepts (attempts sock)
                    (length (splitMessage text 800)))
              (framed jid (splitMessage text 800)).
Proof.
  intros _. unfold sendMessage. case_bool_decide as Hshort.
  - unfold sock_sendMessage. destruct (accepts (attempts sock)); cbn [snd delivered];
      [done | by rewrite app_nil_r].
  - rewrite sendChunks_delivered. f_equal.
Qed.

Lemma sendMessage_short (sock : Socket) (jid text : string) :
  (String.length text ≤ 800)%nat →
  sendMessage accepts sock jid text
  = (sock_sendMessage accepts sock (SentText jid text)).2.
Proof. intros Hshort. unfold sendMessage. by rewrite bool_decide_true. Qed.

(** X16. An image read from the artifacts bucket reaches the socket with the
    very bytes of the stored object and the MIME type chosen from its file
    name.  When the socket refuses the image, the apology is sent as a text
    instead, if the socket takes that. *)
Theorem sendImage_delivers_stored_bytes (bucket : gmap string GcsObject)
    (app user session file jid : string) (o : GcsObject) (sock : Socket) :
  bucket !! (app +:+ "/" +:+ user +:+ "/" +:+ session +:+ "/" +:+ file
             +:+ "/0") = Some o →
  ∃ imageData,
    loadArtifactBySession true bucket app user session file None
    = Some imageData
    ∧ delivered (sendImage accepts sock jid imageData)
      = delivered sock
        ++ if accepts (attempts sock)
           then [SentImage jid (content o) (mimeOfName file)
                   "🎨 Generated image"]
           else if accepts (S (attempts sock))
           then [SentText jid
                   "❌ Sorry, I had trouble sending the generated image. Please try again."]
           else [].
Proof.
  intros Hfound. unfold loadArtifactBySession. cbn [negb].
  change (Js.toString (default 0 None)) with "0".
  replace (app +:+ "/" +:+ user +:+ "/" +:+ session +:+ "/" +:+ file
             +:+ "/" +:+ "0")
    with (app +:+ "/" +:+ user +:+ "/" +:+ session +:+ "/" +:+ file +:+ "/0")
    by done.
  rewrite Hfound. cbn [mbind option_bind]. eexists. split; [done|].
  unfold sendImage. cbn [image_data image_mimeType].
  unfold Buffer_from_base64. rewrite decodeGroups_base64.
  unfold sock_sendMessage at 1.
  destruct (accepts (attempts sock)) eqn:Hok; [done|].
  rewrite sendMessage_short by (vm_compute; lia).
  unfold sock_sendMessage. cbn [attempts delivered].
  destruct (accepts (S (attempts sock))); cbn [snd delivered];
    [done | by rewrite app_nil_r].
Qed.

End SocketFacts.

Lemma sendImage_delivers_stored_bytes_witness :
  ∃ imageData,
    loadArtifactBySession true
      (<["app/u1/s1/cat.webp/0" := rawObject "image/png" ["M"; "a"; "n"; "!"]%byte]> ∅)
      "app" "u1" "s1" "cat.webp" None
    = Some imageData
    ∧ delivered (sendImage (λ _, true) {| attempts := 0; delivered := [] |}
                   "u1" imageData)
      = [SentImage "u1" ["M"; "a"; "n"; "!"]%byte "image/webp"
           "🎨 Generated image"].
Proof.
  exact (sendImage_delivers_stored_bytes (λ _, true)
           (<["app/u1/s1/cat.webp/0" :=
                rawObject "image/png" ["M"; "a"; "n"; "!"]%byte]> ∅)
           "app" "u1" "s1" "cat.webp" "u1"
           (rawObject "image/png" ["M"; "a"; "n"; "!"]%byte)
           {| attempts := 0; delivered := [] |} eq_refl).
Defined.

(** ** Media files and the artifact store *)

Lemma or_string_truthy (a : option string) (s : string) :
  or_string a None = Some s → Js.truthy s = true.
Proof.
  unfold or_string. destruct a as [t|]; [|done].
  destruct (Js.truthy t) eqn:E; [|done]. by intros [= <-].
Qed.

Lemma replace_extension (base ext rep : string) :
  Js.includes base "." = false →
  Js.replace (base +:+ String "." ext) (String "." ext) rep = base +:+ rep.
Proof.
  induction base as [|c base IH].
  - intros _. rewrite !append_nil_l. cbn [Js.replace].
    assert (Hp : String.prefix (String "." ext) (String "." ext) = true).
    { rewrite <- (append_nil_r (String "." ext)) at 2. apply prefix_append. }
    rewrite Hp.
    rewrite <- (append_nil_r (String "." ext)) at 2.
    by rewrite substring_append, append_nil_r.
  - rewrite includes_cons. intros [Hc Hbase]%orb_false_elim.
    rewrite !append_cons. cbn [Js.replace].
    rewrite prefix_cons in *.
    destruct (Ascii.eqb_spec "." c) as [<-|Hne].
    { by rewrite prefix_nil in Hc. }
    by rewrite IH.
Qed.

Section MediaStore.

Context {Worksheet : Type}.
Context (XLSX_read : list byte → option (Workbook Worksheet)).
Context (sheet_to_csv : option Worksheet → string).
Context (mammoth_extractRawText : list byte → option string).
Context (fileTypeFromBuffer : list byte → option string).
Context (JSON_stringify : ArtifactData → list byte).
Context (JSON_parse : list byte → option ArtifactData).
Context (ADK_APP_NAME : string).

Lemma saveConverted_loads (bucket bucket' : gmap string GcsObject)
    (now userId newName textContent format : string)
    (sessionId : option string) (result : MediaResult) :
  saveConverted JSON_stringify ADK_APP_NAME bucket now userId newName
    textContent sessionId format = (result, bucket') →
  result_filename result = newName
  ∧ loadArtifact JSON_parse bucket' ADK_APP_NAME userId
      (result_filename result) (Some (result_version result)) sessionId
    = documentPart
        <$> JSON_parse
              (JSON_stringify
                 {| mimeType := result_mimeType result;
                    data := part_data (result_part result);
                    timestamp := now;
                    filename := result_filename result |}).
Proof.
  unfold saveConverted.
  set (part := {| part_mimeType := Some "text/plain" |}).
  pose proof (proj2 (loadArtifact_saved JSON_stringify JSON_parse bucket now
                       ADK_APP_NAME userId newName part sessionId)) as Hload.
  destruct (saveArtifact _ _ _ _ _ _ _ _) as [v b'].
  intros [= <- <-]. split; [done|]. exact Hload.
Qed.

Lemma processMediaMessage_saves (bucket bucket' : gmap string GcsObject)
    (buffer : list byte) (uuid now : string) (message : Message)
    (userId : string) (sessionId : option string) (result : MediaResult) :
  processMediaMessage XLSX_read sheet_to_csv mammoth_extractRawText
    fileTypeFromBuffer JSON_stringify ADK_APP_NAME bucket buffer uuid now
    message userId sessionId
  = Ok (result, bucket') →
  ∃ part,
    saveArtifact JSON_stringify bucket now ADK_APP_NAME userId
      (result_filename result) part sessionId
    = (result_version result, bucket').
Proof.
  unfold processMediaMessage.
  destruct (String.eqb _ XLSX_MIME).
  { destruct (convertXlsxToText _ _ _) as [textContent|e]; [|done].
    unfold saveConverted.
    destruct (saveArtifact _ _ _ _ _ _ _ _) as [v b'] eqn:Es.
    intros [= <- <-]. by eexists. }
  destruct (String.eqb _ DOCX_MIME).
  { destruct (convertDocxToText _ _) as [textContent|e]; [|done].
    unfold saveConverted.
    destruct (saveArtifact _ _ _ _ _ _ _ _) as [v b'] eqn:Es.
    intros [= <- <-]. by eexists. }
  destruct (saveArtifact _ _ _ _ _ _ _ _) as [v b'] eqn:Es.
  intros [= <- <-]. by eexists.
Qed.

Lemma saveArtifact_other_session (b : gmap string GcsObject)
    (now app user file file' rest : string) (part : Part)
    (sid sid' : option string) :
  noSlash (default "shared" sid) → noSlash (default "shared" sid') →
  default "shared" sid ≠ default "shared" sid' →
  (saveArtifact JSON_stringify b now app user file' part sid).2
    !! (getArtifactPath app user file sid' +:+ rest)
  = b !! (getArtifactPath app user file sid' +:+ rest).
Proof.
  intros Hs Ht Hne.
  destruct (saveArtifact_bucket JSON_stringify b now app user file' part sid)
    as (o & _ & ->).
  rewrite lookup_insert_ne; [done|]. by apply session_names_apart.
Qed.

(** X17. What [processMediaMessage] saves can be read back: under the
    application name, the user, the session and the file name and version of
    its result, [loadArtifact] reads the document that was written, which
    carries the MIME type of the result and the bytes of its part. *)
Theorem processMediaMessage_saved_loads (bucket bucket' : gmap string GcsObject)
    (buffer : list byte) (uuid now : string) (message : Message)
    (userId : string) (sessionId : option string) (result : MediaResult) :
  processMediaMessage XLSX_read sheet_to_csv mammoth_extractRawText
    fileTypeFromBuffer JSON_stringify ADK_APP_NAME bucket buffer uuid now
    message userId sessionId
  = Ok (result, bucket') →
  loadArtifact JSON_parse bucket' ADK_APP_NAME userId
    (result_filename result) (Some (result_version result)) sessionId
  = documentPart
      <$> JSON_parse
            (JSON_stringify
               {| mimeType := result_mimeType result;
                  data := part_data (result_part result);
                  timestamp := now;
                  filename := result_filename result |}).
Proof.
  unfold processMediaMessage.
  set (declared := or_string (imageMessage message ≫= mimetype) _).
  set (mime := match or_string declared None with Some m => m | None => _ end).
  assert (Hmime : Js.truthy mime = true).
  { subst mime. destruct (or_string declared None) as [m|] eqn:E.
    - by apply or_string_truthy in E.
    - destruct (or_string (fileTypeFromBuffer buffer) None) as [m|] eqn:E';
        [by apply or_string_truthy in E' | done]. }
  set (name := match or_string (or_string _ _) None with
               | Some f => f | None => _ end).
  destruct (String.eqb mime XLSX_MIME).
  { destruct (convertXlsxToText _ _ _) as [textContent|e]; [|done].
    destruct (saveConverted _ _ _ _ _ _ _ _ _) as [r b'] eqn:Es.
    intros [= <- <-]. by apply saveConverted_loads in Es as [_ Es]. }
  destruct (String.eqb mime DOCX_MIME).
  { destruct (convertDocxToText _ _) as [textContent|e]; [|done].
    destruct (saveConverted _ _ _ _ _ _ _ _ _) as [r b'] eqn:Es.
    intros [= <- <-]. by apply saveConverted_loads in Es as [_ Es]. }
  set (part := {| part_mimeType := Some mime |}).
  pose proof (proj2 (loadArtifact_saved JSON_stringify JSON_parse bucket now
                       ADK_APP_NAME userId name part sessionId)) as Hload.
  destruct (saveArtifact _ _ _ _ _ _ _ _) as [v b'].
  cbn [fst snd] in Hload.
  intros [= <- <-]. cbn [result_filename result_version result_mimeType
                         result_part part_data].
  rewrite Hload. unfold artifactDocument. subst part.
  cbn [part_mimeType part_data inline_data]. unfold or_string at 1.
  rewrite Hmime. cbn [or_default]. by rewrite Hmime.
Qed.

(** X18. A spreadsheet or a Word document whose file name is a dot-free
    base followed by the extension of its type is saved under the base
    followed by [.txt]. *)
Theorem processMediaMessage_renames_to_txt
    (bucket bucket' : gmap string GcsObject)
    (buffer : list byte) (uuid now mime base userId : string)
    (sessionId : option string) (result : MediaResult) :
  mime = XLSX_MIME ∨ mime = DOCX_MIME →
  Js.includes base "." = false →
  processMediaMessage XLSX_read sheet_to_csv mammoth_extractRawText
    fileTypeFromBuffer JSON_stringify ADK_APP_NAME bucket buffer uuid now
    (documentOf mime (base +:+ getExtensionFromMimeType mime)) userId sessionId
  = Ok (result, bucket') →
  result_filename result = base +:+ ".txt"
  ∧ is_Some (bucket' !! (getArtifactPath ADK_APP_NAME userId (base +:+ ".txt")
                           sessionId
                         +:+ "/v" +:+ Js.toString (result_version result))).
Proof.
  intros Hmime Hbase.
  assert (Hname : ∀ ext, Js.truthy (base +:+ String "." ext) = true).
  { intros ext. destruct base; [done|]. by rewrite append_cons. }
  destruct Hmime as [-> | ->];
    change (getExtensionFromMimeType XLSX_MIME) with ".xlsx";
    change (getExtensionFromMimeType DOCX_MIME) with ".docx";
    unfold processMediaMessage, documentOf;
    cbn -[Js.replace saveConverted String.append Js.truthy].
  - repeat (rewrite (Hname "xlsx");
            cbn -[Js.replace saveConverted String.append Js.truthy]).
    destruct (convertXlsxToText _ _ _) as [textContent|e]; [|done].
    rewrite (replace_extension base "xlsx" ".txt") by done.
    unfold saveConverted.
    destruct (saveArtifact_bucket JSON_stringify bucket now ADK_APP_NAME userId
                (base +:+ ".txt")
                {| part_mimeType := Some "text/plain";
                   part_data :=
                     Some (Buffer (list_byte_of_string textContent));
                   inline_data :=
                     Some {| mime_type := Some "text/plain";
                             inline_payload :=
                               Some (Text (base64 (list_byte_of_string
                                                     textContent))) |} |}
                sessionId) as (o & _ & Hb).
    destruct (saveArtifact _ _ _ _ _ _ _ _) as [v b'].
    intros [= <- <-]. split; [done|]. cbn [result_version snd fst] in *.
    rewrite Hb, lookup_insert_eq. by eexists.
  - repeat (rewrite (Hname "docx");
            cbn -[Js.replace saveConverted String.append Js.truthy]).
    destruct (convertDocxToText _ _) as [textContent|e]; [|done].
    rewrite (replace_extension base "docx" ".txt") by done.
    unfold saveConverted.
    destruct (saveArtifact_bucket JSON_stringify bucket now ADK_APP_NAME userId
                (base +:+ ".txt")
                {| part_mimeType := Some "text/plain";
                   part_data :=
                     Some (Buffer (list_byte_of_string textContent));
                   inline_data :=
                     Some {| mime_type := Some "text/plain";
                             inline_payload :=
                               Some (Text (base64 (list_byte_of_string
                                                     textContent))) |} |}
                sessionId) as (o & _ & Hb).
    destruct (saveArtifact _ _ _ _ _ _ _ _) as [v b'].
    intros [= <- <-]. split; [done|]. cbn [result_version snd fst] in *.
    rewrite Hb, lookup_insert_eq. by eexists.
Qed.

End MediaStore.

(** ** Turns *)

Import Conversation.

Lemma updateUserActivity_lookup (b : gmap string SessionJson)
    (now uid path : string) :
  path ≠ getSessionFilePath uid →
  updateUserActivity b now uid !! path = b !! path.
Proof.
  intros Hpath. unfold updateUserActivity.
  destruct (getUserSession b uid) as [d|]; [|done].
  unfold storeUserSession. cbn [snd]. by rewrite lookup_insert_ne.
Qed.

Section TurnSessions.

Context {Data : Type}.
Context (backend : Backend Data).
Context (handleResponse : Data → string → option (Reply + JsError)).

Lemma resolveSession_others (st : BotState) (now uid : string)
    (messageText : option string) :
  (∀ uid', uid' ≠ uid →
     activeSessions (resolveSession backend st now uid messageText).2 !! uid'
     = activeSessions st !! uid')
  ∧ (∀ path, path ≠ getSessionFilePath uid →
       sessionBucket (resolveSession backend st now uid messageText).2 !! path
       = sessionBucket st !! path)
  ∧ submissions (resolveSession backend st now uid messageText).2
    = submissions st.
Proof.
  unfold resolveSession.
  destruct (activeSessions st !! uid) as [s|] eqn:Hmem.
  { cbn [snd activeSessions sessionBucket submissions set_activeSessions
           set_sessionBucket].
    split; [intros uid' Hne; by rewrite lookup_insert_ne|].
    split; [|done]. intros path Hpath. by apply updateUserActivity_lookup. }
  destruct (getUserSession (sessionBucket st) uid) as [d|] eqn:Hdur.
  { cbn [snd activeSessions sessionBucket submissions set_activeSessions
           set_sessionBucket].
    split; [intros uid' Hne; by rewrite lookup_insert_ne|].
    split; [|done]. intros path Hpath. by apply updateUserActivity_lookup. }
  destruct (createADKSession_maps backend st uid) as (Ha & Hb & _).
  assert (Hs : submissions (createADKSession backend st uid).2 = submissions st).
  { unfold createADKSession.
    destruct (createSessionReply backend _); [|done].
    by repeat case_bool_decide. }
  destruct (createADKSession backend st uid) as [[id|] st1];
    cbn [snd activeSessions sessionBucket submissions set_activeSessions
           set_sessionBucket WhatsAppBot.sendMessage] in *.
  - split.
    { intros uid' Hne. rewrite lookup_insert_ne by done. by rewrite Ha. }
    split; [|done]. intros path Hpath. unfold storeUserSession. cbn [snd].
    rewrite lookup_insert_ne by done. by rewrite Hb.
  - split; [intros uid' _; by rewrite Ha|].
    split; [|done]. intros path _. by rewrite Hb.
Qed.

Lemma resolveSession_cached (st st' : BotState) (now uid : string)
    (messageText : option string) (session : Session) :
  resolveSession backend st now uid messageText = (Some session, st') →
  activeSessions st' !! uid = Some session.
Proof.
  unfold resolveSession.
  destruct (activeSessions st !! uid) as [s|].
  { intros [= <- <-]. cbn [activeSessions set_activeSessions set_sessionBucket].
    apply lookup_insert_eq. }
  destruct (getUserSession (sessionBucket st) uid) as [d|].
  { intros [= <- <-]. cbn [activeSessions set_activeSessions set_sessionBucket].
    apply lookup_insert_eq. }
  destruct (createADKSession backend st uid) as [[id|] st1]; [|done].
  intros [= <- <-]. cbn [activeSessions set_activeSessions set_sessionBucket].
  apply lookup_insert_eq.
Qed.

Lemma resolveSession_outbox (st : BotState) (now uid : string)
    (messageText : option string) :
  outbox (resolveSession backend st now uid messageText).2
  = outbox st
    ++ match (resolveSession backend st now uid messageText).1 with
       | Some _ => []
       | None =>
           [(uid,
             "Sorry, I'm unable to create a new conversation session right now. Please try again later.")]
       end.
Proof.
  unfold resolveSession.
  destruct (activeSessions st !! uid) as [s|]; [by rewrite app_nil_r|].
  destruct (getUserSession (sessionBucket st) uid) as [d|];
    [by rewrite app_nil_r|].
  destruct (createADKSession_maps backend st uid) as (_ & _ & Ho & _).
  destruct (createADKSession backend st uid) as [[id|] st1];
    cbn [fst snd outbox set_activeSessions set_sessionBucket WhatsAppBot.sendMessage] in *.
  - by rewrite Ho, app_nil_r.
  - by rewrite Ho.
Qed.

Lemma sendToADK_others (fuel : nat) (st st' : BotState) (sid uid : string)
    (reply : Reply) :
  sendToADK backend handleResponse fuel st sid uid = Some (reply, st') →
  ∀ uid', uid' ≠ uid → activeSessions st' !! uid' = activeSessions st !! uid'.
Proof.
  revert st sid. induction fuel as [|fuel IH]; intros st sid; [done|].
  cbn [sendToADK].
  destruct (runReply backend (length (submissions st)))
    as [status statusText data|code]; [|by intros [= _ <-]].
  case_bool_decide; cbn [negb]; [|by intros [= _ <-]].
  case_bool_decide.
  - set (st1 := {| activeSessions := activeSessions st;
                   sessionBucket := sessionBucket st;
                   creations := creations st;
                   submissions := submissions st ++ [sid];
                   outbox := outbox st |}).
    destruct (createADKSession_maps backend st1 uid) as (Ha & _).
    destruct (createADKSession backend st1 uid) as [[new|] st2];
      cbn [snd] in Ha.
    + intros Hrun uid' Hne. rewrite (IH _ _ Hrun uid' Hne).
      cbn [activeSessions set_activeSessions].
      by rewrite lookup_alter_ne, Ha.
    + intros [= _ <-] uid' Hne. by rewrite Ha.
  - case_bool_decide; [|by intros [= _ <-]].
    destruct (handleResponse data sid) as [[r|e]|]; [| |done];
      by intros [= _ <-].
Qed.

End TurnSessions.

Section TurnFacts.

Context {Worksheet : Type}.
Context (XLSX_read : list byte → option (Workbook Worksheet)).
Context (sheet_to_csv : option Worksheet → string).
Context (mammoth_extractRawText : list byte → option string).
Context (fileTypeFromBuffer : list byte → option string).
Context (JSON_stringify : ArtifactData → list byte).
Context (JSON_parse : list byte → option ArtifactData).
Context (ADK_APP_NAME : string).
Context (backend : Backend ResponseData).
Context (connected : bool).
Context (accepts : nat → bool).

(** X19. A turn for one sender leaves every other user alone: whatever the
    message and however the turn ends, the in-memory session of any other
    user and any stored session file but the sender's are as before. *)
Theorem handleIncomingMessages_leaves_other_users (fuel : nat)
    (bot bot' : Bot) (incoming : Incoming) (download : option (list byte))
    (uuid now jid : string) :
  remoteJid incoming = Some jid →
  handleIncomingMessages XLSX_read sheet_to_csv mammoth_extractRawText
    fileTypeFromBuffer JSON_stringify ADK_APP_NAME backend connected accepts
    fuel bot (Some incoming) download uuid now = Some bot' →
  (∀ uid, uid ≠ jid →
     activeSessions (bot_state bot') !! uid
     = activeSessions (bot_state bot) !! uid)
  ∧ (∀ path, path ≠ getSessionFilePath jid →
       sessionBucket (bot_state bot') !! path
       = sessionBucket (bot_state bot) !! path).
Proof.
  intros Hjid. unfold handleIncomingMessages. rewrite Hjid.
  destruct (incoming_message incoming) as [message|]; [|by intros [= <-]].
  destruct (_ && _); [by intros [= <-]|].
  unfold or_string at 1. destruct (Js.truthy jid); [|by intros [= <-]].
  destruct (resolveSession_others backend (bot_state bot) now jid
              (extractMessageText message)) as (Hmem & Hdur & _).
  destruct (resolveSession backend (bot_state bot) now jid _)
    as [[session|] st]; cbn [snd] in Hmem, Hdur; [|by intros [= <-]].
  destruct (if hasMedia message then _ else _) as [[bucket sock']|e];
    [|by intros [= <-]].
  destruct (sendToADK _ _ _ _ _ _) as [[response st']|] eqn:Hrun; [|done].
  intros [= <-]. cbn [bot_state]. split.
  - intros uid Hne.
    by rewrite (sendToADK_others _ _ _ _ _ _ _ _ Hrun uid Hne), Hmem.
  - intros path Hpath.
    by rewrite (sendToADK_sessionBucket _ _ _ _ _ _ _ _ Hrun), Hdur.
Qed.

Lemma sendRecorded_resolved (st : BotState) (now jid : string)
    (messageText : option string) (sock : Socket) :
  sendRecorded accepts (length (outbox st))
    (resolveSession backend st now jid messageText).2 sock
  = match (resolveSession backend st now jid messageText).1 with
    | Some _ => sock
    | None =>
        (sock_sendMessage accepts sock
           (SentText jid
              "Sorry, I'm unable to create a new conversation session right now. Please try again later.")).2
    end.
Proof.
  unfold sendRecorded. rewrite resolveSession_outbox, drop_app_length.
  destruct (resolveSession backend st now jid messageText).1; [done|].
  cbn [foldl fst snd]. by rewrite sendMessage_short by (vm_compute; lia).
Qed.

(** X20. When the media file of a message cannot be downloaded or
    processed, the turn ends with one apology to the sender: the message is
    not submitted to the backend and nothing is written to the artifacts
    bucket.  What the session block has done before stays: the sessions are
    as [resolveSession] leaves them, so for a sender seen for the first time
    a session has been asked of the backend and, when granted, stored.  The
    apology is the one for the media file when the session could be
    resolved, and the one for the session otherwise. *)
Theorem handleIncomingMessages_media_failure (fuel : nat) (bot : Bot)
    (incoming : Incoming) (message : Message)
    (download : option (list byte)) (uuid now jid : string) :
  incoming_message incoming = Some message →
  hasMedia message = true →
  remoteJid incoming = Some jid →
  Js.truthy jid = true →
  (∀ buffer sid,
     download = Some buffer →
     ∃ e, processMediaMessage XLSX_read sheet_to_csv mammoth_extractRawText
            fileTypeFromBuffer JSON_stringify ADK_APP_NAME
            (artifactsBucket bot) buffer uuid now message jid sid
          = Throw e) →
  ∃ bot',
    handleIncomingMessages XLSX_read sheet_to_csv mammoth_extractRawText
      fileTypeFromBuffer JSON_stringify ADK_APP_NAME backend connected accepts
      fuel bot (Some incoming) download uuid now = Some bot'
    ∧ bot_state bot'
      = (resolveSession backend (bot_state bot) now jid
           (extractMessageText message)).2
    ∧ submissions (bot_state bot') = submissions (bot_state bot)
    ∧ artifactsBucket bot' = artifactsBucket bot
    ∧ delivered (sock bot')
      = delivered (sock bot)
        ++ if accepts (attempts (sock bot))
           then [SentText jid
                   match (resolveSession backend (bot_state bot) now jid
                            (extractMessageText message)).1 with
                   | Some _ =>
                       "❌ Sorry, I had trouble processing your media file. Please try again."
                   | None =>
                       "Sorry, I'm unable to create a new conversation session right now. Please try again later."
                   end]
           else [].
Proof.
  intros Hmessage Hmedia Hjid Htruthy Hfails.
  unfold handleIncomingMessages. rewrite Hmessage, Hmedia, Hjid.
  rewrite andb_false_r. unfold or_string at 1. rewrite Htruthy.
  pose proof (sendRecorded_resolved (bot_state bot) now jid
                (extractMessageText message) (sock bot)) as Hsent.
  destruct (resolveSession_others backend (bot_state bot) now jid
              (extractMessageText message)) as (_ & _ & Hsub).
  destruct (resolveSession backend (bot_state bot) now jid _)
    as [[session|] st]; cbn [fst snd] in *; rewrite Hsent.
  - assert (Hthrow : ∃ e,
      match download with
      | Some buffer =>
          match processMediaMessage XLSX_read sheet_to_csv
                  mammoth_extractRawText fileTypeFromBuffer JSON_stringify
                  ADK_APP_NAME (artifactsBucket bot) buffer uuid now message
                  jid (Some (sessionId session)) with
          | Ok (mediaResult, bucket) =>
              Ok (bucket,
                  Outbound.sendMessage accepts (sock bot) jid
                    (mediaNotice mediaResult))
          | Throw e => Throw e
          end
      | None => Throw "download"
      end = Throw e).
    { destruct download as [buffer|]; [|by eexists].
      destruct (Hfails buffer (Some (sessionId session)) eq_refl) as [e ->].
      by eexists. }
    destruct Hthrow as [e ->]. eexists. split; [done|].
    cbn [bot_state artifactsBucket sock]. split; [done|].
    split; [done|]. split; [done|].
    rewrite sendMessage_short by (vm_compute; lia).
    unfold sock_sendMessage.
    destruct (accepts (attempts (sock bot))); cbn [snd delivered];
      [done | by rewrite app_nil_r].
  - eexists. split; [done|].
    cbn [bot_state artifactsBucket sock]. split; [done|].
    split; [done|]. split; [done|].
    unfold sock_sendMessage.
    destruct (accepts (attempts (sock bot))); cbn [snd delivered];
      [done | by rewrite app_nil_r].
Qed.

Lemma sendImages_accepted (sock : Socket) (jid : string)
    (images : list ImageData) :
  (∀ n, accepts n = true) →
  delivered (foldl (λ sock image, sendImage accepts sock jid image) sock images)
  = delivered sock
    ++ ((λ image,
           SentImage jid (Buffer_from_base64 (image_data image))
             (image_mimeType image) "🎨 Generated image") <$> images).
Proof.
  intros Hok. revert sock. induction images as [|image images IH]; intros sock.
  - cbn. by rewrite app_nil_r.
  - cbn [foldl fmap list_fmap]. rewrite IH. unfold sendImage, sock_sendMessage.
    rewrite Hok. cbn [delivered]. by rewrite <- app_assoc.
Qed.

(** X21. A text message answered by an array of events without [response]
    fields, with a text of at most 800 characters: when the storage answers
    and the socket accepts every call, the sender receives that text first,
    then the inline images of the answer, then the images of the artifacts
    it names, each with the bytes its base64 text stands for. *)
Theorem handleIncomingMessages_delivers_answer (fuel : nat) (bot : Bot)
    (incoming : Incoming) (message : Message)
    (download : option (list byte)) (uuid now jid text statusText : string)
    (session : Session) (st : BotState) (events : list ResponseEvent) :
  incoming_message incoming = Some message →
  hasMedia message = false →
  extractMessageText message = Some text →
  remoteJid incoming = Some jid →
  Js.truthy jid = true →
  resolveSession backend (bot_state bot) now jid (Some text)
  = (Some session, st) →
  runReply backend (length (submissions (bot_state bot)))
  = HttpResponse 200 statusText (ArrayData events) →
  Forall (λ event, truthy_field (event_response event) = None) events →
  Js.truthy (partsText (eventsParts events)) = true →
  (String.length (partsText (eventsParts events)) ≤ 800)%nat →
  connected = true →
  (∀ n, accepts n = true) →
  ∃ bot',
    handleIncomingMessages XLSX_read sheet_to_csv mammoth_extractRawText
      fileTypeFromBuffer JSON_stringify ADK_APP_NAME backend connected accepts
      (S fuel) bot (Some incoming) download uuid now = Some bot'
    ∧ delivered (sock bot')
      = delivered (sock bot)
        ++ SentText jid (partsText (eventsParts events))
           :: ((λ image,
                  SentImage jid (Buffer_from_base64 (image_data image))
                    (image_mimeType image) "🎨 Generated image")
                 <$> (omap partImage (eventsParts events)
                      ++ omap (storedImage (artifactsBucket bot) jid
                                 (sessionId session))
                           (eventsArtifacts events))).
Proof.
  intros Hmessage Hmedia Htext Hjid Htruthy Hsession Hrun Hall Ht Hlen
    Hconnected Hok.
  unfold handleIncomingMessages.
  rewrite Hmessage, Hmedia, Htext, Hjid.
  rewrite bool_decide_true by (by eexists). cbn [negb andb].
  unfold or_string at 1. rewrite Htruthy.
  pose proof (sendRecorded_resolved (bot_state bot) now jid (Some text)
                (sock bot)) as Hsent.
  destruct (resolveSession_others backend (bot_state bot) now jid (Some text))
    as (_ & _ & Hsub).
  rewrite Hsession in *. cbn [fst snd] in Hsent, Hsub. rewrite Hsent.
  cbn [sendToADK]. rewrite Hsub, Hrun.
  rewrite bool_decide_true by lia. cbn [negb].
  rewrite bool_decide_false by done. rewrite bool_decide_true by done.
  unfold awaitNonStreamingResponse.
  pose proof (handleNonStreamingResponse_text connected (artifactsBucket bot)
                (ArrayData events) jid (sessionId session)) as Hreply.
  pose proof (handleNonStreamingResponse_images connected (artifactsBucket bot)
                (ArrayData events) jid (sessionId session)) as Himages.
  unfold collect in Hreply, Himages.
  rewrite collectEvents_text, append_nil_l in Hreply by done.
  rewrite Ht in Hreply.
  destruct (collectEvents_images connected (artifactsBucket bot) jid
              (sessionId session)
              {| responseText := EmptyString; imageParts := [];
                 artifactImages := [] |} events) as [Hi Ha].
  assert (Hif : ∀ l : list ImageData, (if connected then l else []) = l)
    by (intros l; by rewrite Hconnected).
  rewrite Hi, Ha, Hif in Himages.
  cbn [imageParts artifactImages app] in Himages.
  destruct (handleNonStreamingResponse _ _ _ _ _) as [t images].
  cbn [fst snd] in Hreply, Himages. subst t images.
  eexists. split; [done|]. cbn [sock sendResponse]. rewrite Ht.
  rewrite sendImages_accepted by done.
  rewrite sendMessage_short by done. unfold sock_sendMessage. rewrite Hok.
  cbn [snd delivered]. by rewrite <- app_assoc.
Qed.

(** X22. A media file is saved under the session the turn started with.
    When the backend then answers with a fault and the session is replaced,
    the turn ends under the new session while the file stays in the folder
    of the old one: nothing is stored for the user under the new session. *)
Theorem handleIncomingMessages_media_under_replaced_session (fuel : nat)
    (bot : Bot) (incoming : Incoming) (message : Message)
    (buffer : list byte) (uuid now jid new statusText : string)
    (session : Session) (st : BotState) (data : ResponseData)
    (result : MediaResult) (bucket : gmap string GcsObject) :
  incoming_message incoming = Some message →
  hasMedia message = true →
  remoteJid incoming = Some jid →
  Js.truthy jid = true →
  resolveSession backend (bot_state bot) now jid (extractMessageText message)
  = (Some session, st) →
  processMediaMessage XLSX_read sheet_to_csv mammoth_extractRawText
    fileTypeFromBuffer JSON_stringify ADK_APP_NAME (artifactsBucket bot)
    buffer uuid now message jid (Some (sessionId session))
  = Ok (result, bucket) →
  isFault (runReply backend (length (submissions (bot_state bot)))) →
  issues (createSessionReply backend (creations st)) new →
  runReply backend (S (length (submissions (bot_state bot))))
  = HttpResponse 200 statusText data →
  noSlash (sessionId session) → noSlash new → sessionId session ≠ new →
  ∃ bot',
    handleIncomingMessages XLSX_read sheet_to_csv mammoth_extractRawText
      fileTypeFromBuffer JSON_stringify ADK_APP_NAME backend connected accepts
      (S (S fuel)) bot (Some incoming) (Some buffer) uuid now = Some bot'
    ∧ sessionId <$> activeSessions (bot_state bot') !! jid = Some new
    ∧ submissions (bot_state bot')
      = submissions (bot_state bot) ++ [sessionId session; new]
    ∧ is_Some
        (artifactsBucket bot'
           !! (getArtifactPath ADK_APP_NAME jid (result_filename result)
                 (Some (sessionId session))
               +:+ "/v" +:+ Js.toString (result_version result)))
    ∧ ∀ file version,
        loadArtifact JSON_parse (artifactsBucket bot') ADK_APP_NAME jid file
          version (Some new)
        = loadArtifact JSON_parse (artifactsBucket bot) ADK_APP_NAME jid file
            version (Some new).
Proof.
  intros Hmessage Hmedia Hjid Htruthy Hsession Hprocess Hfault Hissues Hanswer
    Hold Hnew Hne.
  unfold handleIncomingMessages. rewrite Hmessage, Hmedia, Hjid.
  rewrite andb_false_r. unfold or_string at 1. rewrite Htruthy.
  pose proof (sendRecorded_resolved (bot_state bot) now jid
                (extractMessageText message) (sock bot)) as Hsent.
  destruct (resolveSession_others backend (bot_state bot) now jid
              (extractMessageText message)) as (_ & _ & Hsub).
  pose proof (resolveSession_cached backend _ _ _ _ _ _ Hsession) as Hcached.
  rewrite Hsession in *. cbn [fst snd] in Hsent, Hsub. rewrite Hsent, Hprocess.
  rewrite <- Hsub in Hfault, Hanswer.
  rewrite (sendToADK_fault backend _ (S fuel) st (sessionId session) jid new)
    by done.
  cbn [sendToADK]. cbn [afterFault submissions]. rewrite length_app.
  replace (length (submissions st) + length [sessionId session])%nat
    with (S (length (submissions st))) by (cbn; lia).
  rewrite Hanswer. rewrite bool_decide_true by lia. cbn [negb].
  rewrite bool_decide_false by done. rewrite bool_decide_true by done.
  unfold awaitNonStreamingResponse.
  destruct (handleNonStreamingResponse _ _ _ _ _) as [t images].
  eexists. split; [done|].
  cbn [bot_state artifactsBucket activeSessions submissions afterFault].
  split; [by rewrite lookup_alter_eq, Hcached|].
  split; [by rewrite Hsub, <- app_assoc|].
  apply processMediaMessage_saves in Hprocess as [part Hsave].
  split.
  - destruct (saveArtifact_bucket JSON_stringify (artifactsBucket bot) now
                ADK_APP_NAME jid (result_filename result) part
                (Some (sessionId session))) as (o & _ & Hb).
    rewrite Hsave in Hb. cbn [fst snd] in Hb.
    rewrite Hb, lookup_insert_eq. by eexists.
  - intros file version. apply loadArtifact_agree. intros rest.
    pose proof (saveArtifact_other_session JSON_stringify
                  (artifactsBucket bot) now ADK_APP_NAME jid file
                  (result_filename result) rest part
                  (Some (sessionId session)) (Some new) Hold Hnew Hne)
      as Hother.
    by rewrite Hsave in Hother.
Qed.

End TurnFacts.

(** ** Saving and listing *)

Lemma first_segment_apart (a b x y : string) :
  noSlash a → noSlash b → a ≠ b →
  Js.startsWith (a +:+ "/" +:+ x) (b +:+ "/" +:+ y) = false.
Proof.
  intros Ha Hb Hne. apply not_true_is_false. intros Hp. apply Hne.
  by apply prefix_segment in Hp.
Qed.

Section SavingAndListing.

Context (JSON_stringify : ArtifactData → list byte).

(** X23. What [saveArtifact] writes is never listed by [listArtifactKeys]:
    the one writes below [<app>/], the other reads below
    [<artifactsFolder>/<app>/].  When the application name is not the name of
    the artifacts folder, the listing of any application and user is the same
    after a save as before. *)
Theorem saveArtifact_never_listed (folder : string)
    (b : gmap string GcsObject) (now app user file : string) (part : Part)
    (sid : option string) (app' user' : string) :
  noSlash folder → noSlash app → app ≠ folder →
  listArtifactKeys folder
    (saveArtifact JSON_stringify b now app user file part sid).2 app' user'
  = listArtifactKeys folder b app' user'.
Proof.
  intros Hfolder Happ Hne.
  destruct (saveArtifact_bucket JSON_stringify b now app user file part sid)
    as (o & _ & ->).
  set (name := getArtifactPath app user file sid +:+ "/v" +:+ _) in *.
  assert (Hout : ∀ prefixRest,
            Js.startsWith name (folder +:+ "/" +:+ prefixRest) = false).
  { intros prefixRest. subst name. unfold getArtifactPath.
    rewrite !append_assoc. by apply first_segment_apart. }
  unfold listArtifactKeys. f_equal. f_equal. apply set_eq. intros f.
  rewrite !collected_filenames. 
  assert (Hfiles : ∀ n,
    n ∈ Gcs.getFiles (<[name := o]> b)
          (folder +:+ "/" +:+ app' +:+ "/" +:+ user' +:+ "/")
    ↔ n ∈ Gcs.getFiles b (folder +:+ "/" +:+ app' +:+ "/" +:+ user' +:+ "/")).
  { intros n. rewrite !getFiles_elem.
    destruct (decide (n = name)) as [->|Hn].
    - specialize (Hout (app' +:+ "/" +:+ user' +:+ "/")).
      rewrite Hout. by split; intros [_ ?].
    - by rewrite lookup_insert_ne. }
  split; (intros [H|(n & Hn & Hl)]; [by left | right; exists n; split; [|done]]);
    by apply Hfiles.
Qed.

End SavingAndListing.

Lemma saveArtifact_never_listed_witness :
  listArtifactKeys "artifacts"
    (saveArtifact sampleStringify twoConventionsBucket "t1" "app" "u1"
       "report.pdf" (bytesPart "application/pdf" ["a"%byte]) None).2 "app" "u1"
  = listArtifactKeys "artifacts" twoConventionsBucket "app" "u1".
Proof.
  apply (saveArtifact_never_listed sampleStringify "artifacts"
           twoConventionsBucket "t1" "app" "u1" "report.pdf"
           (bytesPart "application/pdf" ["a"%byte]) None "app" "u1").
  - reflexivity.
  - reflexivity.
  - discriminate.
Defined.

(** ** Names of media files *)

Lemma replace_truthy (s pat rep : string) :
  Js.truthy s = true → Js.truthy rep = true →
  Js.truthy (Js.replace s pat rep) = true.
Proof.
  intros Hs Hrep. destruct s as [|c s]; [done|].
  cbn [Js.replace]. destruct (String.prefix pat (String c s)); [|done].
  by apply truthy_append_l.
Qed.

Section MediaNames.

Context {Worksheet : Type}.
Context (XLSX_read : list byte → option (Workbook Worksheet)).
Context (sheet_to_csv : option Worksheet → string).
Context (mammoth_extractRawText : list byte → option string).
Context (fileTypeFromBuffer : list byte → option string).
Context (JSON_stringify : ArtifactData → list byte).
Context (ADK_APP_NAME : string).

(** X24. Whatever the message declares and whatever the sniffing finds, a
    media file that is processed gets a non-empty file name and a non-empty
    MIME type. *)
Theorem processMediaMessage_names_not_empty
    (bucket bucket' : gmap string GcsObject)
    (buffer : list byte) (uuid now : string) (message : Message)
    (userId : string) (sessionId : option string) (result : MediaResult) :
  processMediaMessage XLSX_read sheet_to_csv mammoth_extractRawText
    fileTypeFromBuffer JSON_stringify ADK_APP_NAME bucket buffer uuid now
    message userId sessionId
  = Ok (result, bucket') →
  Js.truthy (result_filename result) = true
  ∧ Js.truthy (result_mimeType result) = true.
Proof.
  unfold processMediaMessage.
  set (declared := or_string (imageMessage message ≫= mimetype) _).
  set (mime := match or_string declared None with Some m => m | None => _ end).
  assert (Hmime : Js.truthy mime = true).
  { subst mime. destruct (or_string declared None) as [m|] eqn:E.
    - by apply or_string_truthy in E.
    - destruct (or_string (fileTypeFromBuffer buffer) None) as [m|] eqn:E';
        [by apply or_string_truthy in E' | done]. }
  set (given := or_string (documentMessage message ≫= fileName) _).
  set (name := match or_string given None with Some f => f | None => _ end).
  assert (Hname : Js.truthy name = true).
  { subst name. destruct (or_string given None) as [f|] eqn:E.
    - by apply or_string_truthy in E.
    - reflexivity. }
  destruct (String.eqb mime XLSX_MIME).
  { destruct (convertXlsxToText _ _ _) as [textContent|e]; [|done].
    unfold saveConverted.
    destruct (saveArtifact _ _ _ _ _ _ _ _) as [v b'].
    intros [= <- <-]. split; [by apply replace_truthy | done]. }
  destruct (String.eqb mime DOCX_MIME).
  { destruct (convertDocxToText _ _) as [textContent|e]; [|done].
    unfold saveConverted.
    destruct (saveArtifact _ _ _ _ _ _ _ _) as [v b'].
    intros [= <- <-]. split; [by apply replace_truthy | done]. }
  destruct (saveArtifact _ _ _ _ _ _ _ _) as [v b'].
  by intros [= <- <-].
Qed.

End MediaNames.

(** X25. [hasMedia] and [getMediaType] agree: a message has media exactly
    when [getMediaType] names a type for it, and a message with several media
    fields is typed by the first of image, video, audio and document. *)
Theorem hasMedia_getMediaType (m : Message) :
  (hasMedia m = true ↔ is_Some (getMediaType m))
  ∧ (is_Some (imageMessage m) → getMediaType m = Some "image")
  ∧ (imageMessage m = None → is_Some (videoMessage m) →
     getMediaType m = Some "video").
Proof.
  unfold hasMedia, getMediaType. split; [|split].
  - repeat case_bool_decide; cbn [orb];
      (split; [intros _; by eexists | done])
      || (split; [done | by intros [? ?]]).
  - intros Hi. by rewrite bool_decide_true.
  - intros Hi Hv. rewrite Hi.
    rewrite bool_decide_false by (by intros [? ?]).
    by rewrite bool_decide_true.
Qed.

(** ** Worked examples *)

Import TurnScenarios.

Lemma handleNonStreamingResponse_array_text_witness :
  (handleNonStreamingResponse true ∅
     (ArrayData [partsEvent [textPart "Hello, "] [];
                 partsEvent [textPart "world."] []])
     "u1" "s1").1
  = "Hello, world.".
Proof.
  refine (handleNonStreamingResponse_array_text true ∅
            [partsEvent [textPart "Hello, "] [];
             partsEvent [textPart "world."] []]
            "u1" "s1" _).
  repeat constructor.
Defined.

Lemma processMediaMessage_saved_loads_witness :
  match processSample (documentOf "application/pdf" "report.pdf") with
  | Ok (result, bucket') =>
      loadArtifact sampleParse bucket' "app" "u1" (result_filename result)
        (Some (result_version result)) (Some "s1")
      = documentPart
          <$> sampleParse
                (sampleStringify
                   {| mimeType := result_mimeType result;
                      data := part_data (result_part result);
                      timestamp := "t1";
                      filename := result_filename result |})
  | Throw _ => False
  end.
Proof.
  destruct (processSample (documentOf "application/pdf" "report.pdf"))
    as [[result bucket']|e] eqn:Hprocess.
  - exact (processMediaMessage_saved_loads sampleXlsxRead sampleSheetToCsv
             sampleExtractRawText sampleFileType sampleStringify sampleParse
             "app" ∅ bucket' ["P"; "K"]%byte "uuid" "t1"
             (documentOf "application/pdf" "report.pdf") "u1" (Some "s1")
             result Hprocess).
  - assert (Hok : bool_decide
                    (is_Some (okResult (processSample (documentOf "application/pdf" "report.pdf"))))
                  = true) by (vm_compute; reflexivity).
    rewrite Hprocess in Hok. discriminate Hok.
Defined.

Lemma processMediaMessage_renames_to_txt_witness :
  match processSample (documentOf XLSX_MIME "budget.xlsx") with
  | Ok (result, bucket') =>
      result_filename result = "budget.txt"
      ∧ is_Some (bucket' !! (getArtifactPath "app" "u1" "budget.txt" (Some "s1")
                              +:+ "/v" +:+ Js.toString (result_version result)))
  | Throw _ => False
  end.
Proof.
  destruct (processSample (documentOf XLSX_MIME "budget.xlsx"))
    as [[result bucket']|e] eqn:Hprocess.
  - exact (processMediaMessage_renames_to_txt sampleXlsxRead sampleSheetToCsv
             sampleExtractRawText sampleFileType sampleStringify "app" ∅
             bucket' ["P"; "K"]%byte "uuid" "t1" XLSX_MIME "budget" "u1"
             (Some "s1") result (or_introl eq_refl) eq_refl Hprocess).
  - assert (Hok : bool_decide
                    (is_Some (okResult (processSample (documentOf XLSX_MIME "budget.xlsx"))))
                  = true) by (vm_compute; reflexivity).
    rewrite Hprocess in Hok. discriminate Hok.
Defined.

Lemma processMediaMessage_names_not_empty_witness :
  match processSample (documentOf EmptyString EmptyString) with
  | Ok (result, bucket') =>
      Js.truthy (result_filename result) = true
      ∧ Js.truthy (result_mimeType result) = true
  | Throw _ => False
  end.
Proof.
  destruct (processSample (documentOf EmptyString EmptyString))
    as [[result bucket']|e] eqn:Hprocess.
  - exact (processMediaMessage_names_not_empty sampleXlsxRead sampleSheetToCsv
             sampleExtractRawText sampleFileType sampleStringify "app" ∅
             bucket' ["P"; "K"]%byte "uuid" "t1"
             (documentOf EmptyString EmptyString) "u1" (Some "s1") result
             Hprocess).
  - assert (Hok : bool_decide
                    (is_Some (okResult (processSample (documentOf EmptyString EmptyString))))
                  = true) by (vm_compute; reflexivity).
    rewrite Hprocess in Hok. discriminate Hok.
Defined.

Lemma handleIncomingMessages_leaves_other_users_witness :
  match sampleTurn (steadyBackend pictureAnswer) 1
          (botOf (botWith "u1" "session-7" "1000") ∅)
          (Some (textIncoming "u2" "hello")) None with
  | Some bot' =>
      (∀ uid, uid ≠ "u2" →
         activeSessions (bot_state bot') !! uid
         = activeSessions (botWith "u1" "session-7" "1000") !! uid)
      ∧ (∀ path, path ≠ getSessionFilePath "u2" →
           sessionBucket (bot_state bot') !! path
           = sessionBucket (botWith "u1" "session-7" "1000") !! path)
  | None => False
  end.
Proof.
  assert (Hok : bool_decide
                  (is_Some
                     (sampleTurn (steadyBackend pictureAnswer) 1
                        (botOf (botWith "u1" "session-7" "1000") ∅)
                        (Some (textIncoming "u2" "hello")) None))
                = true) by (vm_compute; reflexivity).
  destruct (sampleTurn _ _ _ _ _) as [bot'|] eqn:Hturn.
  - exact (handleIncomingMessages_leaves_other_users sampleXlsxRead
             sampleSheetToCsv sampleExtractRawText sampleFileType
             sampleStringify "app" (steadyBackend pictureAnswer) true
             (λ _, true) 1 (botOf (botWith "u1" "session-7" "1000") ∅) bot'
             (textIncoming "u2" "hello") None "uuid" "2000" "u2" eq_refl
             Hturn).
  - discriminate Hok.
Defined.

Lemma sendMessage_delivers_until_refused_witness :
  String.length (sentences 90) = 1170%nat
  ∧ length (splitMessage (sentences 90) 800) = 2%nat
  ∧ delivered
      (Outbound.sendMessage (λ n, bool_decide (n = 0)%nat)
         {| attempts := 0; delivered := [] |} "u1" (sentences 90))
    = take 1 (framed "u1" (splitMessage (sentences 90) 800)).
Proof.
  split; [by vm_compute|]. split; [by vm_compute|].
  rewrite (sendMessage_delivers_until_refused (λ n, bool_decide (n = 0)%nat)
             {| attempts := 0; delivered := [] |} "u1" (sentences 90));
    by vm_compute.
Defined.

Lemma handleIncomingMessages_media_failure_witness :
  ∃ bot',
    handleIncomingMessages failingXlsxRead sampleSheetToCsv
      sampleExtractRawText sampleFileType sampleStringify "app"
      (steadyBackend pictureAnswer) true (λ _, true) 1
      (botOf freshBot ∅)
      (Some (documentIncoming "u1" XLSX_MIME "budget.xlsx"))
      (Some ["P"; "K"]%byte) "uuid" "2000"
    = Some bot'
    ∧ creations (bot_state bot') = 1%nat
    ∧ json_sessionId <$> getUserSession (sessionBucket (bot_state bot')) "u1"
      = Some "session-0"
    ∧ submissions (bot_state bot') = []
    ∧ artifactsBucket bot' = ∅
    ∧ delivered (sock bot')
      = [SentText "u1"
           "❌ Sorry, I had trouble processing your media file. Please try again."].
Proof.
  destruct (handleIncomingMessages_media_failure failingXlsxRead
              sampleSheetToCsv sampleExtractRawText sampleFileType
              sampleStringify "app" (steadyBackend pictureAnswer) true
              (λ _, true) 1 (botOf freshBot ∅)
              (documentIncoming "u1" XLSX_MIME "budget.xlsx")
              (documentOf XLSX_MIME "budget.xlsx")
              (Some ["P"; "K"]%byte) "uuid" "2000" "u1"
              eq_refl eq_refl eq_refl eq_refl)
    as (bot' & Hturn & Hstate & Hsubmitted & Hbucket & Hsent).
  - intros buffer sid _. eexists. reflexivity.
  - exists bot'. split; [exact Hturn|].
    rewrite Hstate. split; [reflexivity|]. split; [by vm_compute|].
    rewrite <- Hstate. split; [exact Hsubmitted|].
    split; [exact Hbucket | exact Hsent].
Defined.

Lemma handleIncomingMessages_delivers_answer_witness :
  ∃ bot',
    sampleTurn (steadyBackend pictureAnswer) 1
      (botOf (botWith "u1" "session-7" "1000")
         (<["app/u1/session-7/cat.webp/0" :=
              rawObject "image/png" ["M"; "a"; "n"; "!"]%byte]> ∅))
      (Some (textIncoming "u1" "a cat, please")) None
    = Some bot'
    ∧ delivered (sock bot')
      = [SentText "u1" "Here it is.";
         SentImage "u1" ["M"; "a"; "n"; "!"]%byte "image/webp"
           "🎨 Generated image"].
Proof.
  destruct (handleIncomingMessages_delivers_answer sampleXlsxRead
              sampleSheetToCsv sampleExtractRawText sampleFileType
              sampleStringify "app" (steadyBackend pictureAnswer) true
              (λ _, true) 0
              (botOf (botWith "u1" "session-7" "1000")
                 (<["app/u1/session-7/cat.webp/0" :=
                      rawObject "image/png" ["M"; "a"; "n"; "!"]%byte]> ∅))
              (textIncoming "u1" "a cat, please")
              {| imageMessage := None; videoMessage := None;
                 audioMessage := None; documentMessage := None;
                 documentWithCaptionMessage := None;
                 conversation := Some "a cat, please";
                 extendedTextMessage := None |}
              None "uuid" "2000" "u1" "a cat, please" "OK"
              {| sessionId := "session-7"; userId := "u1";
                 createdAt := "1000"; lastActivity := "2000";
                 isReturningUser := false |}
              (resolveSession (steadyBackend pictureAnswer)
                 (botWith "u1" "session-7" "1000") "2000" "u1"
                 (Some "a cat, please")).2
              [partsEvent [textPart "Here it is."] ["cat.webp"]])
    as (bot' & Hturn & Hdelivered).
  - reflexivity.
  - reflexivity.
  - reflexivity.
  - reflexivity.
  - reflexivity.
  - reflexivity.
  - reflexivity.
  - repeat constructor.
  - reflexivity.
  - vm_compute. lia.
  - reflexivity.
  - reflexivity.
  - exists bot'. split; [exact Hturn | exact Hdelivered].
Defined.

Lemma handleIncomingMessages_media_under_replaced_session_witness :
  ∃ bot',
    sampleTurn (faultThenAnswer pictureAnswer) 2
      (botOf (botWith "u1" "session-7" "1000") ∅)
      (Some (documentIncoming "u1" "application/pdf" "report.pdf"))
      (Some ["P"; "K"]%byte)
    = Some bot'
    ∧ sessionId <$> activeSessions (bot_state bot') !! "u1" = Some "session-0"
    ∧ submissions (bot_state bot') = ["session-7"; "session-0"].
Proof.
  destruct (handleIncomingMessages_media_under_replaced_session sampleXlsxRead
              sampleSheetToCsv sampleExtractRawText sampleFileType
              sampleStringify sampleParse "app" (faultThenAnswer pictureAnswer)
              true (λ _, true) 0
              (botOf (botWith "u1" "session-7" "1000") ∅)
              (documentIncoming "u1" "application/pdf" "report.pdf")
              (documentOf "application/pdf" "report.pdf")
              ["P"; "K"]%byte "uuid" "2000" "u1" "session-0" "OK"
              {| sessionId := "session-7"; userId := "u1";
                 createdAt := "1000"; lastActivity := "2000";
                 isReturningUser := false |}
              (resolveSession (faultThenAnswer pictureAnswer)
                 (botWith "u1" "session-7" "1000") "2000" "u1" None).2
              pictureAnswer
              (default
                 {| result_filename := EmptyString;
                    result_mimeType := EmptyString; result_version := 0;
                    result_part := bytesPart EmptyString [];
                    converted := None; originalFormat := None |}
                 (okResult
                    (processMediaMessage sampleXlsxRead sampleSheetToCsv
                       sampleExtractRawText sampleFileType sampleStringify
                       "app" ∅ ["P"; "K"]%byte "uuid" "2000"
                       (documentOf "application/pdf" "report.pdf") "u1"
                       (Some "session-7"))))
              (saveArtifact sampleStringify ∅ "2000" "app" "u1" "report.pdf"
                 (bytesPart "application/pdf" ["P"; "K"]%byte)
                 (Some "session-7")).2)
    as (bot' & Hturn & Hsession & Hsubmissions & _).
  - reflexivity.
  - reflexivity.
  - reflexivity.
  - reflexivity.
  - reflexivity.
  - reflexivity.
  - reflexivity.
  - split; [by eexists | reflexivity].
  - reflexivity.
  - reflexivity.
  - reflexivity.
  - discriminate.
  - exists bot'. split; [exact Hturn|]. split; [exact Hsession|].
    exact Hsubmissions.
Defined.
